(** * Float-V on-the-fly transform: import rewriting and module caches

    A shallow embedding of [src/build/transform.ts]: the loader selector,
    the dependency lock, the import rewriter with its on-disk dependency
    cache, and the loader entry point with its in-memory module cache.

    JavaScript strings are sequences of UTF-16 code units; they are kept as
    [list N] so that the regular expressions of the source (whose [\s]
    class reaches beyond ASCII) are modelled on the same alphabet. *)

From Stdlib Require Import ZArith NArith List String Ascii Lia Bool.
From stdpp Require Import base option list gmap.

Import ListNotations.
Local Open Scope list_scope.
Local Open Scope N_scope.

(** ** JavaScript strings *)

Module JS.

Definition jsstring := list N.

(** An ASCII literal as a JavaScript string. *)
Definition js (s : string) : jsstring :=
  map N_of_ascii (list_ascii_of_string s).

Arguments js : simpl never.

(** [String.prototype.startsWith]. *)
Fixpoint startsWith (s prefix : jsstring) {struct prefix} : bool :=
  match prefix, s with
  | [], _ => true
  | p :: prefix', c :: s' => if N.eqb p c then startsWith s' prefix' else false
  | _ :: _, [] => false
  end.

(** The rest of [s] after [prefix], when [s] starts with it. *)
Fixpoint stripPrefix (prefix s : jsstring) {struct prefix} : option jsstring :=
  match prefix, s with
  | [], _ => Some s
  | p :: prefix', c :: s' => if N.eqb p c then stripPrefix prefix' s' else None
  | _ :: _, [] => None
  end.

(** [String.prototype.includes]. *)
Fixpoint includes (s needle : jsstring) : bool :=
  startsWith s needle ||
  match s with
  | [] => false
  | _ :: s' => includes s' needle
  end.

(** [String.prototype.endsWith]. *)
Definition endsWith (s suffix : jsstring) : bool :=
  startsWith (rev s) (rev suffix).

(** [String.prototype.slice(start, end)] with JavaScript's treatment of
    negative and out-of-range indices. *)
Definition sliceIndex (len i : Z) : Z :=
  if (i <? 0)%Z then Z.max (len + i) 0 else Z.min i len.

Definition slice (s : jsstring) (from to : Z) : jsstring :=
  let len := Z.of_nat (length s) in
  let a := sliceIndex len from in
  let b := sliceIndex len to in
  take (Z.to_nat (b - a)) (drop (Z.to_nat a) s).

(** [s.slice(start)]. *)
Definition sliceFrom (s : jsstring) (from : Z) : jsstring :=
  slice s from (Z.of_nat (length s)).

(** Equality test on strings ([===]). *)
Fixpoint eqb (a b : jsstring) : bool :=
  match a, b with
  | [], [] => true
  | x :: a', y :: b' => N.eqb x y && eqb a' b'
  | _, _ => false
  end.

(** [Array.prototype.includes] on an array of strings. *)
Definition arrayIncludes (l : list jsstring) (x : jsstring) : bool :=
  existsb (eqb x) l.

(** The longest prefix whose code units satisfy [p], and the rest. *)
Fixpoint span (p : N -> bool) (s : jsstring) : jsstring * jsstring :=
  match s with
  | [] => ([], [])
  | c :: s' =>
      if p c then let '(a, b) := span p s' in (c :: a, b) else ([], s)
  end.

(** The class [\s] of ECMAScript regular expressions: WhiteSpace and
    LineTerminator code units. *)
Definition isSpace (c : N) : bool :=
  (9 <=? c) && (c <=? 13)
  || N.eqb c 32 || N.eqb c 160 || N.eqb c 5760
  || (8192 <=? c) && (c <=? 8202)
  || N.eqb c 8232 || N.eqb c 8233 || N.eqb c 8239 || N.eqb c 8287
  || N.eqb c 12288 || N.eqb c 65279.

(** The quote class of the source's regular expressions: the single and
    the double quote. *)
Definition isQuote (c : N) : bool := N.eqb c 39 || N.eqb c 34.

Definition notQuote (c : N) : bool := negb (isQuote c).

(** Decimal rendering of an integer, as [String(n)] gives it. *)
Definition digit (d : N) : N := 48 + d.

Fixpoint posDigits (fuel : nat) (n : N) (acc : jsstring) : jsstring :=
  match fuel with
  | O => acc
  | S fuel' =>
      let acc' := digit (n mod 10) :: acc in
      if n / 10 =? 0 then acc' else posDigits fuel' (n / 10) acc'
  end.

Definition natToString (n : N) : jsstring :=
  posDigits (S (N.to_nat (N.log2 n))) n [].

Definition intToString (z : Z) : jsstring :=
  if (z <? 0)%Z then 45 :: natToString (Z.to_N (- z))
  else natToString (Z.to_N z).

End JS.

Export JS.

(** ** Buffers: UTF-8 and base64 ([node:buffer]) *)

Module Buffer.

(** Code points of a UTF-16 string; an unpaired surrogate decodes to
    U+FFFD, as [Buffer.from(string)] does. *)
Definition isHighSurrogate (c : N) : bool := (55296 <=? c) && (c <=? 56319).
Definition isLowSurrogate (c : N) : bool := (56320 <=? c) && (c <=? 57343).

Fixpoint codePoints (s : jsstring) : list N :=
  match s with
  | [] => []
  | c :: s' =>
      if isHighSurrogate c then
        match s' with
        | d :: s'' =>
            if isLowSurrogate d
            then (65536 + (c - 55296) * 1024 + (d - 56320)) :: codePoints s''
            else 65533 :: codePoints s'
        | [] => [65533]
        end
      else if isLowSurrogate c then 65533 :: codePoints s'
      else c :: codePoints s'
  end.

Definition utf8Char (cp : N) : list N :=
  if cp <? 128 then [cp]
  else if cp <? 2048 then [192 + cp / 64; 128 + cp mod 64]
  else if cp <? 65536 then
    [224 + cp / 4096; 128 + (cp / 64) mod 64; 128 + cp mod 64]
  else
    [240 + cp / 262144; 128 + (cp / 4096) mod 64;
     128 + (cp / 64) mod 64; 128 + cp mod 64].

(** [Buffer.from(s)]: the UTF-8 bytes of [s]. *)
Definition from (s : jsstring) : list N :=
  flat_map utf8Char (codePoints s).

Definition base64Alphabet : jsstring :=
  js "ABCDEFGHIJKLMNOPQRSTUVWXYZabcdefghijklmnopqrstuvwxyz0123456789+/".

Definition base64Digit (i : N) : N := nth (N.to_nat i) base64Alphabet 61.

(** [buf.toString('base64')]. *)
Fixpoint toBase64 (bytes : list N) : jsstring :=
  match bytes with
  | [] => []
  | [a] =>
      [base64Digit (a / 4); base64Digit ((a mod 4) * 16); 61; 61]
  | [a; b] =>
      [base64Digit (a / 4); base64Digit ((a mod 4) * 16 + b / 16);
       base64Digit ((b mod 16) * 4); 61]
  | a :: b :: c :: rest =>
      base64Digit (a / 4) :: base64Digit ((a mod 4) * 16 + b / 16)
      :: base64Digit ((b mod 16) * 4 + c / 64) :: base64Digit (c mod 64)
      :: toBase64 rest
  end.

End Buffer.

(** ** SHA-256 ([node:crypto], FIPS 180-4) *)

Module Crypto.

Definition w32 (x : N) : N := x mod 4294967296.
Definition add32 (a b : N) : N := w32 (a + b).
Definition rotr (n x : N) : N :=
  N.lor (N.shiftr x n) (w32 (N.shiftl x (32 - n))).
Definition not32 (x : N) : N := N.lxor x 4294967295.

Definition Ch (x y z : N) : N := N.lxor (N.land x y) (N.land (not32 x) z).
Definition Maj (x y z : N) : N :=
  N.lxor (N.lxor (N.land x y) (N.land x z)) (N.land y z).
Definition bigSigma0 (x : N) : N :=
  N.lxor (N.lxor (rotr 2 x) (rotr 13 x)) (rotr 22 x).
Definition bigSigma1 (x : N) : N :=
  N.lxor (N.lxor (rotr 6 x) (rotr 11 x)) (rotr 25 x).
Definition smallSigma0 (x : N) : N :=
  N.lxor (N.lxor (rotr 7 x) (rotr 18 x)) (N.shiftr x 3).
Definition smallSigma1 (x : N) : N :=
  N.lxor (N.lxor (rotr 17 x) (rotr 19 x)) (N.shiftr x 10).

Definition K : list N :=
  [
   1116352408; 1899447441; 3049323471; 3921009573;
   961987163; 1508970993; 2453635748; 2870763221;
   3624381080; 310598401; 607225278; 1426881987;
   1925078388; 2162078206; 2614888103; 3248222580;
   3835390401; 4022224774; 264347078; 604807628;
   770255983; 1249150122; 1555081692; 1996064986;
   2554220882; 2821834349; 2952996808; 3210313671;
   3336571891; 3584528711; 113926993; 338241895;
   666307205; 773529912; 1294757372; 1396182291;
   1695183700; 1986661051; 2177026350; 2456956037;
   2730485921; 2820302411; 3259730800; 3345764771;
   3516065817; 3600352804; 4094571909; 275423344;
   430227734; 506948616; 659060556; 883997877;
   958139571; 1322822218; 1537002063; 1747873779;
   1955562222; 2024104815; 2227730452; 2361852424;
   2428436474; 2756734187; 3204031479; 3329325298
  ].

Definition H0 : list N :=
  [
   1779033703; 3144134277; 1013904242; 2773480762;
   1359893119; 2600822924; 528734635; 1541459225
  ].

(** Padding: a one bit, zeros up to 56 modulo 64, the bit length on eight
    bytes, big endian. *)
Definition bigEndian (width : nat) (x : N) : list N :=
  map (fun i => (x / 256 ^ N.of_nat i) mod 256) (rev (seq 0 width)).

Definition pad (msg : list N) : list N :=
  let len := length msg in
  let zeros := ((64 - (len + 9) mod 64) mod 64)%nat in
  msg ++ [128] ++ repeat 0 zeros ++ bigEndian 8 (8 * N.of_nat len).

Fixpoint wordsOf (bytes : list N) : list N :=
  match bytes with
  | a :: b :: c :: d :: rest =>
      (a * 16777216 + b * 65536 + c * 256 + d) :: wordsOf rest
  | _ => []
  end.

Fixpoint blocksOf (fuel : nat) (ws : list N) : list (list N) :=
  match fuel, ws with
  | S fuel', _ :: _ => take 16 ws :: blocksOf fuel' (drop 16 ws)
  | _, _ => []
  end.

(** The message schedule, most recent word first. *)
Fixpoint schedule (n : nat) (recent : list N) : list N :=
  match n with
  | O => recent
  | S n' =>
      let w := add32 (add32 (smallSigma1 (nth 1 recent 0)) (nth 6 recent 0))
                     (add32 (smallSigma0 (nth 14 recent 0)) (nth 15 recent 0)) in
      schedule n' (w :: recent)
  end.

Record regs := Regs { ra : N; rb : N; rc : N; rd : N;
                      re : N; rf : N; rg : N; rh : N }.

Definition round (r : regs) (kw : N * N) : regs :=
  let t1 := add32 (add32 (add32 (rh r) (bigSigma1 (re r)))
                         (add32 (Ch (re r) (rf r) (rg r)) (fst kw))) (snd kw) in
  let t2 := add32 (bigSigma0 (ra r)) (Maj (ra r) (rb r) (rc r)) in
  Regs (add32 t1 t2) (ra r) (rb r) (rc r) (add32 (rd r) t1) (re r) (rf r) (rg r).

Definition compress (h : regs) (block : list N) : regs :=
  let w := rev (schedule 48 (rev block)) in
  let r := fold_left round (combine K w) h in
  Regs (add32 (ra h) (ra r)) (add32 (rb h) (rb r)) (add32 (rc h) (rc r))
       (add32 (rd h) (rd r)) (add32 (re h) (re r)) (add32 (rf h) (rf r))
       (add32 (rg h) (rg r)) (add32 (rh h) (rh r)).

Definition initial : regs :=
  Regs (nth 0 H0 0) (nth 1 H0 0) (nth 2 H0 0) (nth 3 H0 0)
       (nth 4 H0 0) (nth 5 H0 0) (nth 6 H0 0) (nth 7 H0 0).

Definition sha256 (msg : list N) : regs :=
  let ws := wordsOf (pad msg) in
  fold_left compress (blocksOf (length ws) ws) initial.

Definition hexDigit (d : N) : N := if d <? 10 then 48 + d else 87 + d.

Definition hexWord (x : N) : jsstring :=
  flat_map (fun b => [hexDigit (b / 16); hexDigit (b mod 16)]) (bigEndian 4 x).

(** [crypto.createHash('sha256').update(s).digest('hex')]. *)
Definition sha256Hex (s : jsstring) : jsstring :=
  let r := sha256 (Buffer.from s) in
  flat_map hexWord [ra r; rb r; rc r; rd r; re r; rf r; rg r; rh r].

End Crypto.

(** ** Paths ([node:path], POSIX flavour) *)

Module Path.

Definition slash : N := 47.
Definition dot : N := 46.

Definition isSlash (c : N) : bool := N.eqb c slash.

(** Split at every slash; two slashes in a row give an empty segment. *)
Fixpoint splitSlash (s : jsstring) : list jsstring :=
  match s with
  | [] => [[]]
  | c :: s' =>
      if isSlash c then [] :: splitSlash s'
      else match splitSlash s' with
           | seg :: segs => (c :: seg) :: segs
           | [] => [[c]]
           end
  end.

Fixpoint joinSlash (segs : list jsstring) : jsstring :=
  match segs with
  | [] => []
  | [seg] => seg
  | seg :: segs' => seg ++ slash :: joinSlash segs'
  end.

(** One step of [normalizeString]: [stack] holds the kept segments, the
    last one first. *)
Definition normalizeStep (allowAboveRoot : bool)
    (stack : list jsstring) (seg : jsstring) : list jsstring :=
  if JS.eqb seg [] || JS.eqb seg [dot] then stack
  else if JS.eqb seg [dot; dot] then
    match stack with
    | top :: stack' =>
        if JS.eqb top [dot; dot] then seg :: stack else stack'
    | [] => if allowAboveRoot then [seg] else []
    end
  else seg :: stack.

(** [normalizeString(path, allowAboveRoot)]: drops empty and [.] segments
    and resolves [..] against the segment before it. *)
Definition normalizeString (path : jsstring) (allowAboveRoot : bool) : jsstring :=
  joinSlash (rev (fold_left (normalizeStep allowAboveRoot) (splitSlash path) [])).

(** [path.isAbsolute]. *)
Definition isAbsolute (path : jsstring) : bool :=
  match path with
  | c :: _ => isSlash c
  | [] => false
  end.

Definition lastIsSlash (path : jsstring) : bool :=
  match rev path with
  | c :: _ => isSlash c
  | [] => false
  end.

(** [path.normalize]. *)
Definition normalize (path : jsstring) : jsstring :=
  match path with
  | [] => [dot]
  | _ :: _ =>
      let abs := isAbsolute path in
      let trailing := lastIsSlash path in
      let p := normalizeString path (negb abs) in
      match p with
      | [] => if abs then [slash] else if trailing then [dot; slash] else [dot]
      | _ :: _ =>
          let p' := if trailing then p ++ [slash] else p in
          if abs then slash :: p' else p'
      end
  end.

(** [path.join(...args)]: the non-empty arguments joined by a slash, then
    normalized. *)
Definition join (args : list jsstring) : jsstring :=
  match List.filter (fun a => negb (JS.eqb a [])) args with
  | [] => [dot]
  | parts => normalize (joinSlash parts)
  end.

(** The right-to-left accumulation of [path.resolve]: arguments are
    prepended until an absolute one has been taken. *)
Fixpoint resolveAcc (revArgs : list jsstring) (acc : jsstring)
    : jsstring * bool :=
  match revArgs with
  | [] => (acc, false)
  | p :: rest =>
      if JS.eqb p [] then resolveAcc rest acc
      else
        let acc' := p ++ slash :: acc in
        if isAbsolute p then (acc', true) else resolveAcc rest acc'
  end.

(** [path.resolve(...args)] in a process whose working directory is
    [cwd]. *)
Definition resolve (cwd : jsstring) (args : list jsstring) : jsstring :=
  let '(acc, abs) := resolveAcc (rev args ++ [cwd]) [] in
  let p := normalizeString acc (negb abs) in
  if abs then slash :: p
  else match p with [] => [dot] | _ :: _ => p end.

(** The last component of a path, trailing slashes set aside. *)
Fixpoint dropSlashes (r : jsstring) : jsstring :=
  match r with
  | c :: r' => if isSlash c then dropSlashes r' else r
  | [] => []
  end.

Definition notSlash (c : N) : bool := negb (isSlash c).

Definition lastComponent (path : jsstring) : jsstring :=
  rev (fst (span notSlash (dropSlashes (rev path)))).

(** [path.basename(path, suffix)]. *)
Definition basename (path suffix : jsstring) : jsstring :=
  let base := lastComponent path in
  if negb (JS.eqb suffix []) && (length suffix <=? length path)%nat then
    if JS.eqb suffix path then []
    else if JS.eqb (dropSlashes (rev path)) [] then path
    else if endsWith base suffix && negb (JS.eqb base suffix)
    then take (length base - length suffix) base
    else base
  else base.

(** [path.dirname]: the scan runs from the end down to index 1. *)
Definition dirname (path : jsstring) : jsstring :=
  match path with
  | [] => [dot]
  | c :: rest =>
      let r := dropSlashes (rev rest) in
      let '(comp, before) := span notSlash r in
      match before with
      | [] => if isSlash c then [slash] else [dot]
      | _ :: before' =>
          if isSlash c && JS.eqb before' [] then [slash; slash]
          else c :: rev before'
      end
  end.

(** Index of the last dot of a component, if any. *)
Fixpoint lastDot (s : jsstring) (i : nat) (found : option nat) : option nat :=
  match s with
  | [] => found
  | c :: s' => lastDot s' (S i) (if N.eqb c dot then Some i else found)
  end.

(** [path.extname]: from the last dot of the last component, unless that
    dot opens the component or the component is [..]. *)
Definition extname (path : jsstring) : jsstring :=
  let base := lastComponent path in
  match lastDot base 0 None with
  | None => []
  | Some O => []
  | Some (S d) =>
      if JS.eqb base [dot; dot] then [] else drop (S d) base
  end.

End Path.

(** ** The two regular expressions of the source *)

Module Regex.

(** One element of [code.matchAll(importRegex)]: [index], [match[0]] and
    [match[1]]. *)
Record RegExpMatch := MkMatch {
  index : nat;
  whole : jsstring;
  group1 : jsstring
}.

(** An attempt of the import expression at the head of [s]: the word
    from, greedy whitespace ([\s+]), an opening quote of either kind, a
    greedy non-empty run without quotes (the capture group), a closing
    quote of either kind. Neither greedy run can give anything back, so the
    attempt is deterministic. *)
Definition matchImportAt (s : jsstring) : option (jsstring * jsstring) :=
  match stripPrefix (js "from") s with
  | None => None
  | Some s1 =>
      let '(ws, s2) := span isSpace s1 in
      match ws, s2 with
      | _ :: _, q :: s3 =>
          if isQuote q then
            let '(body, s4) := span notQuote s3 in
            match body, s4 with
            | _ :: _, q' :: _ => Some (js "from" ++ ws ++ q :: body ++ [q'], body)
            | _, _ => None
            end
          else None
      | _, _ => None
      end
  end.

(** The scan of a global regular expression: the leftmost attempt that
    succeeds is taken and the scan resumes after it; [skip] counts the
    code units of the current match still to be passed. *)
Fixpoint matchAllFrom (s : jsstring) (idx skip : nat) : list RegExpMatch :=
  match s with
  | [] => []
  | _ :: s' =>
      match skip with
      | S k => matchAllFrom s' (S idx) k
      | O =>
          match matchImportAt s with
          | Some (m, g) => MkMatch idx m g :: matchAllFrom s' (S idx) (length m - 1)
          | None => matchAllFrom s' (S idx) 0
          end
      end
  end.

(** [[...code.matchAll(importRegex)]]. *)
Definition matchAll (code : jsstring) : list RegExpMatch :=
  matchAllFrom code 0 0.

(** An attempt of the stylesheet expression at the head of [s]: the word
    import, [\s+], a quote, a run without quotes that ends in [.css], a
    quote, and a semicolon if there is one. The result is the length of
    the match. *)
Definition matchCssImportAt (s : jsstring) : option nat :=
  match stripPrefix (js "import") s with
  | None => None
  | Some s1 =>
      let '(ws, s2) := span isSpace s1 in
      match ws, s2 with
      | _ :: _, q :: s3 =>
          if isQuote q then
            let '(body, s4) := span notQuote s3 in
            match s4 with
            | _ :: s5 =>
                if endsWith body (js ".css") then
                  let semi := match s5 with
                              | c :: _ => if N.eqb c 59 then 1%nat else 0%nat
                              | [] => 0%nat
                              end in
                  Some (6 + length ws + 1 + length body + 1 + semi)%nat
                else None
            | [] => None
            end
          else None
      | _, _ => None
      end
  end.

(** [code.replace(stylesheetRegex, '')] with the global flag. *)
Fixpoint removeCssImportsFrom (s : jsstring) (skip : nat) : jsstring :=
  match s with
  | [] => []
  | c :: s' =>
      match skip with
      | S k => removeCssImportsFrom s' k
      | O =>
          match matchCssImportAt s with
          | Some len => removeCssImportsFrom s' (len - 1)
          | None => c :: removeCssImportsFrom s' 0
          end
      end
  end.

Definition removeCssImports (code : jsstring) : jsstring :=
  removeCssImportsFrom code 0.

(** [resolvedPath.replace(/\.(js|mjs)$/, '')]. *)
Definition stripJsExtension (p : jsstring) : jsstring :=
  if endsWith p (js ".js") then take (length p - 3) p
  else if endsWith p (js ".mjs") then take (length p - 4) p
  else p.

End Regex.

Export Regex.

(** ** The process: file system, clock, caches, and what the host provides *)

Module Node.

(** A file-system entry. Times are [mtimeMs] readings; the source only
    compares them ([>] and [===]), so they are kept as integers. *)
Inductive FsNode :=
| File (content : jsstring) (mtimeMs : Z)
| Directory (mtimeMs : Z).

Definition nodeMtime (n : FsNode) : Z :=
  match n with
  | File _ t => t
  | Directory t => t
  end.

(** A thrown [Error], by its message. *)
Inductive Error := MkError (message : jsstring).

(** A loaded module namespace object, by identity. *)
Definition ModuleHandle := N.

(** The loaders of esbuild that [getLoader] can select. *)
Inductive Loader := LoaderTs | LoaderTsx | LoaderJsx | LoaderJs | LoaderJson.

(** What the process did that is observable from outside the store:
    console lines, calls to the transformer and to the module loader, and
    the evidence handed to the debug collaborator. *)
Inductive Event :=
| ConsoleTransforming (absolutePath : jsstring)
| ConsoleLegacyImport (importPath : jsstring)
| ConsoleAliasedLite
| ConsoleAutoDetected (importPath resolved : jsstring)
| ConsoleResolvedWorkspace (importPath resolved : jsstring)
| EsbuildTransform (sourcefile : jsstring)
| DynamicImport (href : jsstring)
| DumpEvidence (file : jsstring) (e : Error).

(** A value of the module cache: [{ module, mtime }]. *)
Record CacheEntry := MkEntry { entryModule : ModuleHandle; entryMtime : Z }.

(** The store. [moduleCache], [lockedReactPath] and [lockedReactDOMPath]
    are the module-level bindings of the source; [immediates] holds the
    temporary files whose removal [setImmediate] has scheduled. *)
Record State := MkState {
  files : gmap (list N) FsNode;
  ticks : nat;
  moduleCache : gmap (list N) CacheEntry;
  lockedReactPath : option jsstring;
  lockedReactDOMPath : option jsstring;
  immediates : list jsstring;
  trace : list Event
}.

(** Services of the runtime and of the packages the source imports. They
    are functions of what they can read: the file system for the module
    resolver, [realpath] and the module loader. *)
Record Host := MkHost {
  (** [process.cwd()] *)
  cwd : jsstring;
  (** the [n]-th reading of the system clock, in milliseconds *)
  clock : nat -> Z;
  (** [createRequire(filename).resolve(specifier)] *)
  requireResolve : gmap (list N) FsNode -> jsstring -> jsstring -> Error + jsstring;
  (** [fs.realpathSync] *)
  realpathSync : gmap (list N) FsNode -> jsstring -> Error + jsstring;
  (** [esbuild.transform(source, {loader, sourcefile, ...})], the other
      options being constants of the call site; the first argument is
      [true] for the calls with [jsx: 'transform'] and [false] for the
      one with [jsx: 'automatic'] *)
  esbuildTransform : bool -> Loader -> jsstring -> jsstring -> Error + jsstring;
  (** [pathToFileURL(path).href] *)
  pathToFileURL : jsstring -> jsstring;
  (** [import(href)] *)
  dynamicImport : gmap (list N) FsNode -> jsstring -> Error + ModuleHandle;
  (** [fileURLToPath(import.meta.url)] of the transform module itself *)
  currentModulePath : jsstring
}.

(** How a call ends. [OutOfFuel] is not a behaviour of the program: it
    marks a run that the bounded recursion below could not finish. *)
Inductive Outcome (A : Type) :=
| Ok (a : A)
| Throw (e : Error)
| OutOfFuel.

Arguments Ok {A} a.
Arguments Throw {A} e.
Arguments OutOfFuel {A}.

Definition M (A : Type) : Type := State -> State * Outcome A.

Definition ret {A} (a : A) : M A := fun st => (st, Ok a).
Definition throw {A} (e : Error) : M A := fun st => (st, Throw e).
Definition outOfFuel {A} : M A := fun st => (st, OutOfFuel).

Definition bind {A B} (c : M A) (k : A -> M B) : M B :=
  fun st =>
    match c st with
    | (st', Ok a) => k a st'
    | (st', Throw e) => (st', Throw e)
    | (st', OutOfFuel) => (st', OutOfFuel)
    end.

(** [try { c } catch (e) { handler e }]. *)
Definition tryCatch {A} (c : M A) (handler : Error -> M A) : M A :=
  fun st =>
    match c st with
    | (st', Throw e) => handler e st'
    | r => r
    end.

Definition get : M State := fun st => (st, Ok st).
Definition modify (f : State -> State) : M unit := fun st => (f st, Ok tt).

Definition liftResult {A} (r : Error + A) : M A :=
  match r with
  | inl e => throw e
  | inr a => ret a
  end.

Declare Scope node_scope.
Delimit Scope node_scope with node.
Notation "'let*' x ':=' c 'in' k" := (bind c (fun x => k))
  (at level 10, x pattern, c at level 100, k at level 200) : node_scope.
Notation "c ';;' k" := (bind c (fun _ => k))
  (at level 100, k at level 200, right associativity) : node_scope.
Local Open Scope node_scope.

Definition setFiles (f : gmap (list N) FsNode) (st : State) : State :=
  MkState f (ticks st) (moduleCache st) (lockedReactPath st)
          (lockedReactDOMPath st) (immediates st) (trace st).

Definition setTicks (n : nat) (st : State) : State :=
  MkState (files st) n (moduleCache st) (lockedReactPath st)
          (lockedReactDOMPath st) (immediates st) (trace st).

Definition setModuleCache (c : gmap (list N) CacheEntry) (st : State) : State :=
  MkState (files st) (ticks st) c (lockedReactPath st)
          (lockedReactDOMPath st) (immediates st) (trace st).

Definition setLockedReactPath (p : option jsstring) (st : State) : State :=
  MkState (files st) (ticks st) (moduleCache st) p
          (lockedReactDOMPath st) (immediates st) (trace st).

Definition setLockedReactDOMPath (p : option jsstring) (st : State) : State :=
  MkState (files st) (ticks st) (moduleCache st) (lockedReactPath st)
          p (immediates st) (trace st).

Definition setImmediates (l : list jsstring) (st : State) : State :=
  MkState (files st) (ticks st) (moduleCache st) (lockedReactPath st)
          (lockedReactDOMPath st) l (trace st).

Definition addEvent (e : Event) (st : State) : State :=
  MkState (files st) (ticks st) (moduleCache st) (lockedReactPath st)
          (lockedReactDOMPath st) (immediates st) (trace st ++ [e]).

Definition emit (e : Event) : M unit := modify (addEvent e).

Definition errno (code : string) (path : jsstring) : Error :=
  MkError (js code ++ js ": " ++ path).

(** [fs.existsSync]. Paths are looked up as they are spelled. *)
Definition existsSync (p : jsstring) : M bool :=
  fun st => (st, Ok (bool_decide (is_Some (files st !! p)))).

(** [fs.statSync(p).mtimeMs]. *)
Definition statMtimeMs (p : jsstring) : M Z :=
  fun st =>
    match files st !! p with
    | Some n => (st, Ok (nodeMtime n))
    | None => (st, Throw (errno "ENOENT" p))
    end.

(** [fs.readFileSync(p, 'utf-8')]. *)
Definition readFileSync (p : jsstring) : M jsstring :=
  fun st =>
    match files st !! p with
    | Some (File content _) => (st, Ok content)
    | Some (Directory _) => (st, Throw (errno "EISDIR" p))
    | None => (st, Throw (errno "ENOENT" p))
    end.

(** [fs.unlinkSync]. *)
Definition unlinkSync (p : jsstring) : M unit :=
  let* st := get in
  match files st !! p with
  | Some (File _ _) => modify (fun st' => setFiles (delete p (files st')) st')
  | Some (Directory _) => throw (errno "EISDIR" p)
  | None => throw (errno "ENOENT" p)
  end.

Section WithHost.

Variable h : Host.

(** A reading of the clock; each reading is a new one. *)
Definition readClock : M Z :=
  fun st => (setTicks (S (ticks st)) st, Ok (clock h (ticks st))).

(** [Date.now()]. *)
Definition dateNow : M Z := readClock.

(** [fs.writeFileSync(p, data)]: the parent must be a directory and [p]
    must not be one; the file is created or replaced, stamped with the
    clock. *)
Definition writeFileSync (p data : jsstring) : M unit :=
  let* st := get in
  match files st !! p with
  | Some (Directory _) => throw (errno "EISDIR" p)
  | _ =>
      match files st !! Path.dirname p with
      | Some (Directory _) =>
          let* t := readClock in
          modify (fun st' => setFiles (<[p := File data t]> (files st')) st')
      | Some (File _ _) => throw (errno "ENOTDIR" p)
      | None => throw (errno "ENOENT" p)
      end
  end.

(** [fs.mkdirSync(p, { recursive: true })]: missing directories are
    created from the top down; a file in the way is an error. *)
Fixpoint mkdirRecursive (fuel : nat) (p : jsstring) : M unit :=
  let* st := get in
  match files st !! p with
  | Some (Directory _) => ret tt
  | Some (File _ _) => throw (errno "EEXIST" p)
  | None =>
      match fuel with
      | O => throw (errno "ENOENT" p)
      | S fuel' =>
          (if JS.eqb (Path.dirname p) p then ret tt
           else mkdirRecursive fuel' (Path.dirname p));;
          let* t := readClock in
          modify (fun st' => setFiles (<[p := Directory t]> (files st')) st')
      end
  end.

Definition mkdirSync (p : jsstring) : M unit :=
  mkdirRecursive (length p) p.

(** [createRequire(path.join(dir, 'noop.js')).resolve(specifier)]. *)
Definition resolveFrom (dir specifier : jsstring) : M jsstring :=
  let* st := get in
  liftResult (requireResolve h (files st) (Path.join [dir; js "noop.js"]) specifier).

End WithHost.

End Node.

Export Node.
Open Scope node_scope.

(** ** [src/build/transform.ts] *)

Module Transform.

(** [getLoader]: the esbuild loader for a file extension. *)
Definition getLoader (ext : jsstring) : Loader :=
  if JS.eqb ext (js ".ts") then LoaderTs
  else if JS.eqb ext (js ".tsx") then LoaderTsx
  else if JS.eqb ext (js ".jsx") then LoaderJsx
  else if JS.eqb ext (js ".js") then LoaderJs
  else if JS.eqb ext (js ".mjs") then LoaderJs
  else if JS.eqb ext (js ".json") then LoaderJson
  else LoaderTs.

(** The template literals [glueCode] of the two shim branches, line by
    line; the lines are joined by a line feed. *)
Open Scope string_scope.

Definition reactGlueLines : list string :=
  [ EmptyString;
    "      const getReact = () => {";
    "        const r = globalThis.__FLOAT_REACT__;";
    "        if (!r) console.error('[Shim] __FLOAT_REACT__ is missing!');";
    "        return r;";
    "      };";
    "      export default globalThis.__FLOAT_REACT__; ";
    "      export const useState = (...args) => getReact()?.useState(...args); ";
    "      export const useMemo = (...args) => getReact()?.useMemo(...args); ";
    "      export const useCallback = (...args) => getReact()?.useCallback(...args); ";
    "      export const useEffect = (...args) => getReact()?.useEffect(...args); ";
    "      export const useContext = (...args) => getReact()?.useContext(...args); ";
    "      export const useReducer = (...args) => getReact()?.useReducer(...args); ";
    "      export const useRef = (...args) => getReact()?.useRef(...args); ";
    "      export const useId = (...args) => getReact()?.useId(...args); ";
    "      export const useLayoutEffect = (...args) => getReact()?.useLayoutEffect(...args); ";
    "      export const createContext = (...args) => getReact()?.createContext(...args); ";
    "      export const createElement = (...args) => getReact()?.createElement(...args); ";
    "      export const Fragment = globalThis.__FLOAT_REACT__?.Fragment;";
    "      " ].

Definition reactDomGlueLines : list string :=
  [ EmptyString;
    "      export default globalThis.__FLOAT_REACT_DOM__ || globalThis.__FLOAT_REACT__; ";
    "      export const render = (...args) => globalThis.__FLOAT_REACT_DOM__?.render(...args); ";
    "      export const hydrate = (...args) => globalThis.__FLOAT_REACT_DOM__?.hydrate(...args);";
    "      " ].

Close Scope string_scope.

Fixpoint joinLines (lines : list string) : jsstring :=
  match lines with
  | [] => []
  | [l] => js l
  | l :: rest => js l ++ 10 :: joinLines rest
  end.

Definition reactGlueCode : jsstring := joinLines reactGlueLines.
Definition reactDomGlueCode : jsstring := joinLines reactDomGlueLines.

(** [`data:text/javascript;base64,${Buffer.from(glueCode).toString('base64')}`] *)
Definition dataUrl (glueCode : jsstring) : jsstring :=
  js "data:text/javascript;base64," ++ Buffer.toBase64 (Buffer.from glueCode).

Arguments dataUrl : simpl never.

(** The three locals that the classification of one specifier assigns. *)
Record Resolution := MkResolution {
  finalImportPath : jsstring;
  found : bool;
  resolvedPath : jsstring
}.

Definition unresolved : Resolution := MkResolution [] false [].

(** [['.ts', '.tsx', '.jsx'].includes(ext)]. *)
Definition isSourceExt (ext : jsstring) : bool :=
  arrayIncludes [js ".ts"; js ".tsx"; js ".jsx"] ext.

(** The extension list of the relative probe. *)
Definition extensions : list jsstring :=
  [js ".tsx"; js ".ts"; js ".jsx"; js ".js"; js ".mjs"; []].

(** [!importPath.startsWith('.') && !importPath.startsWith('/') &&
    !importPath.startsWith('file://')]. *)
Definition isStrictBare (importPath : jsstring) : bool :=
  negb (startsWith importPath (js ".")) && negb (startsWith importPath (js "/"))
  && negb (startsWith importPath (js "file://")).

(** [`dep_${hash}.mjs`] under [cacheDir], where [hash] is the first 16
    hexadecimal digits of the SHA-256 of the resolved path. *)
Definition cachedFileOf (cacheDir resolved : jsstring) : jsstring :=
  let hash := slice (Crypto.sha256Hex resolved) 0 16 in
  Path.join [cacheDir; js "dep_" ++ hash ++ js ".mjs"].

(** One replacement of the loop: [newCode] and [offset] after
    [match] has been replaced by [from '<finalImportPath>']. *)
Definition splice (m : RegExpMatch) (final : jsstring)
    (acc : jsstring * Z) : jsstring * Z :=
  let '(newCode, offset) := acc in
  let replacement := js "from '" ++ final ++ js "'" in
  let start := (Z.of_nat (index m) + offset)%Z in
  let end_ := (start + Z.of_nat (length (whole m)))%Z in
  (slice newCode 0 start ++ replacement ++ sliceFrom newCode end_,
   (offset + (Z.of_nat (length replacement) - Z.of_nat (length (whole m))))%Z).

Section WithHost.

Variable h : Host.

(** [lockFrameworkDependencies]: both assignments sit in one [try] whose
    [catch] is empty. *)
Definition lockFrameworkDependencies (projectRoot : jsstring) : M unit :=
  tryCatch
    (let* react := resolveFrom h projectRoot (js "react") in
     let* st := get in
     let* reactReal := liftResult (realpathSync h (files st) react) in
     modify (setLockedReactPath (Some reactReal));;
     let* reactDom := resolveFrom h projectRoot (js "react-dom") in
     let* st' := get in
     let* reactDomReal := liftResult (realpathSync h (files st') reactDom) in
     modify (setLockedReactDOMPath (Some reactDomReal)))
    (fun _ => ret tt).

(** Lines 151-210: the shim, native-platform and framework branches. *)
Definition classify (importPath baseDir : jsstring) (vibeDebug : bool)
    : M Resolution :=
  let isReact := JS.eqb importPath (js "react")
                 || startsWith importPath (js "react/") in
  let isReactDOM := JS.eqb importPath (js "react-dom")
                    || startsWith importPath (js "react-dom/") in
  let isFramework := JS.eqb importPath (js "@float-v/core")
                     || JS.eqb importPath (js "@float-v/core") in
  let isReactNative := JS.eqb importPath (js "react-native") in
  let isLegacyFramework := startsWith importPath (js "@float-v/") in
  (if isLegacyFramework && vibeDebug
   then emit (ConsoleLegacyImport importPath) else ret tt);;
  if isReact then
    ret (MkResolution (dataUrl reactGlueCode) true [])
  else if isReactDOM then
    ret (MkResolution (dataUrl reactDomGlueCode) true [])
  else if isReactNative then
    let* resolved :=
      tryCatch (resolveFrom h baseDir (js "react-native-web"))
               (fun _ => ret (js "react-native-web")) in
    ret (MkResolution [] true resolved)
  else if isFramework || JS.eqb importPath (js "@float-v/lite") then
    let dir := Path.dirname (currentModulePath h) in
    let built := Path.resolve (cwd h) [dir; js ".."; js "index.js"] in
    let* builtExists := existsSync built in
    let resolved :=
      if builtExists then built
      else Path.resolve (cwd h) [dir; js ".."; js "index.ts"] in
    (if vibeDebug && JS.eqb importPath (js "@float-v/lite")
     then emit ConsoleAliasedLite else ret tt);;
    ret (MkResolution [] true resolved)
  else ret unresolved.

(** Lines 220-225: the loop over the extension list. Each round tries
    the stripped path with the extension, then the index file with that
    extension inside the unstripped path. *)
Fixpoint probeExtensions (exts : list jsstring)
    (strippedPath resolved : jsstring) : M (option jsstring) :=
  match exts with
  | [] => ret None
  | ext :: exts' =>
      let tryPath := strippedPath ++ ext in
      let* e1 := existsSync tryPath in
      if e1 then ret (Some tryPath)
      else
        let indexPath := Path.join [resolved; js "index" ++ ext] in
        let* e2 := existsSync indexPath in
        if e2 then ret (Some indexPath)
        else probeExtensions exts' strippedPath resolved
  end.

(** Lines 212-227: relative and workspace-alias specifiers. *)
Definition probeRelative (importPath baseDir : jsstring) (r : Resolution)
    : M Resolution :=
  if negb (found r) then
    if startsWith importPath (js "./") || startsWith importPath (js "../")
       || startsWith importPath (js "@/") then
      let resolved :=
        if startsWith importPath (js "@/")
        then Path.resolve (cwd h) [cwd h; sliceFrom importPath 2]
        else Path.resolve (cwd h) [baseDir; importPath] in
      let strippedPath := stripJsExtension resolved in
      let* hit := probeExtensions extensions strippedPath resolved in
      match hit with
      | Some p => ret (MkResolution (finalImportPath r) true p)
      | None => ret (MkResolution (finalImportPath r) false resolved)
      end
    else ret r
  else ret r.

(** Lines 231-261: a bare import that resolves to a source file, then the
    first copy of the final fallback. *)
Definition autoHeal (importPath baseDir : jsstring) (vibeDebug : bool)
    (r : Resolution) : M Resolution :=
  if negb (found r) then
    let* r1 :=
      tryCatch
        (let* resolved := resolveFrom h baseDir importPath in
         if isSourceExt (Path.extname resolved) then
           (if vibeDebug
            then emit (ConsoleAutoDetected importPath (Path.basename resolved []))
            else ret tt);;
           ret (MkResolution (finalImportPath r) true resolved)
         else ret r)
        (fun _ => ret r) in
    if negb (found r1) && isStrictBare importPath then
      tryCatch
        (let* resolved := resolveFrom h baseDir importPath in
         if negb (JS.eqb resolved [])
         then ret (MkResolution (finalImportPath r1) true resolved)
         else ret r1)
        (fun _ => ret r1)
    else ret r1
  else ret r.

(** Lines 265-276: the second copy of the final fallback. *)
Definition finalFallback (importPath baseDir : jsstring) (vibeDebug : bool)
    (r : Resolution) : M Resolution :=
  if negb (found r) && isStrictBare importPath then
    tryCatch
      (let* resolved := resolveFrom h baseDir importPath in
       if negb (JS.eqb resolved []) then
         (if vibeDebug && includes importPath (js "float-v")
          then emit (ConsoleResolvedWorkspace importPath resolved)
          else ret tt);;
         ret (MkResolution (finalImportPath r) true resolved)
       else ret r)
      (fun _ => ret r)
  else ret r.

(** Lines 146-276: everything the loop body does before it decides
    whether to replace. *)
Definition resolveSpecifier (importPath baseDir : jsstring) (vibeDebug : bool)
    : M Resolution :=
  let* r0 := classify importPath baseDir vibeDebug in
  let* r1 := probeRelative importPath baseDir r0 in
  let* r2 := autoHeal importPath baseDir vibeDebug r1 in
  finalFallback importPath baseDir vibeDebug r2.

(** The loop body and the loop, over the recursive call that transforms
    the imports of a dependency. *)
Section Loop.

Variable rewriteDependency : jsstring -> jsstring -> jsstring -> bool -> M jsstring.

(** Line 287: the cached file is stale when it is missing or older than
    its source. *)
Definition cacheIsStale (cachedFile resolved : jsstring) : M bool :=
  let* present := existsSync cachedFile in
  if negb present then ret true
  else
    let* sourceTime := statMtimeMs resolved in
    let* cachedTime := statMtimeMs cachedFile in
    ret (cachedTime <? sourceTime)%Z.

(** Lines 288-308: transform the dependency, rewrite its imports, write
    the cached file; an error is reported under [vibeDebug] and thrown
    again. *)
Definition regenerate (cachedFile resolved fileExt cacheDir : jsstring)
    (vibeDebug : bool) : M unit :=
  tryCatch
    (let* depSource := readFileSync resolved in
     emit (EsbuildTransform resolved);;
     let* depResult :=
       liftResult (esbuildTransform h true (getLoader fileExt) depSource resolved) in
     let* depCode :=
       rewriteDependency depResult (Path.dirname resolved) cacheDir vibeDebug in
     writeFileSync h cachedFile depCode)
    (fun e =>
       (if vibeDebug then emit (DumpEvidence resolved e) else ret tt);;
       throw e).

(** Lines 280-313: from a resolved path to the import target. *)
Definition materialize (r : Resolution) (cacheDir : jsstring)
    (vibeDebug : bool) : M jsstring :=
  if JS.eqb (finalImportPath r) [] then
    let fileExt := Path.extname (resolvedPath r) in
    let shouldTransform := isSourceExt fileExt in
    if shouldTransform then
      let cachedFile := cachedFileOf cacheDir (resolvedPath r) in
      let* stale := cacheIsStale cachedFile (resolvedPath r) in
      (if stale
       then regenerate cachedFile (resolvedPath r) fileExt cacheDir vibeDebug
       else ret tt);;
      ret (pathToFileURL h cachedFile)
    else ret (pathToFileURL h (resolvedPath r))
  else ret (finalImportPath r).

(** The body of [for (const match of matches)]. *)
Definition rewriteOne (baseDir cacheDir : jsstring) (vibeDebug : bool)
    (m : RegExpMatch) (acc : jsstring * Z) : M (jsstring * Z) :=
  let* r := resolveSpecifier (group1 m) baseDir vibeDebug in
  if negb (found r) && JS.eqb (finalImportPath r) [] then ret acc
  else
    let* final := materialize r cacheDir vibeDebug in
    ret (splice m final acc).

Fixpoint rewriteLoop (baseDir cacheDir : jsstring) (vibeDebug : bool)
    (matches : list RegExpMatch) (acc : jsstring * Z) : M (jsstring * Z) :=
  match matches with
  | [] => ret acc
  | m :: rest =>
      let* acc' := rewriteOne baseDir cacheDir vibeDebug m acc in
      rewriteLoop baseDir cacheDir vibeDebug rest acc'
  end.

End Loop.

(** [rewriteImports]. The function calls itself on every dependency it
    has to transform; [fuel] bounds the depth of these calls. *)
Fixpoint rewriteImports (fuel : nat) (code baseDir cacheDir : jsstring)
    (vibeDebug : bool) : M jsstring :=
  match fuel with
  | O => outOfFuel
  | S fuel' =>
      let* out := rewriteLoop (rewriteImports fuel') baseDir cacheDir vibeDebug
                              (matchAll code) (code, 0%Z) in
      ret (fst out)
  end.

(** Lines 89-92: the import of React for the classic JSX transform. *)
Definition prependReactImport (code : jsstring) : jsstring :=
  if negb (includes code (js "import React"))
     && negb (includes code (js "import * as React"))
  then js "import React from 'react';" ++ 10 :: code
  else code.

(** Lines 64-98 of [transformFile]: from the source text to the code that
    is written to the temporary file, and the name of that file. *)
Definition prepareModule (fuel : nat) (absolutePath : jsstring)
    (vibeDebug : bool) : M (jsstring * jsstring) :=
  let* source := readFileSync absolutePath in
  let ext := Path.extname absolutePath in
  let loader := getLoader ext in
  emit (EsbuildTransform absolutePath);;
  let* result := liftResult (esbuildTransform h true loader source absolutePath) in
  let tempDir := Path.join [cwd h; js ".float"; js ".cache"] in
  mkdirSync h tempDir;;
  let* now := dateNow h in
  let tempFile :=
    Path.join [tempDir;
               Path.basename absolutePath ext ++ js "_" ++ intToString now
               ++ js ".mjs"] in
  let code := prependReactImport result in
  let* code := rewriteImports fuel code (Path.dirname absolutePath) tempDir vibeDebug in
  let code := removeCssImports code in
  ret (tempFile, code).

(** Lines 63-116 of [transformFile]: the path taken on a cache miss. *)
Definition loadFresh (fuel : nat) (absolutePath : jsstring) (mtime : Z)
    (vibeDebug : bool) : M ModuleHandle :=
  let* prepared := prepareModule fuel absolutePath vibeDebug in
  let tempFile := fst prepared in
  writeFileSync h tempFile (snd prepared);;
  tryCatch
    (let href := pathToFileURL h tempFile in
     emit (DynamicImport href);;
     let* st := get in
     let* module := liftResult (dynamicImport h (files st) href) in
     modify (fun st' =>
       setModuleCache (<[absolutePath := MkEntry module mtime]> (moduleCache st')) st');;
     (if negb vibeDebug
      then modify (fun st' => setImmediates (immediates st' ++ [tempFile]) st')
      else ret tt);;
     ret module)
    (fun error =>
       (if negb vibeDebug
        then tryCatch (unlinkSync tempFile) (fun _ => ret tt)
        else ret tt);;
       throw error).

(** [transformFile]. The option [useCache] is read by the source and then
    never used, so it is not a parameter here. *)
Definition transformFile (fuel : nat) (filePath : jsstring) (vibeDebug : bool)
    : M ModuleHandle :=
  let absolutePath :=
    if Path.isAbsolute filePath then filePath
    else Path.resolve (cwd h) [filePath] in
  (if vibeDebug then emit (ConsoleTransforming absolutePath) else ret tt);;
  let* present := existsSync absolutePath in
  if negb present then throw (MkError (js "File not found: " ++ absolutePath))
  else
    let* mtime := statMtimeMs absolutePath in
    let* st := get in
    match moduleCache st !! absolutePath with
    | Some cached =>
        if (entryMtime cached =? mtime)%Z then ret (entryModule cached)
        else loadFresh fuel absolutePath mtime vibeDebug
    | None => loadFresh fuel absolutePath mtime vibeDebug
    end.

(** The callbacks that [setImmediate] queued run on the next turn of the
    event loop: each removes its temporary file and ignores a failure. *)
Fixpoint unlinkAll (paths : list jsstring) : M unit :=
  match paths with
  | [] => ret tt
  | p :: rest =>
      tryCatch (unlinkSync p) (fun _ => ret tt);;
      unlinkAll rest
  end.

Definition runImmediates : M unit :=
  let* st := get in
  modify (setImmediates []);;
  unlinkAll (immediates st).

(** [clearModuleCache]: an absent or empty argument clears the map. *)
Definition clearModuleCache (filePath : option jsstring) : M unit :=
  match filePath with
  | Some (c :: p) =>
      modify (fun st =>
        setModuleCache (delete (Path.resolve (cwd h) [c :: p]) (moduleCache st)) st)
  | _ => modify (setModuleCache ∅)
  end.

(** [transformSource]: the automatic JSX runtime, no rewriting. *)
Definition transformSource (source filename : jsstring) (loader : Loader)
    : M jsstring :=
  emit (EsbuildTransform filename);;
  liftResult (esbuildTransform h false loader source filename).

End WithHost.

End Transform.

Export Transform.

(** ** The shim module behind the React data URL

    The text of [reactGlueCode] is itself a JavaScript module. Its
    behaviour is embedded here: [slot] is the value of
    [globalThis.__FLOAT_REACT__], absent when the host has not published
    a runtime. *)

Module Shim.

Inductive Value := Undefined | Opaque (v : N).

(** The runtime object: its callable members by name, and its
    [Fragment] property. *)
Record Runtime := MkRuntime {
  method : jsstring -> option (list Value -> Error + Value);
  fragment : Value
}.

Definition missingMessage : jsstring := js "[Shim] __FLOAT_REACT__ is missing!".

(** [getReact]: reads the slot, and writes to [console.error] when it is
    empty. The first component is what was written. *)
Definition getReact (slot : option Runtime) : list jsstring * option Runtime :=
  match slot with
  | Some r => ([], Some r)
  | None => ([missingMessage], None)
  end.

(** [(...args) => getReact()?.name(...args)]: the optional chain stops at
    an absent runtime and gives [undefined]. *)
Definition forward (name : jsstring) (slot : option Runtime)
    (args : list Value) : list jsstring * (Error + Value) :=
  let '(written, r) := getReact slot in
  match r with
  | None => (written, inr Undefined)
  | Some r =>
      match method r name with
      | Some f => (written, f args)
      | None => (written, inl (MkError (js "getReact(...)?." ++ name ++ js " is not a function")))
      end
  end.

(** The names bound by [export const name = (...args) => ...]. *)
Definition forwardedNames : list jsstring :=
  [js "useState"; js "useMemo"; js "useCallback"; js "useEffect";
   js "useContext"; js "useReducer"; js "useRef"; js "useId";
   js "useLayoutEffect"; js "createContext"; js "createElement"].

(** The line of the glue code that exports [name]. *)
Definition forwardLine (name : jsstring) : jsstring :=
  js "export const " ++ name ++ js " = (...args) => getReact()?." ++ name
  ++ js "(...args);".

(** [export default globalThis.__FLOAT_REACT__], read when the shim is
    loaded. *)
Definition exportDefault (slot : option Runtime) : option Runtime := slot.

(** [export const Fragment = globalThis.__FLOAT_REACT__?.Fragment]. *)
Definition exportFragment (slot : option Runtime) : Value :=
  match slot with
  | Some r => fragment r
  | None => Undefined
  end.

End Shim.

(** ** The shim module behind the ReactDOM data URL

    [domSlot] is the value of [globalThis.__FLOAT_REACT_DOM__] and
    [reactSlot] that of [globalThis.__FLOAT_REACT__]. *)

Module DomShim.

(** [(...args) => globalThis.__FLOAT_REACT_DOM__?.name(...args)]: nothing
    is written to the console. *)
Definition forward (name : jsstring) (domSlot : option Shim.Runtime)
    (args : list Shim.Value) : Error + Shim.Value :=
  match domSlot with
  | None => inr Shim.Undefined
  | Some r =>
      match Shim.method r name with
      | Some f => f args
      | None =>
          inl (MkError (js "globalThis.__FLOAT_REACT_DOM__?." ++ name
                        ++ js " is not a function"))
      end
  end.

Definition forwardedNames : list jsstring := [js "render"; js "hydrate"].

Definition forwardLine (name : jsstring) : jsstring :=
  js "export const " ++ name ++ js " = (...args) => globalThis.__FLOAT_REACT_DOM__?."
  ++ name ++ js "(...args);".

(** [export default globalThis.__FLOAT_REACT_DOM__ ||
    globalThis.__FLOAT_REACT__], read when the shim is loaded. *)
Definition exportDefault (domSlot reactSlot : option Shim.Runtime)
    : option Shim.Runtime :=
  match domSlot with
  | Some d => Some d
  | None => reactSlot
  end.

End DomShim.

(** ** The callback hook (second part of [src/build/transform.ts])

    The hooks run inside React. What is used of React is written out:
    [useRef] keeps one cell per call site and component, created with
    the initial value on the first render and handed out again on every
    later one; [useCallback] hands out the function of the last render
    whose dependencies differed from those of the render before.
    Numbers are the numbers of JavaScript; their operations, the
    rendering of a number in a template literal and [toFixed(2)] are
    parameters, as is [performance.now()]. *)

Module Callback.

Section WithNumbers.

Variable Num : Type.
(** [0], [x + 1] as [x++] computes it, [x + y], [x - y], [x / y], [x > 0] *)
Variable zero : Num.
Variable succ : Num -> Num.
Variable add sub div : Num -> Num -> Num.
Variable positive : Num -> bool.
(** [`${x}`] and [x.toFixed(2)] *)
Variable display : Num -> jsstring.
Variable toFixed2 : Num -> jsstring.
(** the [n]-th reading of [performance.now()] *)
Variable performanceNow : nat -> Num.

(** Arguments and results of the wrapped function, the dependency lists
    with the comparison that [useCallback] makes between two renders,
    and the part of the world that only the wrapped function knows. *)
Variable Args Result Deps User : Type.
Variable sameDeps : Deps -> Deps -> bool.

(** The cells of all [useRef] calls, the lines written by [console.log],
    the number of clock readings taken, and the rest. *)
Record World := MkWorld {
  heap : list Num;
  consoleLog : list jsstring;
  readings : nat;
  user : User
}.

Definition Fn : Type := Args -> World -> World * (Error + Result).

Definition readRef (a : nat) (w : World) : Num := nth a (heap w) zero.

Definition writeRef (a : nat) (v : Num) (w : World) : World :=
  MkWorld (<[a := v]> (heap w)) (consoleLog w) (readings w) (user w).

Definition log (line : jsstring) (w : World) : World :=
  MkWorld (heap w) (consoleLog w ++ [line]) (readings w) (user w).

Definition tick (w : World) : World :=
  MkWorld (heap w) (consoleLog w) (S (readings w)) (user w).

(** [useRef(init)]: [slot] is what the component keeps for this call
    site, nothing before the first render. *)
Definition useRef (init : Num) (slot : option nat) (h : list Num)
    : nat * list Num :=
  match slot with
  | Some a => (a, h)
  | None => (length h, h ++ [init])
  end.

(** [FloatCallbackOptions]; every field may be absent. *)
Record FloatCallbackOptions := MkOptions {
  name : option jsstring;
  debug : option bool;
  metrics : option bool
}.

(** [debug && name]: an absent and an empty name are falsy. *)
Definition named (name : option jsstring) : bool :=
  match name with
  | Some (_ :: _) => true
  | _ => false
  end.

Definition nameText (name : option jsstring) : jsstring :=
  match name with
  | Some n => n
  | None => js "undefined"
  end.

Definition calledLine (name : option jsstring) (count : Num) : jsstring :=
  js "[Float-V Callback] " ++ 34 :: nameText name ++ 34 :: js " called ("
  ++ display count ++ js " times)".

Definition tookLine (name : option jsstring) (duration avg : Num) : jsstring :=
  js "[Float-V Callback] " ++ 34 :: nameText name ++ 34 :: js " took "
  ++ toFixed2 duration ++ js "ms (avg: " ++ toFixed2 avg ++ js "ms)".

(** The function that [useFloatCallback] passes to [useCallback] (lines
    377-402), with what it closes over: the callback and the options of
    the render that made it, and the two cells. *)
Definition memoizedCallback (callback : Fn) (options : FloatCallbackOptions)
    (callCountRef totalTimeRef : nat) : Fn :=
  fun args w =>
    let debug := default false (debug options) in
    let metrics := default false (metrics options) in
    let w := writeRef callCountRef (succ (readRef callCountRef w)) w in
    let w :=
      if debug && named (name options)
      then log (calledLine (name options) (readRef callCountRef w)) w
      else w in
    if metrics then
      let start := performanceNow (readings w) in
      match callback args (tick w) with
      | (w, inl e) => (w, inl e)
      | (w, inr result) =>
          let duration := sub (performanceNow (readings w)) start in
          let w := tick w in
          let w := writeRef totalTimeRef (add (readRef totalTimeRef w) duration) w in
          let w :=
            if debug && named (name options)
            then log (tookLine (name options) duration
                        (div (readRef totalTimeRef w) (readRef callCountRef w))) w
            else w in
          (w, inr result)
      end
    else callback args w.

(** What the component keeps for one call site of [useFloatCallback]. *)
Record Slot := MkSlot {
  callCountSlot : nat;
  totalTimeSlot : nat;
  memoFn : Fn;
  memoDeps : Deps
}.

(** [useFloatCallback]: the two cells, then [useCallback]. *)
Definition useFloatCallback (callback : Fn) (deps : Deps)
    (options : FloatCallbackOptions) (slot : option Slot) (h : list Num)
    : (Fn * Slot) * list Num :=
  let '(callCountRef, h) := useRef zero (option_map callCountSlot slot) h in
  let '(totalTimeRef, h) := useRef zero (option_map totalTimeSlot slot) h in
  let fresh := memoizedCallback callback options callCountRef totalTimeRef in
  match slot with
  | Some s =>
      if sameDeps (memoDeps s) deps
      then (memoFn s, MkSlot callCountRef totalTimeRef (memoFn s) (memoDeps s), h)
      else (fresh, MkSlot callCountRef totalTimeRef fresh deps, h)
  | None => (fresh, MkSlot callCountRef totalTimeRef fresh deps, h)
  end.

Record Metrics := MkMetrics {
  callCount : Num;
  totalTime : Num;
  avgTime : Num
}.

(** [useFloatCallbackMetrics]: two cells of its own. *)
Definition useFloatCallbackMetrics (slot : option (nat * nat)) (h : list Num)
    : (Metrics * (nat * nat)) * list Num :=
  let '(callCountRef, h) := useRef zero (option_map fst slot) h in
  let '(totalTimeRef, h) := useRef zero (option_map snd slot) h in
  let count := nth callCountRef h zero in
  let total := nth totalTimeRef h zero in
  (MkMetrics count total (if positive count then div total count else zero),
   (callCountRef, totalTimeRef), h).

End WithNumbers.

End Callback.

(** ** Vocabulary of the properties *)

Module Props.

(** A from-clause of the scanned code, what stands in its place in the
    output, and the text between it and the next clause. *)
Record Piece := MkPiece {
  clause : RegExpMatch;
  rendered : jsstring;
  gap : jsstring
}.

Definition originalText (ps : list Piece) : jsstring :=
  concat (map (fun p => whole (clause p) ++ gap p) ps).

Definition rewrittenText (ps : list Piece) : jsstring :=
  concat (map (fun p => rendered p ++ gap p) ps).

(** [`from '${target}'`]. *)
Definition fromClause (target : jsstring) : jsstring :=
  js "from '" ++ target ++ js "'".

(** The matches lie in [code] where their indices say, one after the
    other, from [pos] on. *)
Fixpoint placed (code : jsstring) (pos : nat) (ms : list RegExpMatch) : Prop :=
  match ms with
  | [] => True
  | m :: rest =>
      (pos <= index m)%nat /\
      (index m + length (whole m) <= length code)%nat /\
      (exists post, drop (index m) code = whole m ++ post) /\
      placed code (index m + length (whole m)) rest
  end.

(** How one round of the loop decided what stands in place of a clause:
    the clause is kept when nothing was found, and is otherwise replaced
    by a from-clause on the target that [materialize] returned. *)
Definition renderedBy (h : Host)
    (rewriteDependency : jsstring -> jsstring -> jsstring -> bool -> M jsstring)
    (baseDir cacheDir : jsstring) (vibeDebug : bool) (p : Piece) : Prop :=
  exists (st st1 : State) (r : Resolution),
    resolveSpecifier h (group1 (clause p)) baseDir vibeDebug st = (st1, Ok r) /\
    ((found r = false /\ finalImportPath r = [] /\ rendered p = whole (clause p))
     \/
     ((found r = true \/ finalImportPath r <> []) /\
      exists (st2 : State) (target : jsstring),
        materialize h rewriteDependency r cacheDir vibeDebug st1 = (st2, Ok target) /\
        rendered p = fromClause target)).

(** The import specifiers that the rewriter treats as the UI runtime. *)
Definition isReactSpecifier (importPath : jsstring) : bool :=
  JS.eqb importPath (js "react") || startsWith importPath (js "react/").

(** The specifiers of the relative probe. *)
Definition isRelativeSpecifier (importPath : jsstring) : bool :=
  startsWith importPath (js "./") || startsWith importPath (js "../")
  || startsWith importPath (js "@/").

(** The path a relative or alias specifier is probed at. *)
Definition probeBase (cwd baseDir importPath : jsstring) : jsstring :=
  if startsWith importPath (js "@/")
  then Path.resolve cwd [cwd; sliceFrom importPath 2]
  else Path.resolve cwd [baseDir; importPath].

(** The candidates in the order in which the loop of the source reaches
    them. *)
Definition probeOrder (resolved : jsstring) : list jsstring :=
  let s := stripJsExtension resolved in
  [ s ++ js ".tsx"; Path.join [resolved; js "index.tsx"];
    s ++ js ".ts";  Path.join [resolved; js "index.ts"];
    s ++ js ".jsx"; Path.join [resolved; js "index.jsx"];
    s ++ js ".js";  Path.join [resolved; js "index.js"];
    s ++ js ".mjs"; Path.join [resolved; js "index.mjs"];
    s;              Path.join [resolved; js "index"] ].

(** The same candidates for any extension list, as the loop produces
    them: two per extension. *)
Definition interleave (exts : list jsstring) (strippedPath resolved : jsstring)
    : list jsstring :=
  flat_map (fun ext => [strippedPath ++ ext; Path.join [resolved; js "index" ++ ext]]) exts.

(** The order that the specification documents: the literal path, the
    extensions appended to it, then the index files. *)
Definition documentedOrder (resolved : jsstring) : list jsstring :=
  resolved
  :: map (fun ext => resolved ++ ext) extensions
  ++ map (fun ext => Path.join [resolved; js "index" ++ ext]) extensions.

Definition existsIn (fs : gmap (list N) FsNode) (p : jsstring) : bool :=
  bool_decide (is_Some (fs !! p)).

(** [p] is the first candidate of [candidates] that exists. *)
Definition firstExisting (fs : gmap (list N) FsNode)
    (candidates : list jsstring) (p : jsstring) : Prop :=
  exists i : nat,
    candidates !! i = Some p /\ existsIn fs p = true /\
    forall (j : nat) (q : jsstring),
      (j < i)%nat -> candidates !! j = Some q -> existsIn fs q = false.

(** The cached file is present and at least as recent as its source. *)
Definition cacheValid (fs : gmap (list N) FsNode)
    (cachedFile resolved : jsstring) : Prop :=
  exists c s : FsNode,
    fs !! cachedFile = Some c /\ fs !! resolved = Some s /\
    (nodeMtime s <= nodeMtime c)%Z.

(** [needle] occurs in [s]. *)
Definition occursIn (needle s : jsstring) : Prop :=
  exists before after : jsstring, s = before ++ needle ++ after.

(** The number of positions at which [needle] starts in [s]. *)
Fixpoint countOf (needle s : jsstring) : nat :=
  match s with
  | [] => 0%nat
  | _ :: s' => ((if startsWith s needle then 1 else 0) + countOf needle s')%nat
  end.

(** A path token in quotes, as the import expression reads it. *)
Definition quotedToken (t : jsstring) : Prop :=
  exists (q q' : N) (body : jsstring),
    isQuote q = true /\ isQuote q' = true /\ t = q :: body ++ [q'].

(** The reading under which only quoted path tokens change: the code is
    cut at tokens, and the output has the same text around them. *)
Definition onlyPathTokensDiffer (code out : jsstring) : Prop :=
  exists (lead : jsstring) (tokens : list (jsstring * jsstring * jsstring)),
    code = lead ++ concat (map (fun t => fst (fst t) ++ snd t) tokens) /\
    out = lead ++ concat (map (fun t => snd (fst t) ++ snd t) tokens) /\
    Forall (fun t => quotedToken (fst (fst t)) /\ quotedToken (snd (fst t))) tokens.

(** The files of the dependency cache under [cacheDir]. *)
Definition isCacheFile (cacheDir p : jsstring) : Prop :=
  exists resolved : jsstring, p = cachedFileOf cacheDir resolved.

(** Two file systems that differ at most in dependency cache files. *)
Definition agreeOutsideCache (cacheDir : jsstring)
    (fa fb : gmap (list N) FsNode) : Prop :=
  forall p : jsstring, ~ isCacheFile cacheDir p -> fa !! p = fb !! p.

(** Every step of [c] takes a store to one that [R] relates to it. *)
Definition preserves {A} (R : State -> State -> Prop) (c : M A) : Prop :=
  forall st, R st (fst (c st)).

(** The module cache of [st'] is that of [st]. *)
Definition sameModuleCache (st st' : State) : Prop :=
  moduleCache st' = moduleCache st.

(** The path that [transformFile] works on. *)
Definition absolutePathOf (h : Host) (filePath : jsstring) : jsstring :=
  if Path.isAbsolute filePath then filePath else Path.resolve (cwd h) [filePath].

(** The store after the console line that [vibeDebug] asks for. *)
Definition announced (vibeDebug : bool) (absolutePath : jsstring) (st : State)
    : State :=
  if vibeDebug then addEvent (ConsoleTransforming absolutePath) st else st.

(** Two stores whose file systems differ at most in cache files. *)
Definition agreeStates (cacheDir : jsstring) (sa sb : State) : Prop :=
  agreeOutsideCache cacheDir (files sa) (files sb).

(** [c] cannot tell such stores apart: it ends the same way in both and
    leaves them in agreement. *)
Definition stable {A} (cacheDir : jsstring) (c : M A) : Prop :=
  forall sa sb,
    agreeStates cacheDir sa sb ->
    snd (c sa) = snd (c sb) /\ agreeStates cacheDir (fst (c sa)) (fst (c sb)).

(** The specifiers of the framework branch. *)
Definition isFrameworkSpecifier (importPath : jsstring) : bool :=
  JS.eqb importPath (js "@float-v/core") || JS.eqb importPath (js "@float-v/lite").

(** The built entry point that the framework branch looks for. *)
Definition frameworkBuilt (h : Host) : jsstring :=
  Path.resolve (cwd h) [Path.dirname (currentModulePath h); js ".."; js "index.js"].

(** None of the paths that the resolution of [importPath] tests for
    existence is a cache file. *)
Definition probesOutsideCache (h : Host) (cacheDir baseDir importPath : jsstring)
    : Prop :=
  (isRelativeSpecifier importPath = true ->
   Forall (fun c => ~ isCacheFile cacheDir c)
          (probeOrder (probeBase (cwd h) baseDir importPath))) /\
  (isFrameworkSpecifier importPath = true ->
   ~ isCacheFile cacheDir (frameworkBuilt h)).

(** Package resolution does not depend on the cache files. *)
Definition resolverIgnoresCache (h : Host) (cacheDir : jsstring) : Prop :=
  forall fa fb filename specifier,
    agreeOutsideCache cacheDir fa fb ->
    requireResolve h fa filename specifier = requireResolve h fb filename specifier.

(** The import target that a resolution leads to, when [materialize]
    returns one. *)
Definition targetOf (h : Host) (cacheDir : jsstring) (r : Resolution) : jsstring :=
  if JS.eqb (finalImportPath r) [] then
    if isSourceExt (Path.extname (resolvedPath r))
    then pathToFileURL h (cachedFileOf cacheDir (resolvedPath r))
    else pathToFileURL h (resolvedPath r)
  else finalImportPath r.

(** The code that [prepareModule] produced, if it produced any. *)
Definition codeOf (o : Outcome (jsstring * jsstring)) : option jsstring :=
  match o with
  | Ok prepared => Some (snd prepared)
  | _ => None
  end.

(** A string without a slash. *)
Definition noSlash (s : jsstring) : Prop :=
  Forall (fun c => Path.isSlash c = false) s.

(** A path segment that [normalizeString] keeps as it is. *)
Definition proper (name : jsstring) : Prop :=
  name <> [] /\ noSlash name /\ name <> [Path.dot] /\ name <> [Path.dot; Path.dot].

(** Empty, or ending in a slash. *)
Definition opening (pre : jsstring) : Prop :=
  pre = [] \/ exists x, pre = x ++ [Path.slash].

(** The trace of [st'] continues the trace of [st]. *)
Definition tracePrefix (st st' : State) : Prop :=
  exists more, trace st' = trace st ++ more.

(** The locked paths of [st'] are those of [st]. *)
Definition sameLocks (st st' : State) : Prop :=
  lockedReactPath st' = lockedReactPath st /\
  lockedReactDOMPath st' = lockedReactDOMPath st.

(** The queue of scheduled removals of [st'] is that of [st]. *)
Definition sameImmediates (st st' : State) : Prop :=
  immediates st' = immediates st.

(** The file system after each path of [paths] that names a file has
    been unlinked, in order. *)
Fixpoint removeFiles (paths : list jsstring) (fs : gmap (list N) FsNode)
    : gmap (list N) FsNode :=
  match paths with
  | [] => fs
  | p :: rest =>
      removeFiles rest
        match fs !! p with
        | Some (File _ _) => delete p fs
        | _ => fs
        end
  end.

(** Whatever [p] names in [st], it names in [st']. *)
Definition keepsNode (p : jsstring) (st st' : State) : Prop :=
  forall n, files st !! p = Some n -> files st' !! p = Some n.

(** The specifiers of the second shim. *)
Definition isReactDomSpecifier (importPath : jsstring) : bool :=
  JS.eqb importPath (js "react-dom") || startsWith importPath (js "react-dom/").

(** The specifiers that one of the first four branches answers. *)
Definition isSpecialSpecifier (importPath : jsstring) : bool :=
  isReactSpecifier importPath || isReactDomSpecifier importPath
  || JS.eqb importPath (js "react-native") || isFrameworkSpecifier importPath.

(** The store after the warning that lines 157-160 print for a
    specifier under the scope of the framework. *)
Definition legacyAnnounced (vibeDebug : bool) (importPath : jsstring) (st : State)
    : State :=
  if startsWith importPath (js "@float-v/") && vibeDebug
  then addEvent (ConsoleLegacyImport importPath) st else st.

(** The source entry point that the framework branch falls back to. *)
Definition frameworkSource (h : Host) : jsstring :=
  Path.resolve (cwd h) [Path.dirname (currentModulePath h); js ".."; js "index.ts"].

(** What [localRequire.resolve(importPath)] gives in [rewriteImports]. *)
Definition packageOf (h : Host) (fs : gmap (list N) FsNode)
    (baseDir importPath : jsstring) : Error + jsstring :=
  requireResolve h fs (Path.join [baseDir; js "noop.js"]) importPath.

(** The candidate that the relative probe stops at, if it runs and
    finds one. *)
Definition probed (h : Host) (fs : gmap (list N) FsNode)
    (baseDir importPath : jsstring) : option jsstring :=
  if isRelativeSpecifier importPath
  then find (existsIn fs) (probeOrder (probeBase (cwd h) baseDir importPath))
  else None.

(** The store after the console lines of the framework branch. *)
Definition frameworkAnnounced (vibeDebug : bool) (importPath : jsstring)
    (st : State) : State :=
  let st0 := legacyAnnounced vibeDebug importPath st in
  if vibeDebug && JS.eqb importPath (js "@float-v/lite")
  then addEvent ConsoleAliasedLite st0 else st0.

(** The error that reading and transforming the dependency [resolved]
    ends in, if it does. *)
Definition dependencyError (h : Host) (fs : gmap (list N) FsNode)
    (resolved : jsstring) : option Error :=
  match fs !! resolved with
  | Some (File source _) =>
      match esbuildTransform h true (getLoader (Path.extname resolved)) source
                             resolved with
      | inl e => Some e
      | inr _ => None
      end
  | Some (Directory _) => Some (errno "EISDIR" resolved)
  | None => Some (errno "ENOENT" resolved)
  end.

(** The calls of the transformer that [dependencyError] stands for. *)
Definition dependencyAttempt (fs : gmap (list N) FsNode) (resolved : jsstring)
    : list Event :=
  match fs !! resolved with
  | Some (File _ _) => [EsbuildTransform resolved]
  | _ => []
  end.

(** A lower-case hexadecimal digit. *)
Definition isHex (c : N) : bool :=
  (48 <=? c) && (c <=? 57) || (97 <=? c) && (c <=? 102).

(** The store with other locked paths. *)
Definition relock (a b : option jsstring) (st : State) : State :=
  MkState (files st) (ticks st) (moduleCache st) a b (immediates st) (trace st).

(** [c] neither reads nor writes the locked paths: with other locked
    paths it ends the same way and does the same to the rest of the
    store. *)
Definition lockBlind {A} (c : M A) : Prop :=
  forall a b st, c (relock a b st) = (relock a b (fst (c st)), snd (c st)).

(** What is left of [rest] when the optional semicolon of the
    stylesheet expression has been taken. *)
Definition dropSemicolon (rest : jsstring) : jsstring :=
  match rest with
  | c :: rest' => if N.eqb c 59 then rest' else rest
  | [] => []
  end.

(** [project-local cache directory] of [transformFile]. *)
Definition tempDirOf (h : Host) : jsstring :=
  Path.join [cwd h; js ".float"; js ".cache"].

End Props.

Export Props.

(** ** Small projects to run the definitions on *)

Module Demo.

Definition resolveTable (table : list (jsstring * jsstring))
    (specifier : jsstring) : Error + jsstring :=
  match find (fun kv => JS.eqb (fst kv) specifier) table with
  | Some kv => inr (snd kv)
  | None => inl (MkError (js "Cannot find module '" ++ specifier ++ js "'"))
  end.

(** A host whose transformer leaves plain module code as it is, whose
    resolver knows the packages of [table] and nothing else, and whose
    loader accepts every file that exists. *)
Definition host (table : list (jsstring * jsstring)) : Host :=
  {| cwd := js "/app";
     clock := fun n => (1000 + Z.of_nat n)%Z;
     requireResolve := fun _ _ specifier => resolveTable table specifier;
     realpathSync := fun _ p => inr p;
     esbuildTransform := fun _ _ source _ => inr source;
     pathToFileURL := fun p => js "file://" ++ Path.resolve (js "/app") [p];
     dynamicImport := fun fs href =>
       match stripPrefix (js "file://") href with
       | Some p =>
           match fs !! p with
           | Some (File _ _) => inr (N.of_nat (length p))
           | _ => inl (MkError (js "ERR_MODULE_NOT_FOUND"))
           end
       | None => inl (MkError (js "ERR_MODULE_NOT_FOUND"))
       end;
     currentModulePath := js "/app/node_modules/@float-v/core/dist/build/transform.js" |}.

(** The same host with a loader that rejects every module. *)
Definition brokenLoaderHost : Host :=
  {| cwd := cwd (host []);
     clock := clock (host []);
     requireResolve := requireResolve (host []);
     realpathSync := realpathSync (host []);
     esbuildTransform := esbuildTransform (host []);
     pathToFileURL := pathToFileURL (host []);
     dynamicImport := fun _ _ => inl (MkError (js "SyntaxError: Unexpected token"));
     currentModulePath := currentModulePath (host []) |}.

(** The value of a finished call, or [default]. *)
Definition okValue {A} (default : A) (o : Outcome A) : A :=
  match o with
  | Ok a => a
  | _ => default
  end.

Definition initialState (fs : list (jsstring * FsNode)) : State :=
  MkState (list_to_map fs) 0 ∅ None None [] [].

Definition dirs (paths : list string) : list (jsstring * FsNode) :=
  map (fun p => (js p, Directory 0)) paths.

Definition file (p content : string) (mtime : Z) : jsstring * FsNode :=
  (js p, File (js content) mtime).

Open Scope string_scope.

Definition mainSource : jsstring :=
  js "import { go } from './lib.js';
export const x = go(1);
".

(** An entry file with a sibling that exists both as [lib.js] and as
    [lib.ts]. *)
Definition project : list (jsstring * FsNode) :=
  dirs ["/"; "/app"; "/app/src"] ++
  [ (js "/app/src/main.tsx", File mainSource 10);
    file "/app/src/lib.js" "export const go = (n) => n;
" 20;
    file "/app/src/lib.ts" "export const go = (n: number) => n;
" 30 ].

(** An entry file that names the cache file of its own dependency. *)
Definition selfReferring : list (jsstring * FsNode) :=
  dirs ["/"; "/app"] ++
  [ file "/app/main.ts"
         "import { a } from './.float/.cache/dep_aa604cf8d477797d';
import { b } from './b';
export const c = [a, b];
" 10;
    file "/app/b.ts" "export const b = 2;
" 20 ].

Definition packagesCode : jsstring :=
  js "import React from 'react';
import _ from 'lodash';
".

(** An entry file with a UI-runtime import, a package import and nothing
    else. *)
Definition packagesOnly : list (jsstring * FsNode) :=
  dirs ["/"; "/app"] ++ [(js "/app/main.js", File packagesCode 10)].

(** A from-clause with two spaces before its token. *)
Definition spacedCode : jsstring := js "from  'react'".

Definition nativeCode : jsstring := js "import { View } from 'react-native';".

Definition lodashTable : list (jsstring * jsstring) :=
  [(js "lodash", js "/app/node_modules/lodash/lodash.js")].

Definition reactOnlyTable : list (jsstring * jsstring) :=
  [(js "react", js "/app/node_modules/react/index.js")].

Definition cycleA : jsstring :=
  js "import { b } from './b';
export const a = 1;
".

Definition cycleB : jsstring :=
  js "import { a } from './a';
export const b = 2;
".

(** Two TypeScript files that import each other. *)
Definition cyclic : list (jsstring * FsNode) :=
  dirs ["/"; "/app"; "/app/.float"; "/app/.float/.cache"] ++
  [ (js "/app/a.ts", File cycleA 10); (js "/app/b.ts", File cycleB 20) ].

Close Scope string_scope.

End Demo.

(** * Properties *)

(** ** The library functions on known values *)

Module Checks.

(** The test vector of FIPS 180-4 for the one-block message. *)
Example sha256_abc :
  Crypto.sha256Hex (js "abc")
  = js "ba7816bf8f01cfea414140de5dae2223b00361a396177a9cb410ff61f20015ad".
Proof. vm_compute. reflexivity. Qed.

(** A message that needs two blocks. *)
Example sha256_two_blocks :
  Crypto.sha256Hex
    (js "abcdbcdecdefdefgefghfghighijhijkijkljklmklmnlmnomnopnopq")
  = js "248d6a61d20638b8e5c026930c3e6039a33ce45964ff2167f6ecedd419db06c1".
Proof. vm_compute. reflexivity. Qed.

Example base64_padding :
  Buffer.toBase64 (Buffer.from (js "hello world!?")) = js "aGVsbG8gd29ybGQhPw=="
  /\ Buffer.toBase64 (Buffer.from (js "ab")) = js "YWI=".
Proof. split; vm_compute; reflexivity. Qed.

(** U+00E9, U+20AC and a surrogate pair for U+1F600. *)
Example utf8_beyond_ascii :
  Buffer.toBase64 (Buffer.from [233; 8364; 55357; 56832]) = js "w6nigqzwn5iA".
Proof. vm_compute. reflexivity. Qed.

Example resolve_examples :
  Path.resolve (js "/work") [js "/app/src"; js "./util"] = js "/app/src/util"
  /\ Path.resolve (js "/work") [js "/app/src"; js "../lib/x.js"] = js "/app/lib/x.js"
  /\ Path.resolve (js "/work") [js "rel"; js "a/./b//c/"] = js "/work/rel/a/b/c"
  /\ Path.resolve (js "/work") [js "/a"; js "/b/c"] = js "/b/c"
  /\ Path.resolve (js "/work") [js "react-native-web"] = js "/work/react-native-web".
Proof. repeat split; vm_compute; reflexivity. Qed.

Example join_examples :
  Path.join [js "/app/src/util"; js "index.tsx"] = js "/app/src/util/index.tsx"
  /\ Path.join [js "/app"; js ".float"; js ".cache"] = js "/app/.float/.cache"
  /\ Path.join [js "/a"; js "../.."] = js "/"
  /\ Path.join [js "a/"; []] = js "a/".
Proof. repeat split; vm_compute; reflexivity. Qed.

Example extname_examples :
  Path.extname (js "/a/b.ts") = js ".ts"
  /\ Path.extname (js "/a/.bashrc") = []
  /\ Path.extname (js "/x/y.tar.gz") = js ".gz"
  /\ Path.extname (js "a.b/c") = []
  /\ Path.extname (js "react-native-web") = []
  /\ Path.extname (js "..") = [].
Proof. repeat split; vm_compute; reflexivity. Qed.

Example dirname_basename_examples :
  Path.dirname (js "/app/src/main.tsx") = js "/app/src"
  /\ Path.dirname (js "/a") = js "/"
  /\ Path.dirname (js "a") = js "."
  /\ Path.basename (js "/app/src/main.tsx") (js ".tsx") = js "main"
  /\ Path.basename (js "/a/.ts") (js ".ts") = js ".ts".
Proof. repeat split; vm_compute; reflexivity. Qed.

(** A clause needs whitespace after the word, a token that is not empty
    and a closing quote; the two quotes need not be of the same kind. *)
Example matchAll_example :
  matchAll (js "import a from 'x'; from'y' from '' from  './z.js" ++ [34])
  = [MkMatch 9 (js "from 'x'") (js "x");
     MkMatch 35 (js "from  './z.js" ++ [34]) (js "./z.js")].
Proof. vm_compute. reflexivity. Qed.

Example removeCssImports_example :
  removeCssImports (js "import './a.css';import x from 'y.css';import 'b.cssx';")
  = js "import x from 'y.css';import 'b.cssx';".
Proof. vm_compute. reflexivity. Qed.

Example stripJsExtension_examples :
  stripJsExtension (js "/a/b.js") = js "/a/b"
  /\ stripJsExtension (js "/a/b.mjs") = js "/a/b"
  /\ stripJsExtension (js "/a/b.jsx") = js "/a/b.jsx".
Proof. repeat split; vm_compute; reflexivity. Qed.

(** The whole of [transformFile] on the demo project: the sibling named
    with [.js] is found as [lib.ts], transformed into the cache, and the
    entry is written with both imports redirected. *)
Example transformFile_example :
  let r := transformFile (Demo.host []) 2 (js "src/main.tsx") false
             (Demo.initialState Demo.project) in
  snd r = Ok 32 /\
  files (fst r) !! js "/app/.float/.cache/main_1002.mjs"
  = Some (File (js "import React " ++ fromClause (dataUrl reactGlueCode)
                ++ js ";" ++ 10
                :: js "import { go } "
                ++ fromClause (js "file:///app/.float/.cache/dep_5a2c20240f588fc2.mjs")
                ++ js ";" ++ 10 :: js "export const x = go(1);" ++ [10]) 1004) /\
  files (fst r) !! js "/app/.float/.cache/dep_5a2c20240f588fc2.mjs"
  = Some (File (js "export const go = (n: number) => n;" ++ [10]) 1003) /\
  immediates (fst r) = [js "/app/.float/.cache/main_1002.mjs"] /\
  moduleCache (fst r) !! js "/app/src/main.tsx" = Some (MkEntry 32 10).
Proof. cbv zeta. repeat split; vm_compute; reflexivity. Qed.

End Checks.

(** ** Strings *)

Module JSFacts.

Lemma eqb_eq (a b : jsstring) : JS.eqb a b = true <-> a = b.
Proof.
  revert b. induction a as [|x a IH]; intros [|y b]; simpl; split; intros H;
    try discriminate; try reflexivity.
  - apply andb_true_iff in H as [Hx Hab]. apply N.eqb_eq in Hx.
    apply IH in Hab. congruence.
  - injection H as -> ->. apply andb_true_iff. split.
    + apply N.eqb_refl.
    + apply IH. reflexivity.
Qed.

Lemma eqb_neq (a b : jsstring) : JS.eqb a b = false <-> a <> b.
Proof.
  split.
  - intros H E. apply eqb_eq in E. congruence.
  - intros H. destruct (JS.eqb a b) eqn:E; [|reflexivity].
    apply eqb_eq in E. contradiction.
Qed.

Lemma startsWith_app (s prefix : jsstring) :
  startsWith s prefix = true <-> exists rest, s = prefix ++ rest.
Proof.
  revert s. induction prefix as [|p prefix IH]; intros s; simpl.
  - split; [intros _; exists s; reflexivity | reflexivity].
  - destruct s as [|c s].
    + split; [discriminate | intros [rest H]; discriminate].
    + destruct (N.eqb p c) eqn:E.
      * apply N.eqb_eq in E. subst c. rewrite IH. split.
        -- intros [rest ->]. exists rest. reflexivity.
        -- intros [rest H]. injection H as ->. exists rest. reflexivity.
      * apply N.eqb_neq in E. split; [discriminate|].
        intros [rest H]. injection H as H _. congruence.
Qed.

Lemma stripPrefix_app (prefix s rest : jsstring) :
  stripPrefix prefix s = Some rest <-> s = prefix ++ rest.
Proof.
  revert s. induction prefix as [|p prefix IH]; intros s; simpl.
  - split; [intros [= ->]; reflexivity | intros ->; reflexivity].
  - destruct s as [|c s].
    + split; discriminate.
    + destruct (N.eqb p c) eqn:E.
      * apply N.eqb_eq in E. subst c. rewrite IH. split.
        -- intros ->. reflexivity.
        -- intros [= ->]. reflexivity.
      * apply N.eqb_neq in E. split; [discriminate|].
        intros [= <- _]. congruence.
Qed.

Lemma includes_occurs (s needle : jsstring) :
  includes s needle = true <-> occursIn needle s.
Proof.
  unfold occursIn. induction s as [|c s IH].
  - simpl. rewrite orb_false_r, startsWith_app. split.
    + intros [rest H]. exists [], rest. exact H.
    + intros [before [after H]]. destruct before as [|b before]; [|discriminate].
      exists after. exact H.
  - cbn [includes]. rewrite orb_true_iff, IH, startsWith_app. split.
    + intros [[rest H] | [before [after H]]].
      * exists [], rest. exact H.
      * exists (c :: before), after. rewrite H. reflexivity.
    + intros [before [after H]]. destruct before as [|b before].
      * left. exists after. exact H.
      * right. injection H as _ H. exists before, after. exact H.
Qed.

Lemma span_app (p : N -> bool) (s : jsstring) :
  fst (span p s) ++ snd (span p s) = s.
Proof.
  induction s as [|c s IH]; simpl; [reflexivity|].
  destruct (p c); [|reflexivity].
  destruct (span p s) as [a b]. simpl in *. rewrite IH. reflexivity.
Qed.

Lemma span_eq (p : N -> bool) (s a b : jsstring) :
  span p s = (a, b) -> s = a ++ b.
Proof. intros H. rewrite <- (span_app p s), H. reflexivity. Qed.

End JSFacts.

(** ** The monad of the process *)

Module NodeFacts.

Lemma bind_Ok {A B} (c : M A) (k : A -> M B) st st' b :
  bind c k st = (st', Ok b) ->
  exists sm a, c st = (sm, Ok a) /\ k a sm = (st', Ok b).
Proof.
  unfold bind. destruct (c st) as [sm [a|e|]]; intros H; try discriminate.
  exists sm, a. split; [reflexivity | exact H].
Qed.

Lemma bind_eq {A B} (c : M A) (k : A -> M B) st sm a :
  c st = (sm, Ok a) -> bind c k st = k a sm.
Proof. unfold bind. intros ->. reflexivity. Qed.

End NodeFacts.

(** ** The runtime import of [transformFile] *)

(** C5, as the code has it: the import of React is put in front exactly
    when the transformed code contains neither the text [import React]
    nor the text [import * as React]; whether the code mentions React
    anywhere else plays no part. *)
Theorem prependReactImport_spec (code : jsstring) :
  (~ occursIn (js "import React") code /\
   ~ occursIn (js "import * as React") code /\
   prependReactImport code = js "import React from 'react';" ++ 10 :: code)
  \/
  ((occursIn (js "import React") code \/ occursIn (js "import * as React") code) /\
   prependReactImport code = code).
Proof.
  unfold prependReactImport.
  destruct (includes code (js "import React")) eqn:E1.
  - right. split; [|reflexivity]. left. apply JSFacts.includes_occurs. exact E1.
  - destruct (includes code (js "import * as React")) eqn:E2.
    + right. split; [|reflexivity]. right. apply JSFacts.includes_occurs. exact E2.
    + left. repeat split.
      * intros H. apply JSFacts.includes_occurs in H. congruence.
      * intros H. apply JSFacts.includes_occurs in H. congruence.
Qed.

(** C5 fails as stated: a module that never mentions React is given the
    import all the same. *)
Lemma prependReactImport_without_reference :
  let code := js "export const x = 1;" in
  includes code (js "React") = false /\
  prependReactImport code = js "import React from 'react';" ++ 10 :: code /\
  prependReactImport code <> code.
Proof.
  cbv zeta. split; [reflexivity|]. split; [reflexivity|].
  vm_compute. discriminate.
Qed.

(** ** The dependency lock *)

(** C7, as the code has it: the call never throws and touches nothing but
    the two locked paths. When [react] does not resolve, the store is left
    as it was. When [react] resolves and [react-dom] does not, the UI
    runtime path has already been assigned and stays assigned; the
    renderer path keeps its previous value. *)
Theorem lockFrameworkDependencies_total (h : Host) (projectRoot : jsstring)
    (st : State) :
  exists st',
    lockFrameworkDependencies h projectRoot st = (st', Ok tt) /\
    files st' = files st /\ moduleCache st' = moduleCache st /\
    match requireResolve h (files st) (Path.join [projectRoot; js "noop.js"]) (js "react") with
    | inl _ => st' = st
    | inr react =>
        match realpathSync h (files st) react with
        | inl _ => st' = st
        | inr reactReal =>
            lockedReactPath st' = Some reactReal /\
            match requireResolve h (files st) (Path.join [projectRoot; js "noop.js"]) (js "react-dom") with
            | inl _ => lockedReactDOMPath st' = lockedReactDOMPath st
            | inr reactDom =>
                match realpathSync h (files st) reactDom with
                | inl _ => lockedReactDOMPath st' = lockedReactDOMPath st
                | inr reactDomReal => lockedReactDOMPath st' = Some reactDomReal
                end
            end
        end
    end.
Proof.
  unfold lockFrameworkDependencies, tryCatch, bind, resolveFrom, get, liftResult,
    modify, ret, throw, setLockedReactPath, setLockedReactDOMPath.
  destruct st as [fs tk mc lr ld im tr]. cbn.
  destruct (requireResolve h fs _ (js "react")); cbn.
  { eexists; repeat split. }
  destruct (realpathSync h fs _); cbn.
  { eexists; repeat split. }
  destruct (requireResolve h fs _ (js "react-dom")); cbn.
  { eexists; repeat split. }
  destruct (realpathSync h fs _); cbn; eexists; repeat split.
Qed.

(** C7 fails as stated: with [react] installed and [react-dom] missing,
    resolution fails, nothing is thrown, and the UI runtime path is
    locked all the same. *)
Lemma lockFrameworkDependencies_half_locked :
  let h := Demo.host Demo.reactOnlyTable in
  let st := Demo.initialState Demo.project in
  let r := lockFrameworkDependencies h (js "/app") st in
  lockedReactPath st = None /\
  (exists e, requireResolve h (files st) (Path.join [js "/app"; js "noop.js"])
                            (js "react-dom") = inl e) /\
  snd r = Ok tt /\
  lockedReactPath (fst r) = Some (js "/app/node_modules/react/index.js") /\
  lockedReactDOMPath (fst r) = None.
Proof.
  cbv zeta. split; [reflexivity|]. split; [eexists; reflexivity|].
  split; [reflexivity|]. split; reflexivity.
Qed.

(** ** The relative probe *)

Module ProbeFacts.

(** Literals are compared by evaluation. *)
Ltac eval_js :=
  repeat match goal with
  | |- context [js ?s] =>
      let v := eval vm_compute in (js s) in change (js s) with v
  end.

Lemma relative_cases (importPath : jsstring) :
  isRelativeSpecifier importPath = true ->
  (exists rest, importPath = 46 :: 47 :: rest)
  \/ (exists rest, importPath = 46 :: 46 :: 47 :: rest)
  \/ (exists rest, importPath = 64 :: 47 :: rest).
Proof.
  unfold isRelativeSpecifier. rewrite !orb_true_iff, !JSFacts.startsWith_app.
  intros [[[rest H] | [rest H]] | [rest H]]; [left | right; left | right; right];
    exists rest; exact H.
Qed.

(** None of the shim, native-platform or framework branches takes a
    relative specifier, and nothing is logged for it. *)
Lemma classify_relative (h : Host) (importPath baseDir : jsstring)
    (vibeDebug : bool) (st : State) :
  isRelativeSpecifier importPath = true ->
  classify h importPath baseDir vibeDebug st = (st, Ok unresolved).
Proof.
  intros H. apply relative_cases in H.
  destruct H as [[rest ->] | [[rest ->] | [rest ->]]];
    unfold classify; eval_js; reflexivity.
Qed.

Lemma probeExtensions_find (exts : list jsstring)
    (strippedPath resolved : jsstring) (st : State) :
  probeExtensions exts strippedPath resolved st =
  (st, Ok (find (existsIn (files st)) (interleave exts strippedPath resolved))).
Proof.
  induction exts as [|ext exts IH]; [reflexivity|].
  cbn [probeExtensions interleave flat_map app find].
  unfold bind, existsSync at 1. fold (existsIn (files st) (strippedPath ++ ext)).
  destruct (existsIn (files st) (strippedPath ++ ext)); [reflexivity|].
  unfold existsSync at 1.
  fold (existsIn (files st) (Path.join [resolved; js "index" ++ ext])).
  destruct (existsIn (files st) (Path.join [resolved; js "index" ++ ext]));
    [reflexivity|].
  exact IH.
Qed.

Lemma probeOrder_interleave (resolved : jsstring) :
  probeOrder resolved = interleave extensions (stripJsExtension resolved) resolved.
Proof.
  unfold probeOrder, interleave, extensions. cbn [flat_map app].
  rewrite !app_nil_r. reflexivity.
Qed.

Lemma find_firstExisting (fs : gmap (list N) FsNode)
    (candidates : list jsstring) (p : jsstring) :
  firstExisting fs candidates p -> find (existsIn fs) candidates = Some p.
Proof.
  intros [i [Hi [Hp Hbefore]]]. revert i Hi Hbefore.
  induction candidates as [|c cs IH]; intros i Hi Hbefore; [destruct i; discriminate|].
  destruct i as [|i]; cbn [find].
  - injection Hi as ->. rewrite Hp. reflexivity.
  - rewrite (Hbefore 0%nat c); [|lia|reflexivity].
    apply (IH i); [exact Hi|].
    intros j q Hj Hq. apply (Hbefore (S j) q); [lia | exact Hq].
Qed.

Lemma firstExisting_find (fs : gmap (list N) FsNode)
    (candidates : list jsstring) (p : jsstring) :
  find (existsIn fs) candidates = Some p -> firstExisting fs candidates p.
Proof.
  induction candidates as [|c cs IH]; cbn [find]; [discriminate|].
  destruct (existsIn fs c) eqn:E.
  - intros [= <-]. exists 0%nat. split; [reflexivity|]. split; [exact E|].
    intros j q Hj. lia.
  - intros H. destruct (IH H) as [i [Hi [Hp Hbefore]]].
    exists (S i). split; [exact Hi|]. split; [exact Hp|].
    intros [|j] q Hj Hq.
    + injection Hq as <-. exact E.
    + apply (Hbefore j q); [lia | exact Hq].
Qed.

Lemma probeRelative_found (h : Host) (importPath baseDir : jsstring)
    (st : State) (p : jsstring) :
  isRelativeSpecifier importPath = true ->
  firstExisting (files st) (probeOrder (probeBase (cwd h) baseDir importPath)) p ->
  probeRelative h importPath baseDir unresolved st =
  (st, Ok (MkResolution [] true p)).
Proof.
  intros Hrel Hfirst. unfold probeRelative.
  change (found unresolved) with false. cbn [negb].
  unfold isRelativeSpecifier in Hrel. rewrite Hrel.
  fold (probeBase (cwd h) baseDir importPath).
  unfold bind. rewrite probeExtensions_find, <- probeOrder_interleave.
  rewrite (find_firstExisting _ _ _ Hfirst). reflexivity.
Qed.

End ProbeFacts.




(** ** The scan and the splices *)

Module ScanFacts.

Lemma matchImportAt_prefix (s m g : jsstring) :
  matchImportAt s = Some (m, g) ->
  (exists rest, s = m ++ rest) /\ (1 <= length m)%nat.
Proof.
  unfold matchImportAt.
  destruct (stripPrefix (js "from") s) as [s1|] eqn:E0; [|discriminate].
  apply JSFacts.stripPrefix_app in E0.
  destruct (span isSpace s1) as [ws s2] eqn:E1. apply JSFacts.span_eq in E1.
  destruct ws as [|w ws]; [discriminate|].
  destruct s2 as [|q s3]; [discriminate|].
  destruct (isQuote q); [|discriminate].
  destruct (span notQuote s3) as [body s4] eqn:E2. apply JSFacts.span_eq in E2.
  destruct body as [|b body]; [discriminate|].
  destruct s4 as [|q' s5]; [discriminate|].
  intros [= <- _]. split.
  - exists s5. subst s s1 s3.
    repeat (rewrite <- app_assoc || rewrite <- app_comm_cons).
    reflexivity.
  - cbn [length]. lia.
Qed.

Lemma matchAllFrom_skip (s : jsstring) (idx k : nat) :
  matchAllFrom s idx k = matchAllFrom (drop k s) (idx + k) 0.
Proof.
  revert idx k. induction s as [|c s IH]; intros idx k.
  - rewrite drop_nil. reflexivity.
  - destruct k as [|k].
    + rewrite drop_0, Nat.add_0_r. reflexivity.
    + cbn [matchAllFrom drop]. rewrite IH. f_equal. lia.
Qed.

Lemma placed_weaken (code : jsstring) (pos pos' : nat) (ms : list RegExpMatch) :
  (pos' <= pos)%nat -> placed code pos ms -> placed code pos' ms.
Proof.
  destruct ms as [|m rest]; [trivial|].
  cbn [placed]. intros Hle [H1 H2]. split; [lia | exact H2].
Qed.

Lemma matchAllFrom_placed (n : nat) (code s : jsstring) (idx : nat) :
  (length s <= n)%nat -> drop idx code = s -> (idx <= length code)%nat ->
  placed code idx (matchAllFrom s idx 0).
Proof.
  revert s idx. induction n as [|n IH]; intros s idx Hlen Hdrop Hidx.
  - destruct s; [exact I | cbn in Hlen; lia].
  - destruct s as [|c s']; [exact I|].
    cbn [matchAllFrom].
    assert (Hlc : length code = (idx + S (length s'))%nat).
    { apply (f_equal length) in Hdrop. rewrite length_drop in Hdrop.
      cbn [length] in Hdrop. lia. }
    destruct (matchImportAt (c :: s')) as [[m g]|] eqn:E.
    + destruct (ScanFacts.matchImportAt_prefix _ _ _ E) as [[rest Hrest] Hm].
      assert (Hlm : (length m <= S (length s'))%nat).
      { apply (f_equal length) in Hrest. rewrite length_app in Hrest.
        cbn [length] in Hrest. lia. }
      cbn [placed index whole]. split; [lia|]. split; [lia|]. split.
      { exists rest. rewrite Hdrop. exact Hrest. }
      rewrite matchAllFrom_skip.
      replace (S idx + (length m - 1))%nat with (idx + length m)%nat by lia.
      assert (Hd : drop (length m - 1) s' = rest).
      { change (drop (length m - 1) s') with (drop (S (length m - 1)) (c :: s')).
        replace (S (length m - 1)) with (length m) by lia.
        rewrite Hrest. apply drop_app_length. }
      rewrite Hd. apply IH.
      * apply (f_equal length) in Hrest. rewrite length_app in Hrest.
        cbn [length] in Hrest, Hlen. lia.
      * rewrite <- drop_drop, Hdrop, Hrest. apply drop_app_length.
      * lia.
    + apply (placed_weaken code (S idx)); [lia|].
      apply IH.
      * cbn [length] in Hlen. lia.
      * replace (S idx) with (idx + 1)%nat by lia.
        rewrite <- drop_drop, Hdrop. reflexivity.
      * lia.
Qed.

Lemma matchAll_placed (code : jsstring) : placed code 0 (matchAll code).
Proof.
  apply (matchAllFrom_placed (length code)); [lia | apply drop_0 | lia].
Qed.

Lemma slice_take (s : jsstring) (n : nat) :
  (n <= length s)%nat -> slice s 0 (Z.of_nat n) = take n s.
Proof.
  intros H. unfold slice, sliceIndex. cbv zeta.
  assert (H1 : (Z.of_nat n <? 0)%Z = false) by (apply Z.ltb_ge; lia).
  rewrite H1. change (0 <? 0)%Z with false. cbv iota.
  rewrite (Z.min_l 0) by lia. rewrite Z.min_l by lia.
  rewrite Z.sub_0_r, Nat2Z.id. change (Z.to_nat 0) with 0%nat.
  rewrite drop_0. reflexivity.
Qed.

Lemma sliceFrom_drop (s : jsstring) (n : nat) :
  (n <= length s)%nat -> sliceFrom s (Z.of_nat n) = drop n s.
Proof.
  intros H. unfold sliceFrom, slice, sliceIndex. cbv zeta.
  assert (H1 : (Z.of_nat n <? 0)%Z = false) by (apply Z.ltb_ge; lia).
  assert (H2 : (Z.of_nat (length s) <? 0)%Z = false) by (apply Z.ltb_ge; lia).
  rewrite H1, H2. rewrite Z.min_l by lia. rewrite Z.min_l by lia.
  rewrite Nat2Z.id. apply take_ge. rewrite length_drop. lia.
Qed.

(** One splice, seen from the original code: the text already produced,
    the gap up to the clause, the new clause, and the untouched rest. *)
Lemma splice_placed (code : jsstring) (pos : nat) (m : RegExpMatch)
    (target newCode outPrefix post : jsstring) (offset : Z) :
  newCode = outPrefix ++ drop pos code ->
  Z.of_nat (length outPrefix) = (Z.of_nat pos + offset)%Z ->
  (pos <= index m)%nat ->
  (index m + length (whole m) <= length code)%nat ->
  drop (index m) code = whole m ++ post ->
  let g := take (index m - pos) (drop pos code) in
  exists offset',
    splice m target (newCode, offset)
    = (outPrefix ++ g ++ fromClause target ++ post, offset') /\
    Z.of_nat (length (outPrefix ++ g ++ fromClause target))
    = (Z.of_nat (index m + length (whole m)) + offset')%Z /\
    post = drop (index m + length (whole m)) code /\
    drop pos code = g ++ whole m ++ post.
Proof.
  intros Hnew Hlen Hpos Hend Hdrop g.
  assert (Hg : length g = (index m - pos)%nat).
  { unfold g. rewrite length_take, length_drop. lia. }
  assert (Hsplit : drop pos code = g ++ whole m ++ post).
  { rewrite <- Hdrop. unfold g.
    rewrite <- (take_drop (index m - pos) (drop pos code)) at 1.
    f_equal. rewrite drop_drop. f_equal. lia. }
  assert (Hpost : post = drop (index m + length (whole m)) code).
  { rewrite <- drop_drop, Hdrop. symmetry. apply drop_app_length. }
  unfold splice. fold (fromClause target).
  eexists. split; [|split; [|split; [exact Hpost | exact Hsplit]]].
  - f_equal.
    replace (Z.of_nat (index m) + offset)%Z
      with (Z.of_nat (length (outPrefix ++ g))) by (rewrite length_app; lia).
    replace (Z.of_nat (length (outPrefix ++ g)) + Z.of_nat (length (whole m)))%Z
      with (Z.of_nat (length ((outPrefix ++ g) ++ whole m)))
      by (rewrite !length_app; lia).
    assert (Hn : newCode = ((outPrefix ++ g) ++ whole m) ++ post).
    { rewrite Hnew, Hsplit, <- !app_assoc. reflexivity. }
    rewrite slice_take, sliceFrom_drop.
    + rewrite Hn at 2. rewrite drop_app_length.
      rewrite Hn, take_app3_length, <- app_assoc. reflexivity.
    + rewrite Hn, !length_app. lia.
    + rewrite Hn, !length_app. lia.
  - rewrite !length_app. lia.
Qed.

End ScanFacts.

(** ** The loop of [rewriteImports] *)

Module LoopFacts.

Lemma rewriteOne_Ok (h : Host)
    (rw : jsstring -> jsstring -> jsstring -> bool -> M jsstring)
    (baseDir cacheDir : jsstring) (vibeDebug : bool) (m : RegExpMatch)
    (acc acc' : jsstring * Z) (st st' : State) :
  rewriteOne h rw baseDir cacheDir vibeDebug m acc st = (st', Ok acc') ->
  exists st1 r,
    resolveSpecifier h (group1 m) baseDir vibeDebug st = (st1, Ok r) /\
    ((found r = false /\ finalImportPath r = [] /\ acc' = acc /\ st' = st1)
     \/
     ((found r = true \/ finalImportPath r <> []) /\
      exists target,
        materialize h rw r cacheDir vibeDebug st1 = (st', Ok target) /\
        acc' = splice m target acc)).
Proof.
  unfold rewriteOne. intros H.
  apply NodeFacts.bind_Ok in H as [st1 [r [Hres H]]].
  exists st1, r. split; [exact Hres|].
  destruct (found r) eqn:Ef; cbn [negb andb] in H.
  - right. split; [left; reflexivity|].
    apply NodeFacts.bind_Ok in H as [st2 [target [Hm H]]].
    injection H as H1 H2. subst st' acc'. exists target.
    split; [exact Hm | reflexivity].
  - destruct (JS.eqb (finalImportPath r) []) eqn:Ee.
    + left. apply JSFacts.eqb_eq in Ee. injection H as H1 H2. subst st' acc'.
      repeat split. exact Ee.
    + right. apply JSFacts.eqb_neq in Ee. split; [right; exact Ee|].
      apply NodeFacts.bind_Ok in H as [st2 [target [Hm H]]].
      injection H as H1 H2. subst st' acc'. exists target.
    split; [exact Hm | reflexivity].
Qed.

Lemma gap_split (code : jsstring) (pos : nat) (m : RegExpMatch) (post : jsstring) :
  (pos <= index m)%nat ->
  (index m + length (whole m) <= length code)%nat ->
  drop (index m) code = whole m ++ post ->
  let g := take (index m - pos) (drop pos code) in
  length g = (index m - pos)%nat /\
  drop pos code = g ++ whole m ++ post /\
  post = drop (index m + length (whole m)) code.
Proof.
  intros Hpos Hend Hdrop g. split; [|split].
  - unfold g. rewrite length_take, length_drop. lia.
  - rewrite <- Hdrop. unfold g.
    rewrite <- (take_drop (index m - pos) (drop pos code)) at 1.
    f_equal. rewrite drop_drop. f_equal. lia.
  - rewrite <- drop_drop, Hdrop. symmetry. apply drop_app_length.
Qed.

(** The loop, seen from the original code: what it returns is the text
    produced so far, then the untouched text with every remaining clause
    either kept or replaced. *)
Lemma rewriteLoop_pieces (h : Host)
    (rw : jsstring -> jsstring -> jsstring -> bool -> M jsstring)
    (baseDir cacheDir : jsstring) (vibeDebug : bool) (code : jsstring)
    (ms : list RegExpMatch) :
  forall (pos : nat) (newCode outPrefix : jsstring) (offset : Z)
         (st st' : State) (out : jsstring) (offset' : Z),
    placed code pos ms ->
    newCode = outPrefix ++ drop pos code ->
    Z.of_nat (length outPrefix) = (Z.of_nat pos + offset)%Z ->
    rewriteLoop h rw baseDir cacheDir vibeDebug ms (newCode, offset) st
    = (st', Ok (out, offset')) ->
    exists lead ps,
      map clause ps = ms /\
      drop pos code = lead ++ originalText ps /\
      out = outPrefix ++ lead ++ rewrittenText ps /\
      Forall (renderedBy h rw baseDir cacheDir vibeDebug) ps.
Proof.
  induction ms as [|m rest IH];
    intros pos newCode outPrefix offset st st' out offset' Hplaced Hnew Hlen Hrun.
  - injection Hrun as _ <- _. exists (drop pos code), [].
    cbn. rewrite !app_nil_r. repeat split; [exact Hnew | constructor].
  - cbn [placed] in Hplaced. destruct Hplaced as [Hpos [Hend [[post Hdrop] Hrest]]].
    cbn [rewriteLoop] in Hrun.
    apply NodeFacts.bind_Ok in Hrun as [st1 [acc1 [Hone Hrun]]].
    destruct (gap_split code pos m post Hpos Hend Hdrop) as [Hg [Hsplit Hpost]].
    set (g := take (index m - pos) (drop pos code)) in *.
    apply rewriteOne_Ok in Hone as [st0 [r [Hres Hcase]]].
    destruct Hcase as [[Hf [He [-> ->]]] | [Hf [target [Hmat ->]]]].
    + destruct (IH (index m + length (whole m))%nat newCode
                   (outPrefix ++ g ++ whole m) offset st0 st' out offset')
        as [lead' [ps' [Hmap [Hd [Hout HF]]]]].
      * exact Hrest.
      * rewrite Hnew, Hsplit, Hpost, <- !app_assoc. reflexivity.
      * rewrite !length_app. lia.
      * exact Hrun.
      * exists g, (MkPiece m (whole m) lead' :: ps').
        split; [cbn; rewrite Hmap; reflexivity|].
        split; [|split].
        -- rewrite Hsplit, Hpost, Hd. cbn. rewrite <- !app_assoc. reflexivity.
        -- rewrite Hout. cbn. rewrite <- !app_assoc. reflexivity.
        -- constructor; [|exact HF].
           exists st, st0, r. split; [exact Hres|]. left. repeat split; assumption.
    + destruct (ScanFacts.splice_placed code pos m target newCode outPrefix post
                  offset Hnew Hlen Hpos Hend Hdrop) as [off1 [Hsp [Hlen1 _]]].
      fold g in Hsp, Hlen1. rewrite Hsp in Hrun.
      destruct (IH (index m + length (whole m))%nat
                   (outPrefix ++ g ++ fromClause target ++ post)
                   (outPrefix ++ g ++ fromClause target) off1 st1 st' out offset')
        as [lead' [ps' [Hmap [Hd [Hout HF]]]]].
      * exact Hrest.
      * rewrite Hpost, <- !app_assoc. reflexivity.
      * exact Hlen1.
      * exact Hrun.
      * exists g, (MkPiece m (fromClause target) lead' :: ps').
        split; [cbn; rewrite Hmap; reflexivity|].
        split; [|split].
        -- rewrite Hsplit, Hpost, Hd. cbn. rewrite <- !app_assoc. reflexivity.
        -- rewrite Hout. cbn. rewrite <- !app_assoc. reflexivity.
        -- constructor; [|exact HF].
           exists st, st0, r. split; [exact Hres|]. right. split; [exact Hf|].
           exists st1, target. split; [exact Hmat | reflexivity].
Qed.

(** A finished run of [rewriteImports], seen from the original code. *)
Lemma rewriteImports_pieces (h : Host) (fuel : nat)
    (code baseDir cacheDir : jsstring) (vibeDebug : bool)
    (st st' : State) (out : jsstring) :
  rewriteImports h fuel code baseDir cacheDir vibeDebug st = (st', Ok out) ->
  exists fuel' lead ps,
    fuel = S fuel' /\
    map clause ps = matchAll code /\
    code = lead ++ originalText ps /\
    out = lead ++ rewrittenText ps /\
    Forall (renderedBy h (rewriteImports h fuel') baseDir cacheDir vibeDebug) ps.
Proof.
  destruct fuel as [|fuel']; [discriminate|].
  cbn [rewriteImports]. intros H.
  apply NodeFacts.bind_Ok in H as [st1 [[out1 off1] [Hloop H]]].
  cbn [fst] in H. injection H as H1 H2. subst st' out.
  destruct (rewriteLoop_pieces h (rewriteImports h fuel') baseDir cacheDir vibeDebug
              code (matchAll code) 0%nat code [] 0%Z st st1 out1 off1)
    as [lead [ps [Hmap [Hd [Hout HF]]]]].
  - apply ScanFacts.matchAll_placed.
  - rewrite drop_0. reflexivity.
  - reflexivity.
  - exact Hloop.
  - exists fuel', lead, ps. rewrite drop_0 in Hd. cbn [app] in Hout.
    repeat split; assumption.
Qed.

End LoopFacts.

(** ** What changes and what does not *)

(** C8, as the code has it: the output differs from the input only in the
    matched from-clauses. The code is a lead text followed by clauses,
    each with the text up to the next one; the output has the same lead
    and the same texts in between, and in place of each clause either the
    clause itself or [from '<target>'] (the word, one space and the
    target in single quotes, whatever whitespace and quotes the clause
    had). Replacements of any lengths leave later text where it belongs. *)
Theorem rewriteImports_frame (h : Host) (fuel : nat)
    (code baseDir cacheDir : jsstring) (vibeDebug : bool)
    (st st' : State) (out : jsstring) :
  rewriteImports h fuel code baseDir cacheDir vibeDebug st = (st', Ok out) ->
  exists lead ps,
    map clause ps = matchAll code /\
    code = lead ++ originalText ps /\
    out = lead ++ rewrittenText ps /\
    Forall (fun p => rendered p = whole (clause p)
                     \/ exists target, rendered p = fromClause target) ps.
Proof.
  intros H.
  destruct (LoopFacts.rewriteImports_pieces _ _ _ _ _ _ _ _ _ H)
    as [fuel' [lead [ps [_ [Hmap [Hcode [Hout HF]]]]]]].
  exists lead, ps. repeat split; try assumption.
  eapply Forall_impl; [exact HF|].
  intros p [sa [sb [r [_ [[_ [_ Hr]] | [_ [sc [target [_ Hr]]]]]]]]].
  - left. exact Hr.
  - right. exists target. exact Hr.
Qed.

Lemma rewriteImports_frame_witness :
  exists lead ps,
    map clause ps = matchAll Demo.packagesCode /\
    Demo.packagesCode = lead ++ originalText ps /\
    js "import React " ++ fromClause (dataUrl reactGlueCode)
      ++ js ";" ++ 10 :: js "import _ "
      ++ fromClause (js "file:///app/node_modules/lodash/lodash.js")
      ++ js ";" ++ [10]
    = lead ++ rewrittenText ps /\
    Forall (fun p => rendered p = whole (clause p)
                     \/ exists target, rendered p = fromClause target) ps.
Proof.
  apply (rewriteImports_frame (Demo.host Demo.lodashTable) 1 Demo.packagesCode
           (js "/app") (js "/app/.float/.cache") false
           (Demo.initialState Demo.packagesOnly)
           (fst (rewriteImports (Demo.host Demo.lodashTable) 1 Demo.packagesCode
                   (js "/app") (js "/app/.float/.cache") false
                   (Demo.initialState Demo.packagesOnly)))).
  vm_compute. reflexivity.
Defined.

Module FrameFacts.

(** Under the token-only reading, code and output are equal or share
    everything up to a quote of the code. *)
Lemma onlyPathTokensDiffer_prefix (code out : jsstring) :
  onlyPathTokensDiffer code out ->
  code = out \/
  exists lead q rest rest',
    isQuote q = true /\ code = lead ++ q :: rest /\ out = lead ++ rest'.
Proof.
  intros [lead [tokens [Hc [Ho HF]]]].
  destruct tokens as [|t ts].
  - left. cbn in Hc, Ho. congruence.
  - right. apply Forall_cons in HF as [[Ht _] _].
    destruct t as [[old new] between]. cbn in Hc, Ho, Ht.
    destruct Ht as [q [q' [body [Hq [_ Ht]]]]]. rewrite Ht in Hc.
    exists lead, q. eexists. eexists.
    split; [exact Hq|]. split; [|exact Ho].
    rewrite Hc. rewrite <- app_assoc. cbn [app]. reflexivity.
Qed.

End FrameFacts.

(** C8 fails as stated: a clause with two spaces before its token is
    rewritten with one, so the output differs from the input in a code
    unit that no quoted path token contains. *)
Lemma rewriteImports_changes_whitespace :
  let r := rewriteImports (Demo.host []) 1 Demo.spacedCode (js "/app")
             (js "/app/.float/.cache") false (Demo.initialState Demo.project) in
  snd r = Ok (fromClause (dataUrl reactGlueCode)) /\
  ~ onlyPathTokensDiffer Demo.spacedCode (fromClause (dataUrl reactGlueCode)).
Proof.
  cbv zeta. split; [vm_compute; reflexivity|].
  intros H. apply FrameFacts.onlyPathTokensDiffer_prefix in H.
  change Demo.spacedCode
    with [102; 114; 111; 109; 32; 32; 39; 114; 101; 97; 99; 116; 39] in H.
  change (fromClause (dataUrl reactGlueCode))
    with (102 :: 114 :: 111 :: 109 :: 32 :: 39 :: (dataUrl reactGlueCode ++ js "'")) in H.
  destruct H as [H | [lead [q [rest [rest' [Hq [Hc Ho]]]]]]]; [discriminate|].
  do 6 (destruct lead as [|? lead];
        [ cbn [app] in Hc; injection Hc as Hc _; subst q; discriminate
        | cbn [app] in Hc, Ho; injection Hc as ? Hc; injection Ho as ? Ho;
          try congruence ]).
Qed.

(** ** The shim and the native-platform branch *)

Module ShimFacts.

Lemma react_cases (importPath : jsstring) :
  isReactSpecifier importPath = true ->
  importPath = [114; 101; 97; 99; 116]
  \/ exists rest, importPath = 114 :: 101 :: 97 :: 99 :: 116 :: 47 :: rest.
Proof.
  unfold isReactSpecifier. rewrite orb_true_iff, JSFacts.eqb_eq, JSFacts.startsWith_app.
  intros [H | [rest H]]; [left; exact H | right; exists rest; exact H].
Qed.

(** A UI-runtime specifier is answered by the first branch, whatever the
    store holds; the later steps leave a found specifier alone. *)
Lemma resolveSpecifier_react (h : Host) (importPath baseDir : jsstring)
    (vibeDebug : bool) (st : State) :
  isReactSpecifier importPath = true ->
  resolveSpecifier h importPath baseDir vibeDebug st
  = (st, Ok (MkResolution (dataUrl reactGlueCode) true [])).
Proof.
  intros H. apply react_cases in H. destruct H as [-> | [rest ->]];
    unfold resolveSpecifier, classify; ProbeFacts.eval_js; reflexivity.
Qed.

Lemma dataUrl_not_empty : JS.eqb (dataUrl reactGlueCode) [] = false.
Proof. reflexivity. Qed.

Lemma materialize_final (h : Host)
    (rw : jsstring -> jsstring -> jsstring -> bool -> M jsstring)
    (r : Resolution) (cacheDir : jsstring) (vibeDebug : bool) (st : State) :
  JS.eqb (finalImportPath r) [] = false ->
  materialize h rw r cacheDir vibeDebug st = (st, Ok (finalImportPath r)).
Proof. intros H. unfold materialize. rewrite H. reflexivity. Qed.

(** The branch for [react-native]: the polyfill as the resolver gives
    it, or its bare name. *)
Lemma resolveSpecifier_reactNative (h : Host) (baseDir : jsstring)
    (vibeDebug : bool) (st : State) :
  resolveSpecifier h (js "react-native") baseDir vibeDebug st
  = (st, Ok (MkResolution [] true
               match requireResolve h (files st) (Path.join [baseDir; js "noop.js"])
                                    (js "react-native-web") with
               | inr polyfill => polyfill
               | inl _ => js "react-native-web"
               end)).
Proof.
  unfold resolveSpecifier, classify, resolveFrom, tryCatch, bind, get, liftResult,
    ret, throw.
  change (JS.eqb (js "react-native") (js "react")) with false.
  change (startsWith (js "react-native") (js "react/")) with false.
  change (JS.eqb (js "react-native") (js "react-dom")) with false.
  change (startsWith (js "react-native") (js "react-dom/")) with false.
  change (JS.eqb (js "react-native") (js "react-native")) with true.
  change (startsWith (js "react-native") (js "@float-v/")) with false.
  cbn [orb andb].
  destruct (requireResolve h (files st) (Path.join [baseDir; js "noop.js"])
                           (js "react-native-web")); reflexivity.
Qed.

End ShimFacts.



(** C6, as the code has it: a clause on [react-native] is always
    replaced. When the polyfill resolves, the target is the file URL of
    the resolved path, or of the cached transform when that path is a
    typed or markup source. When it does not resolve, the target is the
    file URL that the bare name [react-native-web] converts to; the clause
    is not left as it was. *)
Theorem rewriteOne_react_native (h : Host)
    (rw : jsstring -> jsstring -> jsstring -> bool -> M jsstring)
    (baseDir cacheDir : jsstring) (vibeDebug : bool) (m : RegExpMatch)
    (acc : jsstring * Z) (st : State) :
  group1 m = js "react-native" ->
  match requireResolve h (files st) (Path.join [baseDir; js "noop.js"])
                       (js "react-native-web") with
  | inr polyfill =>
      (isSourceExt (Path.extname polyfill) = false ->
       rewriteOne h rw baseDir cacheDir vibeDebug m acc st
       = (st, Ok (splice m (pathToFileURL h polyfill) acc)))
      /\
      (isSourceExt (Path.extname polyfill) = true ->
       forall st' acc',
         rewriteOne h rw baseDir cacheDir vibeDebug m acc st = (st', Ok acc') ->
         acc' = splice m (pathToFileURL h (cachedFileOf cacheDir polyfill)) acc)
  | inl _ =>
      rewriteOne h rw baseDir cacheDir vibeDebug m acc st
      = (st, Ok (splice m (pathToFileURL h (js "react-native-web")) acc))
  end.
Proof.
  intros Hm. unfold rewriteOne. rewrite Hm.
  rewrite (NodeFacts.bind_eq _ _ _ _ _
             (ShimFacts.resolveSpecifier_reactNative h baseDir vibeDebug st)).
  cbn [found finalImportPath resolvedPath negb andb].
  destruct (requireResolve h (files st) (Path.join [baseDir; js "noop.js"])
                           (js "react-native-web")) as [e|polyfill].
  - reflexivity.
  - unfold materialize. cbn [finalImportPath resolvedPath JS.eqb]. split.
    + intros ->. reflexivity.
    + intros -> st' acc' H.
      apply NodeFacts.bind_Ok in H as [s1 [target [H1 H2]]].
      apply NodeFacts.bind_Ok in H1 as [s2 [stale [_ H1]]].
      apply NodeFacts.bind_Ok in H1 as [s3 [u [_ H1]]].
      injection H1 as _ <-. injection H2 as _ <-. reflexivity.
Qed.

Lemma rewriteOne_react_native_witness :
  let m := MkMatch 16 (js "from 'react-native'") (js "react-native") in
  let st := Demo.initialState Demo.project in
  rewriteOne (Demo.host []) (rewriteImports (Demo.host []) 0) (js "/app")
             (js "/app/.float/.cache") false m (Demo.nativeCode, 0%Z) st
  = (st, Ok (splice m (js "file:///app/react-native-web") (Demo.nativeCode, 0%Z))).
Proof.
  cbv zeta.
  exact (rewriteOne_react_native (Demo.host []) (rewriteImports (Demo.host []) 0)
           (js "/app") (js "/app/.float/.cache") false
           (MkMatch 16 (js "from 'react-native'") (js "react-native"))
           (Demo.nativeCode, 0%Z) (Demo.initialState Demo.project) eq_refl).
Defined.

(** C6 fails as stated: without the polyfill the specifier is not passed
    through; the clause comes out on a file URL under the working
    directory. *)
Lemma react_native_not_passed_through :
  let h := Demo.host [] in
  let st := Demo.initialState Demo.project in
  (exists e, requireResolve h (files st) (Path.join [js "/app"; js "noop.js"])
                            (js "react-native-web") = inl e) /\
  snd (rewriteImports h 1 Demo.nativeCode (js "/app") (js "/app/.float/.cache")
                      false st)
  = Ok (js "import { View } from 'file:///app/react-native-web';") /\
  js "import { View } from 'file:///app/react-native-web';" <> Demo.nativeCode.
Proof.
  cbv zeta. split; [eexists; reflexivity|].
  split; [vm_compute; reflexivity | vm_compute; discriminate].
Qed.

(** ** The dependency cache *)

Module CacheFacts.

Lemma writeFileSync_Ok (h : Host) (p data : jsstring) (st st' : State) :
  writeFileSync h p data st = (st', Ok tt) ->
  st' = setFiles (<[p := File data (clock h (ticks st))]> (files st))
                 (setTicks (S (ticks st)) st).
Proof.
  unfold writeFileSync, bind, get, throw, readClock, modify.
  destruct (files st !! p) as [[c t|t]|];
    destruct (files st !! Path.dirname p) as [[c' t'|t']|];
    cbn; intros H; try discriminate; injection H as <-; reflexivity.
Qed.

(** The test of line 287 decides exactly whether the cached file is
    present and at least as recent as the source. *)
Lemma cacheIsStale_valid (cachedFile resolved : jsstring) (st : State) :
  cacheIsStale cachedFile resolved st = (st, Ok false)
  <-> cacheValid (files st) cachedFile resolved.
Proof.
  unfold cacheIsStale, cacheValid, bind, existsSync, statMtimeMs, ret.
  destruct (files st !! cachedFile) as [c|] eqn:Ec.
  - rewrite bool_decide_eq_true_2 by (eexists; reflexivity). cbn [negb].
    destruct (files st !! resolved) as [s|] eqn:Es; cbn; rewrite ?Ec; cbn.
    + split.
      * intros H. injection H as H. apply Z.ltb_ge in H.
        exists c, s. repeat split. exact H.
      * intros [c' [s' [[= <-] [[= <-] H]]]]. apply Z.ltb_ge in H.
        rewrite H. reflexivity.
    + split; [discriminate|]. intros [c' [s' [_ [H _]]]]. discriminate.
  - rewrite bool_decide_eq_false_2 by (intros [x Hx]; discriminate). cbn.
    split; [discriminate|]. intros [c' [s' [H _]]]. discriminate.
Qed.

Lemma cacheIsStale_total (cachedFile resolved : jsstring) (st st' : State)
    (b : bool) :
  cacheIsStale cachedFile resolved st = (st', Ok b) -> st' = st.
Proof.
  unfold cacheIsStale, bind, existsSync, statMtimeMs, ret.
  destruct (bool_decide (is_Some (files st !! cachedFile))); cbn.
  - destruct (files st !! resolved); cbn; [|discriminate].
    destruct (files st !! cachedFile) eqn:Ec; cbn; rewrite ?Ec; cbn; [|discriminate].
    intros [= <- _]. reflexivity.
  - intros [= <- _]. reflexivity.
Qed.

(** A regeneration that ends well has read the source, called the
    transformer on it, rewritten the imports of the result and written
    that to the cached file. *)
Lemma regenerate_Ok (h : Host)
    (rw : jsstring -> jsstring -> jsstring -> bool -> M jsstring)
    (cachedFile resolved fileExt cacheDir : jsstring) (vibeDebug : bool)
    (st st' : State) :
  regenerate h rw cachedFile resolved fileExt cacheDir vibeDebug st = (st', Ok tt) ->
  exists source t0 transformed s2 depCode,
    files st !! resolved = Some (File source t0) /\
    esbuildTransform h true (getLoader fileExt) source resolved = inr transformed /\
    rw transformed (Path.dirname resolved) cacheDir vibeDebug
       (addEvent (EsbuildTransform resolved) st) = (s2, Ok depCode) /\
    st' = setFiles (<[cachedFile := File depCode (clock h (ticks s2))]> (files s2))
                   (setTicks (S (ticks s2)) s2).
Proof.
  unfold regenerate, tryCatch.
  match goal with
  | |- context [match ?c st with _ => _ end] => destruct (c st) as [s [u|e|]] eqn:E
  end.
  - intros [= <-]. destruct u.
    apply NodeFacts.bind_Ok in E as [s1 [source [Hread E]]].
    apply NodeFacts.bind_Ok in E as [s1' [u [Hemit E]]].
    apply NodeFacts.bind_Ok in E as [s1'' [transformed [Hes E]]].
    apply NodeFacts.bind_Ok in E as [s2 [depCode [Hrw Hw]]].
    unfold readFileSync in Hread.
    destruct (files st !! resolved) as [[content t0|t0]|] eqn:Ef; try discriminate.
    injection Hread as <- <-.
    injection Hemit as <-.
    unfold liftResult in Hes.
    destruct (esbuildTransform h true (getLoader fileExt) content resolved)
      as [e|code] eqn:Ees; [discriminate|].
    injection Hes as <- <-.
    apply writeFileSync_Ok in Hw.
    exists content, t0, code, s2, depCode. repeat split; assumption.
  - unfold bind. destruct vibeDebug; cbn; discriminate.
  - discriminate.
Qed.

End CacheFacts.



(** ** What a rewrite can change in the store *)

Module Preservation.

Section Relation.

(** [R] relates the store before a step to the store after it; [W] is
    the set of paths that the step may write a file to. *)
Variable R : State -> State -> Prop.
Variable W : jsstring -> Prop.

Hypothesis R_refl : forall st, R st st.
Hypothesis R_trans : forall a b c, R a b -> R b c -> R a c.
Hypothesis R_event : forall st e, R st (addEvent e st).
Hypothesis R_tick : forall st n, R st (setTicks n st).
Hypothesis R_write :
  forall st p n, W p -> R st (setFiles (<[p := n]> (files st)) st).

Local Abbreviation preserves := (Props.preserves R).

Lemma preserves_ret {A} (a : A) : preserves (ret a).
Proof. intros st. apply R_refl. Qed.

Lemma preserves_throw {A} (e : Error) : preserves (@throw A e).
Proof. intros st. apply R_refl. Qed.

Lemma preserves_outOfFuel {A} : preserves (@outOfFuel A).
Proof. intros st. apply R_refl. Qed.

Lemma preserves_bind {A B} (c : M A) (k : A -> M B) :
  preserves c -> (forall a, preserves (k a)) -> preserves (bind c k).
Proof.
  intros Hc Hk st. unfold bind. specialize (Hc st).
  destruct (c st) as [st1 [a|e|]]; cbn [fst] in *; try exact Hc.
  eapply R_trans; [exact Hc | apply Hk].
Qed.

Lemma preserves_tryCatch {A} (c : M A) (handler : Error -> M A) :
  preserves c -> (forall e, preserves (handler e)) -> preserves (tryCatch c handler).
Proof.
  intros Hc Hh st. unfold tryCatch. specialize (Hc st).
  destruct (c st) as [st1 [a|e|]]; cbn [fst] in *; try exact Hc.
  eapply R_trans; [exact Hc | apply Hh].
Qed.

Lemma preserves_if {A} (b : bool) (c d : M A) :
  preserves c -> preserves d -> preserves (if b then c else d).
Proof. destruct b; trivial. Qed.

Lemma preserves_get : preserves get.
Proof. intros st. apply R_refl. Qed.

Lemma preserves_emit (e : Event) : preserves (emit e).
Proof. intros st. apply R_event. Qed.

Lemma preserves_liftResult {A} (r : Error + A) : preserves (liftResult r).
Proof. destruct r; [apply preserves_throw | apply preserves_ret]. Qed.

Lemma preserves_existsSync (p : jsstring) : preserves (existsSync p).
Proof. intros st. apply R_refl. Qed.

Lemma preserves_statMtimeMs (p : jsstring) : preserves (statMtimeMs p).
Proof. intros st. unfold statMtimeMs. destruct (files st !! p); apply R_refl. Qed.

Lemma preserves_readFileSync (p : jsstring) : preserves (readFileSync p).
Proof.
  intros st. unfold readFileSync.
  destruct (files st !! p) as [[c t|t]|]; apply R_refl.
Qed.

Lemma preserves_resolveFrom (h : Host) (dir specifier : jsstring) :
  preserves (resolveFrom h dir specifier).
Proof.
  unfold resolveFrom. apply preserves_bind; [apply preserves_get|].
  intros st. apply preserves_liftResult.
Qed.

Lemma preserves_readClock (h : Host) : preserves (readClock h).
Proof. intros st. apply R_tick. Qed.

Lemma preserves_writeFileSync (h : Host) (p data : jsstring) :
  W p -> preserves (writeFileSync h p data).
Proof.
  intros Hw. unfold writeFileSync. apply preserves_bind; [apply preserves_get|].
  intros st0.
  destruct (files st0 !! p) as [[c t|t]|]; try apply preserves_throw;
    (destruct (files st0 !! Path.dirname p) as [[c' t'|t']|];
     try apply preserves_throw;
     apply preserves_bind; [apply preserves_readClock|];
     intros t1 st; apply R_write; exact Hw).
Qed.

Create HintDb preserve.

#[local] Hint Resolve preserves_ret preserves_throw preserves_outOfFuel preserves_get
  preserves_emit preserves_liftResult preserves_existsSync preserves_statMtimeMs
  preserves_readFileSync preserves_resolveFrom preserves_readClock : preserve.

Ltac preserve_step :=
  lazymatch goal with
  | |- Props.preserves _ (bind _ _) => apply preserves_bind; [|intros ?]
  | |- Props.preserves _ (tryCatch _ _) => apply preserves_tryCatch; [|intros ?]
  | |- Props.preserves _ (if _ then _ else _) => apply preserves_if
  | |- Props.preserves _ (match _ with Some _ => _ | None => _ end) =>
      let x := fresh in
      match goal with |- Props.preserves _ (match ?o with _ => _ end) => destruct o as [x|] end
  | |- _ => solve [auto with preserve]
  end.

Lemma preserves_classify (h : Host) (importPath baseDir : jsstring)
    (vibeDebug : bool) : preserves (classify h importPath baseDir vibeDebug).
Proof. unfold classify. repeat preserve_step. Qed.

Lemma preserves_probeExtensions (exts : list jsstring)
    (strippedPath resolved : jsstring) :
  preserves (probeExtensions exts strippedPath resolved).
Proof.
  induction exts as [|ext exts IH]; cbn [probeExtensions]; [auto with preserve|].
  repeat preserve_step.
Qed.

Lemma preserves_probeRelative (h : Host) (importPath baseDir : jsstring)
    (r : Resolution) : preserves (probeRelative h importPath baseDir r).
Proof.
  unfold probeRelative. repeat preserve_step.
  apply preserves_probeExtensions.
Qed.

Lemma preserves_autoHeal (h : Host) (importPath baseDir : jsstring)
    (vibeDebug : bool) (r : Resolution) :
  preserves (autoHeal h importPath baseDir vibeDebug r).
Proof. unfold autoHeal. repeat preserve_step. Qed.

Lemma preserves_finalFallback (h : Host) (importPath baseDir : jsstring)
    (vibeDebug : bool) (r : Resolution) :
  preserves (finalFallback h importPath baseDir vibeDebug r).
Proof. unfold finalFallback. repeat preserve_step. Qed.

Lemma preserves_resolveSpecifier (h : Host) (importPath baseDir : jsstring)
    (vibeDebug : bool) :
  preserves (resolveSpecifier h importPath baseDir vibeDebug).
Proof.
  unfold resolveSpecifier.
  apply preserves_bind; [apply preserves_classify|]. intros r0.
  apply preserves_bind; [apply preserves_probeRelative|]. intros r1.
  apply preserves_bind; [apply preserves_autoHeal|]. intros r2.
  apply preserves_finalFallback.
Qed.

Lemma preserves_cacheIsStale (cachedFile resolved : jsstring) :
  preserves (cacheIsStale cachedFile resolved).
Proof. unfold cacheIsStale. repeat preserve_step. Qed.

Section Loop.

Variable h : Host.
Variable rw : jsstring -> jsstring -> jsstring -> bool -> M jsstring.
Variable cacheDir : jsstring.

Hypothesis rw_preserves :
  forall code baseDir vibeDebug, preserves (rw code baseDir cacheDir vibeDebug).
Hypothesis cache_writable : forall resolved, W (cachedFileOf cacheDir resolved).

Lemma preserves_regenerate (resolved fileExt : jsstring) (vibeDebug : bool) :
  preserves (regenerate h rw (cachedFileOf cacheDir resolved) resolved fileExt
                        cacheDir vibeDebug).
Proof.
  unfold regenerate. repeat preserve_step.
  apply preserves_writeFileSync. apply cache_writable.
Qed.

Lemma preserves_materialize (r : Resolution) (vibeDebug : bool) :
  preserves (materialize h rw r cacheDir vibeDebug).
Proof.
  unfold materialize. repeat preserve_step;
    first [apply preserves_cacheIsStale | apply preserves_regenerate].
Qed.

Lemma preserves_rewriteOne (baseDir : jsstring) (vibeDebug : bool)
    (m : RegExpMatch) (acc : jsstring * Z) :
  preserves (rewriteOne h rw baseDir cacheDir vibeDebug m acc).
Proof.
  unfold rewriteOne.
  apply preserves_bind; [apply preserves_resolveSpecifier|]. intros r.
  apply preserves_if; [auto with preserve|].
  apply preserves_bind; [apply preserves_materialize|]. intros target.
  auto with preserve.
Qed.

Lemma preserves_rewriteLoop (baseDir : jsstring) (vibeDebug : bool)
    (ms : list RegExpMatch) (acc : jsstring * Z) :
  preserves (rewriteLoop h rw baseDir cacheDir vibeDebug ms acc).
Proof.
  revert acc. induction ms as [|m rest IH]; intros acc; cbn [rewriteLoop].
  - auto with preserve.
  - apply preserves_bind; [apply preserves_rewriteOne|]. intros acc'. apply IH.
Qed.

End Loop.

Lemma preserves_rewriteImports (h : Host) (cacheDir : jsstring) :
  (forall resolved, W (cachedFileOf cacheDir resolved)) ->
  forall fuel code baseDir vibeDebug,
    preserves (rewriteImports h fuel code baseDir cacheDir vibeDebug).
Proof.
  intros Hw. induction fuel as [|fuel IH]; intros code baseDir vibeDebug;
    cbn [rewriteImports]; [auto with preserve|].
  apply preserves_bind; [|intros out; auto with preserve].
  apply preserves_rewriteLoop; [|exact Hw].
  intros code' baseDir' vibeDebug'. apply IH.
Qed.

End Relation.

End Preservation.

(** ** The module cache *)

Module ModuleCacheFacts.

Lemma same_refl (st : State) : sameModuleCache st st.
Proof. reflexivity. Qed.

Lemma same_trans (a b c : State) :
  sameModuleCache a b -> sameModuleCache b c -> sameModuleCache a c.
Proof. unfold sameModuleCache. congruence. Qed.

Lemma same_event (st : State) (e : Event) : sameModuleCache st (addEvent e st).
Proof. reflexivity. Qed.

Lemma same_tick (st : State) (n : nat) : sameModuleCache st (setTicks n st).
Proof. reflexivity. Qed.

Lemma same_write (st : State) (p : jsstring) (n : FsNode) :
  True -> sameModuleCache st (setFiles (<[p := n]> (files st)) st).
Proof. reflexivity. Qed.

Lemma same_bind {A B} (c : M A) (k : A -> M B) :
  preserves sameModuleCache c -> (forall a, preserves sameModuleCache (k a)) ->
  preserves sameModuleCache (bind c k).
Proof. apply (Preservation.preserves_bind sameModuleCache same_trans). Qed.

Lemma same_rewriteImports (h : Host) (fuel : nat)
    (code baseDir cacheDir : jsstring) (vibeDebug : bool) :
  preserves sameModuleCache (rewriteImports h fuel code baseDir cacheDir vibeDebug).
Proof.
  apply (Preservation.preserves_rewriteImports sameModuleCache (fun _ => True)
           same_refl same_trans same_event same_tick same_write).
  intros resolved. exact I.
Qed.

Lemma same_writeFileSync (h : Host) (p data : jsstring) :
  preserves sameModuleCache (writeFileSync h p data).
Proof.
  apply (Preservation.preserves_writeFileSync sameModuleCache (fun _ => True)
           same_refl same_trans same_tick same_write). exact I.
Qed.

Lemma same_mkdirRecursive (h : Host) (fuel : nat) (p : jsstring) :
  preserves sameModuleCache (mkdirRecursive h fuel p).
Proof.
  revert p. induction fuel as [|fuel IH]; intros p st; cbn [mkdirRecursive];
    unfold bind, get; destruct (files st !! p) as [[c t|t]|]; try reflexivity.
  cbn [fst].
  assert (H : sameModuleCache st
                (fst ((if JS.eqb (Path.dirname p) p then ret tt
                       else mkdirRecursive h fuel (Path.dirname p)) st))).
  { destruct (JS.eqb (Path.dirname p) p); [reflexivity | apply IH]. }
  destruct ((if JS.eqb (Path.dirname p) p then ret tt
             else mkdirRecursive h fuel (Path.dirname p)) st) as [s1 [u|e|]];
    cbn [fst] in *; exact H.
Qed.

Lemma same_unlinkSync (p : jsstring) : preserves sameModuleCache (unlinkSync p).
Proof.
  intros st. unfold unlinkSync, bind, get.
  destruct (files st !! p) as [[c t|t]|]; reflexivity.
Qed.

Lemma same_prepareModule (h : Host) (fuel : nat) (absolutePath : jsstring)
    (vibeDebug : bool) :
  preserves sameModuleCache (prepareModule h fuel absolutePath vibeDebug).
Proof.
  unfold prepareModule.
  apply same_bind; [apply (Preservation.preserves_readFileSync _ same_refl)|].
  intros source.
  apply same_bind; [apply (Preservation.preserves_emit _ same_event)|]. intros _.
  apply same_bind; [apply (Preservation.preserves_liftResult _ same_refl)|].
  intros result.
  apply same_bind; [apply same_mkdirRecursive|]. intros _.
  apply same_bind; [apply (Preservation.preserves_readClock _ same_tick)|].
  intros now.
  apply same_bind; [apply same_rewriteImports|]. intros code.
  apply (Preservation.preserves_ret _ same_refl).
Qed.

(** A fresh load whose import fails: the error is the import's, the
    cache is the one before the call, and, unless the debug flag keeps
    it, the temporary file is gone. *)
Lemma loadFresh_import_failure (h : Host) (fuel : nat) (absolutePath : jsstring)
    (mtime : Z) (vibeDebug : bool) (st sa sb : State)
    (tempFile code : jsstring) (e : Error) :
  prepareModule h fuel absolutePath vibeDebug st = (sa, Ok (tempFile, code)) ->
  writeFileSync h tempFile code sa = (sb, Ok tt) ->
  dynamicImport h (files sb) (pathToFileURL h tempFile) = inl e ->
  exists st',
    loadFresh h fuel absolutePath mtime vibeDebug st = (st', Throw e) /\
    moduleCache st' = moduleCache st /\
    (vibeDebug = false -> files st' = delete tempFile (files sb)).
Proof.
  intros Hprep Hwrite Himport.
  assert (Hmc : moduleCache sb = moduleCache st).
  { pose proof (same_prepareModule h fuel absolutePath vibeDebug st) as H1.
    pose proof (same_writeFileSync h tempFile code sa) as H2.
    rewrite Hprep in H1. rewrite Hwrite in H2. cbn [fst] in H1, H2.
    unfold sameModuleCache in *. congruence. }
  assert (Hfile : exists t, files sb !! tempFile = Some (File code t)).
  { apply CacheFacts.writeFileSync_Ok in Hwrite. subst sb. eexists.
    cbn. apply lookup_insert_eq. }
  destruct Hfile as [t Hfile].
  unfold loadFresh.
  rewrite (NodeFacts.bind_eq _ _ _ _ _ Hprep). cbn [fst snd].
  rewrite (NodeFacts.bind_eq _ _ _ _ _ Hwrite).
  unfold tryCatch, bind, emit, modify, get, liftResult.
  cbn [files addEvent]. rewrite Himport.
  destruct vibeDebug; cbn.
  - eexists. split; [reflexivity|]. split; [exact Hmc | discriminate].
  - unfold unlinkSync, bind, get. cbn. rewrite Hfile. cbn.
    eexists. split; [reflexivity|]. split; [exact Hmc | reflexivity].
Qed.

(** A fresh load that ends well has recorded the module under the path,
    with the modification time read before the load. *)
Lemma loadFresh_Ok (h : Host) (fuel : nat) (absolutePath : jsstring)
    (mtime : Z) (vibeDebug : bool) (st st' : State) (m : ModuleHandle) :
  loadFresh h fuel absolutePath mtime vibeDebug st = (st', Ok m) ->
  moduleCache st' !! absolutePath = Some (MkEntry m mtime).
Proof.
  unfold loadFresh. intros H.
  apply NodeFacts.bind_Ok in H as [sa [prepared [_ H]]].
  apply NodeFacts.bind_Ok in H as [sb [u [_ H]]].
  unfold tryCatch, bind, emit, modify, get, liftResult in H.
  cbn [files addEvent] in H.
  destruct (dynamicImport h (files sb) (pathToFileURL h (fst prepared)))
    as [e|module]; cbn in H.
  - destruct vibeDebug; cbn in H.
    + discriminate.
    + destruct (files sb !! fst prepared) as [[c t|t]|]; cbn in H; discriminate.
  - destruct vibeDebug; cbn in H; injection H as <- <-; cbn;
      apply lookup_insert_eq.
Qed.

End ModuleCacheFacts.

(** C10: when [transformFile] gets as far as the dynamic import (the file
    exists, the cache has no entry with its modification time, the code
    was prepared and written) and the import fails, the call throws the
    error of the import itself, the module cache is what it was before
    the call, and the temporary file has been removed unless the debug
    flag retains it. *)
Theorem transformFile_import_failure (h : Host) (fuel : nat)
    (filePath : jsstring) (vibeDebug : bool) (st sa sb : State) (n : FsNode)
    (tempFile code : jsstring) (e : Error) :
  let absolutePath := absolutePathOf h filePath in
  files st !! absolutePath = Some n ->
  (forall cached, moduleCache st !! absolutePath = Some cached ->
                  entryMtime cached <> nodeMtime n) ->
  prepareModule h fuel absolutePath vibeDebug (announced vibeDebug absolutePath st)
  = (sa, Ok (tempFile, code)) ->
  writeFileSync h tempFile code sa = (sb, Ok tt) ->
  dynamicImport h (files sb) (pathToFileURL h tempFile) = inl e ->
  exists st',
    transformFile h fuel filePath vibeDebug st = (st', Throw e) /\
    moduleCache st' = moduleCache st /\
    (vibeDebug = false -> files st' = delete tempFile (files sb)).
Proof.
  intros absolutePath Hfile Hmiss Hprep Hwrite Himport.
  destruct (ModuleCacheFacts.loadFresh_import_failure h fuel absolutePath
              (nodeMtime n) vibeDebug _ sa sb tempFile code e Hprep Hwrite Himport)
    as [st' [Hload [Hmc Hfiles]]].
  exists st'. split; [|split; [|exact Hfiles]].
  - unfold transformFile. fold (absolutePathOf h filePath). fold absolutePath.
    assert (Hstart :
      (if vibeDebug then emit (ConsoleTransforming absolutePath) else ret tt) st
      = (announced vibeDebug absolutePath st, Ok tt)).
    { unfold announced. destruct vibeDebug; reflexivity. }
    rewrite (NodeFacts.bind_eq _ _ _ _ _ Hstart).
    assert (Hf0 : files (announced vibeDebug absolutePath st) !! absolutePath = Some n).
    { unfold announced. destruct vibeDebug; exact Hfile. }
    assert (Hc0 : moduleCache (announced vibeDebug absolutePath st)
                  = moduleCache st).
    { unfold announced. destruct vibeDebug; reflexivity. }
    unfold bind at 1, existsSync. rewrite Hf0.
    rewrite bool_decide_eq_true_2 by (eexists; reflexivity). cbn [negb].
    unfold bind at 1, statMtimeMs. rewrite Hf0.
    unfold bind at 1, get. rewrite Hc0.
    destruct (moduleCache st !! absolutePath) as [cached|] eqn:Ec; [|exact Hload].
    destruct (Z.eqb_spec (entryMtime cached) (nodeMtime n)) as [Heq|Hne];
      [|exact Hload].
    exfalso. exact (Hmiss cached eq_refl Heq).
  - rewrite Hmc. unfold announced. destruct vibeDebug; reflexivity.
Qed.

Lemma transformFile_import_failure_witness :
  let st := Demo.initialState Demo.packagesOnly in
  exists st',
    transformFile Demo.brokenLoaderHost 1 (js "/app/main.js") false st
    = (st', Throw (MkError (js "SyntaxError: Unexpected token"))) /\
    moduleCache st' = moduleCache st.
Proof.
  cbv zeta.
  pose (h := Demo.brokenLoaderHost).
  pose (st := Demo.initialState Demo.packagesOnly).
  pose (tempFile := js "/app/.float/.cache/main_1002.mjs").
  pose (code := js "import React " ++ fromClause (dataUrl reactGlueCode)
                ++ js ";" ++ 10 :: js "import _ from 'lodash';" ++ [10]).
  pose (r1 := prepareModule h 1 (js "/app/main.js") false st).
  pose (r2 := writeFileSync h tempFile code (fst r1)).
  destruct (transformFile_import_failure h 1 (js "/app/main.js") false st
              (fst r1) (fst r2) (File Demo.packagesCode 10) tempFile code
              (MkError (js "SyntaxError: Unexpected token")))
    as [st' [H1 [H2 _]]].
  - vm_compute. reflexivity.
  - intros cached Hc. vm_compute in Hc. discriminate.
  - vm_compute. reflexivity.
  - vm_compute. reflexivity.
  - reflexivity.
  - exists st'. split; [exact H1 | exact H2].
Defined.

Module HitFacts.

(** [transformFile] on a path that exists: the cache test, and the fresh
    load on a miss. *)
Lemma transformFile_existing (h : Host) (fuel : nat) (filePath : jsstring)
    (vibeDebug : bool) (st : State) (n : FsNode) :
  let absolutePath := absolutePathOf h filePath in
  let st0 := announced vibeDebug absolutePath st in
  files st !! absolutePath = Some n ->
  transformFile h fuel filePath vibeDebug st
  = match moduleCache st !! absolutePath with
    | Some cached =>
        if (entryMtime cached =? nodeMtime n)%Z then (st0, Ok (entryModule cached))
        else loadFresh h fuel absolutePath (nodeMtime n) vibeDebug st0
    | None => loadFresh h fuel absolutePath (nodeMtime n) vibeDebug st0
    end.
Proof.
  intros absolutePath st0 Hfile.
  unfold transformFile. fold (absolutePathOf h filePath). fold absolutePath.
  assert (Hstart :
    (if vibeDebug then emit (ConsoleTransforming absolutePath) else ret tt) st
    = (st0, Ok tt)).
  { unfold st0, announced. destruct vibeDebug; reflexivity. }
  rewrite (NodeFacts.bind_eq _ _ _ _ _ Hstart).
  assert (Hf0 : files st0 !! absolutePath = Some n).
  { unfold st0, announced. destruct vibeDebug; exact Hfile. }
  assert (Hc0 : moduleCache st0 = moduleCache st).
  { unfold st0, announced. destruct vibeDebug; reflexivity. }
  unfold bind at 1, existsSync. rewrite Hf0.
  rewrite bool_decide_eq_true_2 by (eexists; reflexivity). cbn [negb].
  unfold bind at 1, statMtimeMs. rewrite Hf0.
  unfold bind at 1, get. rewrite Hc0.
  destruct (moduleCache st !! absolutePath) as [cached|]; [|reflexivity].
  destruct (entryMtime cached =? nodeMtime n)%Z; reflexivity.
Qed.

End HitFacts.



(** ** Where cache files live *)

Module PathFacts.

Lemma splitSlash_cons (s : jsstring) : exists seg segs, Path.splitSlash s = seg :: segs.
Proof.
  induction s as [|c s [seg [segs IH]]]; cbn [Path.splitSlash]; [eauto|].
  destruct (Path.isSlash c); [eauto|]. rewrite IH. eauto.
Qed.

Lemma splitSlash_noSlash (name : jsstring) :
  noSlash name -> Path.splitSlash name = [name].
Proof.
  induction 1 as [|c name Hc _ IH]; [reflexivity|].
  cbn [Path.splitSlash]. rewrite Hc, IH. reflexivity.
Qed.

Lemma splitSlash_snoc (x name : jsstring) :
  noSlash name ->
  Path.splitSlash (x ++ Path.slash :: name) = Path.splitSlash x ++ [name].
Proof.
  intros Hn. induction x as [|c x IH]; cbn [app Path.splitSlash].
  - change (Path.isSlash Path.slash) with true. cbn match.
    rewrite (splitSlash_noSlash name Hn). reflexivity.
  - destruct (Path.isSlash c).
    + rewrite IH. reflexivity.
    + rewrite IH. destruct (splitSlash_cons x) as [seg [segs ->]]. reflexivity.
Qed.

Lemma joinSlash_snoc (l : list jsstring) (name : jsstring) :
  exists pre, opening pre /\ Path.joinSlash (l ++ [name]) = pre ++ name.
Proof.
  induction l as [|a l [pre [Hpre IH]]].
  - exists []. split; [left; reflexivity | reflexivity].
  - exists (a ++ Path.slash :: pre). split.
    + right. destruct Hpre as [-> | [x ->]].
      * exists a. reflexivity.
      * exists (a ++ Path.slash :: x). rewrite <- app_assoc. reflexivity.
    + cbn [app Path.joinSlash]. destruct (l ++ [name]) as [|b rest] eqn:E.
      * destruct l; discriminate.
      * rewrite IH, <- app_assoc. reflexivity.
Qed.

Lemma opening_split (pre name : jsstring) :
  opening pre -> noSlash name ->
  exists segs, Path.splitSlash (pre ++ name) = segs ++ [name].
Proof.
  intros [-> | [x ->]] Hn.
  - exists []. apply splitSlash_noSlash. exact Hn.
  - exists (Path.splitSlash x). rewrite <- app_assoc. apply splitSlash_snoc. exact Hn.
Qed.

Lemma normalizeStep_proper (allow : bool) (stack : list jsstring) (name : jsstring) :
  proper name -> Path.normalizeStep allow stack name = name :: stack.
Proof.
  intros [H0 [_ [H1 H2]]]. unfold Path.normalizeStep.
  apply JSFacts.eqb_neq in H0, H1, H2. rewrite H0, H1, H2. reflexivity.
Qed.

Lemma normalizeString_tail (pre name : jsstring) (allow : bool) :
  opening pre -> proper name ->
  exists pre', opening pre' /\ Path.normalizeString (pre ++ name) allow = pre' ++ name.
Proof.
  intros Hpre Hname. unfold Path.normalizeString.
  destruct (opening_split pre name Hpre (proj1 (proj2 Hname))) as [segs ->].
  rewrite fold_left_app. cbn [fold_left].
  rewrite (normalizeStep_proper _ _ _ Hname). cbn [rev].
  apply joinSlash_snoc.
Qed.

Lemma last_not_slash (pre name : jsstring) :
  name <> [] -> noSlash name -> Path.lastIsSlash (pre ++ name) = false.
Proof.
  intros Hne Hn. unfold Path.lastIsSlash. rewrite rev_app_distr.
  destruct (rev name) as [|c r] eqn:E.
  - apply (f_equal (@rev N)) in E. rewrite rev_involutive in E. contradiction.
  - cbn [app]. unfold noSlash in Hn. rewrite Forall_forall in Hn. apply Hn.
    apply list_elem_of_In. apply in_rev. rewrite E. left. reflexivity.
Qed.

Lemma normalize_tail (pre name : jsstring) :
  opening pre -> proper name ->
  exists pre', opening pre' /\ Path.normalize (pre ++ name) = pre' ++ name.
Proof.
  intros Hpre Hname. pose proof Hname as [Hne [Hns _]].
  unfold Path.normalize.
  destruct (pre ++ name) as [|c p] eqn:E.
  { destruct pre; [cbn in E; contradiction | discriminate]. }
  rewrite <- E. rewrite (last_not_slash pre name Hne Hns).
  destruct (normalizeString_tail pre name (negb (Path.isAbsolute (pre ++ name)))
              Hpre Hname) as [pre' [Hpre' ->]].
  destruct (pre' ++ name) as [|d q] eqn:E'.
  { destruct pre'; [cbn in E'; contradiction | discriminate]. }
  rewrite <- E'.
  destruct (Path.isAbsolute (pre ++ name)).
  - exists (Path.slash :: pre'). split; [|reflexivity].
    right. destruct Hpre' as [-> | [x ->]]; [exists [] | exists (Path.slash :: x)];
      reflexivity.
  - exists pre'. split; [exact Hpre' | reflexivity].
Qed.

Lemma join_tail (args : list jsstring) (name : jsstring) :
  proper name ->
  exists pre, opening pre /\ Path.join (args ++ [name]) = pre ++ name.
Proof.
  intros Hname. pose proof Hname as [Hne _]. unfold Path.join.
  rewrite List.filter_app. cbn [List.filter].
  assert (Hkeep : negb (JS.eqb name []) = true).
  { apply negb_true_iff, JSFacts.eqb_neq. exact Hne. }
  rewrite Hkeep.
  destruct (joinSlash_snoc (List.filter (fun a => negb (JS.eqb a [])) args) name)
    as [pre0 [Hpre0 Hjoin]].
  destruct (List.filter (fun a => negb (JS.eqb a [])) args ++ [name]) as [|q qs] eqn:E.
  { destruct (List.filter (fun a => negb (JS.eqb a [])) args); discriminate. }
  rewrite Hjoin. apply normalize_tail; assumption.
Qed.

Lemma span_all (p : N -> bool) (a b : jsstring) :
  Forall (fun c => p c = true) a ->
  (b = [] \/ exists c b', b = c :: b' /\ p c = false) ->
  span p (a ++ b) = (a, b).
Proof.
  intros Ha Hb. induction Ha as [|c a Hc _ IH]; cbn [app span].
  - destruct Hb as [-> | [c [b' [-> Hc]]]]; [reflexivity|].
    cbn [span]. rewrite Hc. reflexivity.
  - rewrite Hc, IH. reflexivity.
Qed.

Lemma lastComponent_tail (pre name : jsstring) :
  opening pre -> name <> [] -> noSlash name ->
  Path.lastComponent (pre ++ name) = name.
Proof.
  intros Hpre Hne Hns. unfold Path.lastComponent. rewrite rev_app_distr.
  assert (Hrev : Forall (fun c => Path.notSlash c = true) (rev name)).
  { unfold noSlash in Hns. rewrite Forall_forall in *. intros c Hc.
    unfold Path.notSlash. rewrite Hns; [reflexivity|].
    apply list_elem_of_In, in_rev, list_elem_of_In. exact Hc. }
  assert (Hdrop : Path.dropSlashes (rev name ++ rev pre) = rev name ++ rev pre).
  { destruct (rev name) as [|c r] eqn:E.
    - apply (f_equal (@rev N)) in E. rewrite rev_involutive in E. contradiction.
    - cbn [app Path.dropSlashes]. apply Forall_cons in Hrev as [Hc _].
      unfold Path.notSlash in Hc. apply negb_true_iff in Hc. rewrite Hc.
      reflexivity. }
  rewrite Hdrop, (span_all Path.notSlash (rev name) (rev pre) Hrev).
  - cbn [fst]. apply rev_involutive.
  - destruct Hpre as [-> | [x ->]]; [left; reflexivity|].
    right. rewrite rev_app_distr. cbn [rev app].
    exists Path.slash, (rev x). split; reflexivity.
Qed.

Lemma join_lastComponent (args : list jsstring) (name : jsstring) :
  proper name -> Path.lastComponent (Path.join (args ++ [name])) = name.
Proof.
  intros Hname. destruct (join_tail args name Hname) as [pre [Hpre ->]].
  destruct Hname as [Hne [Hns _]]. apply lastComponent_tail; assumption.
Qed.

Lemma hexDigit_noSlash (d : N) : Path.isSlash (Crypto.hexDigit d) = false.
Proof.
  unfold Path.isSlash, Crypto.hexDigit, Path.slash. apply N.eqb_neq.
  destruct (d <? 10); lia.
Qed.

Lemma Forall_flat_map {A B} (P : B -> Prop) (f : A -> list B) (l : list A) :
  (forall a, Forall P (f a)) -> Forall P (flat_map f l).
Proof.
  intros H. induction l as [|a l IH]; cbn [flat_map]; [constructor|].
  apply Forall_app. split; [apply H | exact IH].
Qed.

Lemma sha256Hex_noSlash (s : jsstring) : noSlash (Crypto.sha256Hex s).
Proof.
  unfold noSlash, Crypto.sha256Hex. apply Forall_flat_map. intros w.
  unfold Crypto.hexWord. apply Forall_flat_map. intros b.
  repeat constructor; apply hexDigit_noSlash.
Qed.

Lemma slice_Forall (P : N -> Prop) (s : jsstring) (a b : Z) :
  Forall P s -> Forall P (slice s a b).
Proof. intros H. unfold slice. apply Forall_take, Forall_drop, H. Qed.

(** The name of a cache file is one path segment. *)
Lemma cacheName_proper (resolved : jsstring) :
  proper (js "dep_" ++ slice (Crypto.sha256Hex resolved) 0 16 ++ js ".mjs").
Proof.
  split; [discriminate|]. split; [|split; discriminate].
  unfold noSlash. apply Forall_app. split; [repeat constructor|].
  apply Forall_app. split; [|repeat constructor].
  apply slice_Forall, sha256Hex_noSlash.
Qed.

Lemma cachedFileOf_lastComponent (cacheDir resolved : jsstring) :
  Path.lastComponent (cachedFileOf cacheDir resolved)
  = js "dep_" ++ slice (Crypto.sha256Hex resolved) 0 16 ++ js ".mjs".
Proof.
  unfold cachedFileOf.
  apply (join_lastComponent [cacheDir]). apply cacheName_proper.
Qed.

(** A path whose last component does not start with [dep_] is no cache
    file, of any cache directory. *)
Lemma not_cache_file (cacheDir p : jsstring) :
  startsWith (Path.lastComponent p) (js "dep_") = false ->
  ~ isCacheFile cacheDir p.
Proof.
  intros H [resolved ->]. rewrite cachedFileOf_lastComponent in H.
  discriminate.
Qed.

Lemma tempDir_not_cache_file (h : Host) (cacheDir : jsstring) :
  ~ isCacheFile cacheDir (tempDirOf h).
Proof.
  apply not_cache_file. unfold tempDirOf.
  change [cwd h; js ".float"; js ".cache"]
    with ([cwd h; js ".float"] ++ [js ".cache"]).
  rewrite (join_lastComponent [cwd h; js ".float"] (js ".cache")); [reflexivity|].
  split; [discriminate|]. split; [repeat constructor | split; discriminate].
Qed.

End PathFacts.

(** ** Two runs over stores that differ in cache files *)

Module Stability.

Section CacheDir.

Variable cacheDir : jsstring.

Local Abbreviation agree := (agreeStates cacheDir).
Local Abbreviation stable := (Props.stable cacheDir).

Lemma agree_refl (st : State) : agree st st.
Proof. intros p _. reflexivity. Qed.

Lemma agree_sym (a b : State) : agree a b -> agree b a.
Proof. intros H p Hp. symmetry. apply H. exact Hp. Qed.

Lemma agree_trans (a b c : State) : agree a b -> agree b c -> agree a c.
Proof. intros H1 H2 p Hp. rewrite (H1 p Hp). apply H2. exact Hp. Qed.

Lemma agree_event (st : State) (e : Event) : agree st (addEvent e st).
Proof. intros p _. reflexivity. Qed.

Lemma agree_tick (st : State) (n : nat) : agree st (setTicks n st).
Proof. intros p _. reflexivity. Qed.

Lemma agree_write (st : State) (p : jsstring) (n : FsNode) :
  isCacheFile cacheDir p -> agree st (setFiles (<[p := n]> (files st)) st).
Proof.
  intros Hp q Hq. cbn. symmetry. apply lookup_insert_ne.
  intros ->. contradiction.
Qed.

(** A rewrite writes cache files and nothing else. *)
Lemma agree_rewriteImports (h : Host) (fuel : nat) (code baseDir : jsstring)
    (vibeDebug : bool) :
  preserves agree (rewriteImports h fuel code baseDir cacheDir vibeDebug).
Proof.
  apply (Preservation.preserves_rewriteImports agree (isCacheFile cacheDir)
           agree_refl agree_trans agree_event agree_tick agree_write).
  intros resolved. exists resolved. reflexivity.
Qed.

Lemma agree_materialize (h : Host)
    (rw : jsstring -> jsstring -> jsstring -> bool -> M jsstring)
    (r : Resolution) (vibeDebug : bool) :
  (forall code baseDir vd, preserves agree (rw code baseDir cacheDir vd)) ->
  preserves agree (materialize h rw r cacheDir vibeDebug).
Proof.
  intros Hrw.
  apply (Preservation.preserves_materialize agree (isCacheFile cacheDir)
           agree_refl agree_trans agree_event agree_tick agree_write h rw cacheDir Hrw).
  intros resolved. exists resolved. reflexivity.
Qed.

Lemma stable_ret {A} (a : A) : stable (ret a).
Proof. intros sa sb H. split; [reflexivity | exact H]. Qed.

Lemma stable_emit (e : Event) : stable (emit e).
Proof. intros sa sb H. split; [reflexivity | exact H]. Qed.

Lemma stable_bind {A B} (c : M A) (k : A -> M B) :
  stable c -> (forall a, stable (k a)) -> stable (bind c k).
Proof.
  intros Hc Hk sa sb H. unfold bind. destruct (Hc sa sb H) as [Ho Hs].
  destruct (c sa) as [sa1 oa]. destruct (c sb) as [sb1 ob].
  cbn [fst snd] in Ho, Hs. subst ob.
  destruct oa as [a|e|]; [apply Hk; exact Hs | split; [reflexivity | exact Hs] ..].
Qed.

Lemma stable_tryCatch {A} (c : M A) (handler : Error -> M A) :
  stable c -> (forall e, stable (handler e)) -> stable (tryCatch c handler).
Proof.
  intros Hc Hh sa sb H. unfold tryCatch. destruct (Hc sa sb H) as [Ho Hs].
  destruct (c sa) as [sa1 oa]. destruct (c sb) as [sb1 ob].
  cbn [fst snd] in Ho, Hs. subst ob.
  destruct oa as [a|e|]; [split; [reflexivity | exact Hs] | apply Hh; exact Hs
                         | split; [reflexivity | exact Hs]].
Qed.

Lemma stable_if {A} (b : bool) (c d : M A) :
  stable c -> stable d -> stable (if b then c else d).
Proof. destruct b; trivial. Qed.

Lemma stable_existsSync (p : jsstring) :
  ~ isCacheFile cacheDir p -> stable (existsSync p).
Proof.
  intros Hp sa sb H. unfold existsSync. cbn [fst snd].
  rewrite (H p Hp). split; [reflexivity | exact H].
Qed.

Lemma stable_resolveFrom (h : Host) (dir specifier : jsstring) :
  resolverIgnoresCache h cacheDir -> stable (resolveFrom h dir specifier).
Proof.
  intros Hr sa sb H. unfold resolveFrom, bind, get, liftResult.
  rewrite (Hr (files sa) (files sb) _ specifier H).
  destruct (requireResolve h (files sb) _ specifier);
    (split; [reflexivity | exact H]).
Qed.

Create HintDb stable.

#[local] Hint Resolve stable_ret stable_emit stable_resolveFrom : stable.

Ltac stable_step :=
  lazymatch goal with
  | |- Props.stable _ (bind _ _) => apply stable_bind; [|intros ?]
  | |- Props.stable _ (tryCatch _ _) => apply stable_tryCatch; [|intros ?]
  | |- Props.stable _ (if _ then _ else _) => apply stable_if
  | |- _ => solve [auto with stable]
  end.

Lemma stable_classify (h : Host) (importPath baseDir : jsstring) (vibeDebug : bool) :
  resolverIgnoresCache h cacheDir ->
  (isFrameworkSpecifier importPath = true -> ~ isCacheFile cacheDir (frameworkBuilt h)) ->
  stable (classify h importPath baseDir vibeDebug).
Proof.
  intros Hr Hf. unfold classify.
  apply stable_bind; [repeat stable_step|]. intros _.
  apply stable_if; [auto with stable|].
  apply stable_if; [auto with stable|].
  apply stable_if; [repeat stable_step|].
  destruct (JS.eqb importPath (js "@float-v/core") || JS.eqb importPath (js "@float-v/core")
            || JS.eqb importPath (js "@float-v/lite")) eqn:E; [|auto with stable].
  apply stable_bind; [|intros ?; repeat stable_step].
  apply stable_existsSync. apply Hf. unfold isFrameworkSpecifier.
  destruct (JS.eqb importPath (js "@float-v/core")); [reflexivity | exact E].
Qed.

Lemma stable_probeExtensions (exts : list jsstring) (strippedPath resolved : jsstring) :
  Forall (fun c => ~ isCacheFile cacheDir c) (interleave exts strippedPath resolved) ->
  stable (probeExtensions exts strippedPath resolved).
Proof.
  induction exts as [|ext exts IH]; cbn [probeExtensions interleave flat_map app];
    intros HF; [auto with stable|].
  apply Forall_cons in HF as [H1 HF]. apply Forall_cons in HF as [H2 HF].
  apply stable_bind; [apply stable_existsSync; exact H1|]. intros e1.
  apply stable_if; [auto with stable|].
  apply stable_bind; [apply stable_existsSync; exact H2|]. intros e2.
  apply stable_if; [auto with stable|]. apply IH. exact HF.
Qed.

Lemma stable_probeRelative (h : Host) (importPath baseDir : jsstring) (r : Resolution) :
  (isRelativeSpecifier importPath = true ->
   Forall (fun c => ~ isCacheFile cacheDir c)
          (probeOrder (probeBase (cwd h) baseDir importPath))) ->
  stable (probeRelative h importPath baseDir r).
Proof.
  intros Hp. unfold probeRelative.
  apply stable_if; [|auto with stable].
  fold (isRelativeSpecifier importPath). fold (probeBase (cwd h) baseDir importPath).
  destruct (isRelativeSpecifier importPath) eqn:E; [|auto with stable].
  apply stable_bind.
  - apply stable_probeExtensions. rewrite <- ProbeFacts.probeOrder_interleave.
    apply Hp. reflexivity.
  - intros [p|]; auto with stable.
Qed.

Lemma stable_autoHeal (h : Host) (importPath baseDir : jsstring) (vibeDebug : bool)
    (r : Resolution) :
  resolverIgnoresCache h cacheDir ->
  stable (autoHeal h importPath baseDir vibeDebug r).
Proof. intros Hr. unfold autoHeal. repeat stable_step. Qed.

Lemma stable_finalFallback (h : Host) (importPath baseDir : jsstring)
    (vibeDebug : bool) (r : Resolution) :
  resolverIgnoresCache h cacheDir ->
  stable (finalFallback h importPath baseDir vibeDebug r).
Proof. intros Hr. unfold finalFallback. repeat stable_step. Qed.

(** The resolution of a specifier comes out the same in both stores. *)
Lemma stable_resolveSpecifier (h : Host) (importPath baseDir : jsstring)
    (vibeDebug : bool) :
  resolverIgnoresCache h cacheDir ->
  probesOutsideCache h cacheDir baseDir importPath ->
  stable (resolveSpecifier h importPath baseDir vibeDebug).
Proof.
  intros Hr [Hrel Hfw]. unfold resolveSpecifier.
  apply stable_bind; [apply stable_classify; assumption|]. intros r0.
  apply stable_bind; [apply stable_probeRelative; assumption|]. intros r1.
  apply stable_bind; [apply stable_autoHeal; assumption|]. intros r2.
  apply stable_finalFallback; assumption.
Qed.

(** Whatever [materialize] returns is determined by the resolution. *)
Lemma materialize_target (h : Host)
    (rw : jsstring -> jsstring -> jsstring -> bool -> M jsstring)
    (r : Resolution) (vibeDebug : bool) (st st' : State) (target : jsstring) :
  materialize h rw r cacheDir vibeDebug st = (st', Ok target) ->
  target = targetOf h cacheDir r.
Proof.
  unfold materialize, targetOf.
  destruct (JS.eqb (finalImportPath r) []).
  - destruct (isSourceExt (Path.extname (resolvedPath r))).
    + intros H. apply NodeFacts.bind_Ok in H as [s1 [stale [_ H]]].
      apply NodeFacts.bind_Ok in H as [s2 [u [_ H]]].
      injection H as _ <-. reflexivity.
    + intros [= _ <-]. reflexivity.
  - intros [= _ <-]. reflexivity.
Qed.

Section TwoRuns.

Variable h : Host.
Variables rwA rwB : jsstring -> jsstring -> jsstring -> bool -> M jsstring.
Variable baseDir : jsstring.
Variable vibeDebug : bool.

Hypothesis rwA_agree :
  forall code dir vd, preserves agree (rwA code dir cacheDir vd).
Hypothesis rwB_agree :
  forall code dir vd, preserves agree (rwB code dir cacheDir vd).

Lemma rewriteOne_two_runs (m : RegExpMatch) (acc a1 a2 : jsstring * Z)
    (sa sb sa' sb' : State) :
  agree sa sb ->
  stable (resolveSpecifier h (group1 m) baseDir vibeDebug) ->
  rewriteOne h rwA baseDir cacheDir vibeDebug m acc sa = (sa', Ok a1) ->
  rewriteOne h rwB baseDir cacheDir vibeDebug m acc sb = (sb', Ok a2) ->
  a1 = a2 /\ agree sa' sb'.
Proof.
  intros Hagree Hstable HA HB.
  apply LoopFacts.rewriteOne_Ok in HA as [sa1 [ra [HresA HcaseA]]].
  apply LoopFacts.rewriteOne_Ok in HB as [sb1 [rb [HresB HcaseB]]].
  destruct (Hstable sa sb Hagree) as [Ho Hs].
  rewrite HresA, HresB in Ho, Hs. cbn [fst snd] in Ho, Hs.
  injection Ho as <-.
  destruct HcaseA as [[HfA [HeA [-> ->]]] | [HfA [tA [HmA ->]]]];
    destruct HcaseB as [[HfB [HeB [-> ->]]] | [HfB [tB [HmB ->]]]].
  - split; [reflexivity | exact Hs].
  - exfalso. destruct HfB as [HfB | HfB]; congruence.
  - exfalso. destruct HfA as [HfA | HfA]; congruence.
  - rewrite (materialize_target _ _ _ _ _ _ _ HmA),
            (materialize_target _ _ _ _ _ _ _ HmB).
    split; [reflexivity|].
    pose proof (agree_materialize h rwA ra vibeDebug rwA_agree sa1) as H1.
    pose proof (agree_materialize h rwB ra vibeDebug rwB_agree sb1) as H2.
    rewrite HmA in H1. rewrite HmB in H2. cbn [fst] in H1, H2.
    eapply agree_trans; [apply agree_sym; exact H1|].
    eapply agree_trans; [exact Hs | exact H2].
Qed.

Lemma rewriteLoop_two_runs (ms : list RegExpMatch) :
  forall (acc a1 a2 : jsstring * Z) (sa sb sa' sb' : State),
    agree sa sb ->
    Forall (fun m => stable (resolveSpecifier h (group1 m) baseDir vibeDebug)) ms ->
    rewriteLoop h rwA baseDir cacheDir vibeDebug ms acc sa = (sa', Ok a1) ->
    rewriteLoop h rwB baseDir cacheDir vibeDebug ms acc sb = (sb', Ok a2) ->
    a1 = a2.
Proof.
  induction ms as [|m rest IH]; intros acc a1 a2 sa sb sa' sb' Hagree HF HA HB.
  - cbn [rewriteLoop] in HA, HB. unfold ret in HA, HB.
    injection HA as _ <-. injection HB as _ <-. reflexivity.
  - cbn [rewriteLoop] in HA, HB. apply Forall_cons in HF as [Hm HF].
    apply NodeFacts.bind_Ok in HA as [sa1 [accA [HoneA HA]]].
    apply NodeFacts.bind_Ok in HB as [sb1 [accB [HoneB HB]]].
    destruct (rewriteOne_two_runs m acc accA accB sa sb sa1 sb1 Hagree Hm HoneA HoneB)
      as [<- Hs].
    exact (IH accA a1 a2 sa1 sb1 sa' sb' Hs HF HA HB).
Qed.

End TwoRuns.

(** Two finished rewrites of the same code, from stores that agree
    outside the cache, return the same code. *)
Lemma rewriteImports_two_runs (h : Host) (fuelA fuelB : nat)
    (code baseDir : jsstring) (vibeDebug : bool)
    (sa sb sa' sb' : State) (outA outB : jsstring) :
  agree sa sb ->
  Forall (fun m => stable (resolveSpecifier h (group1 m) baseDir vibeDebug))
         (matchAll code) ->
  rewriteImports h fuelA code baseDir cacheDir vibeDebug sa = (sa', Ok outA) ->
  rewriteImports h fuelB code baseDir cacheDir vibeDebug sb = (sb', Ok outB) ->
  outA = outB.
Proof.
  intros Hagree HF HA HB.
  destruct fuelA as [|fA]; [discriminate|]. destruct fuelB as [|fB]; [discriminate|].
  cbn [rewriteImports] in HA, HB.
  apply NodeFacts.bind_Ok in HA as [sa1 [accA [HloopA HA]]].
  apply NodeFacts.bind_Ok in HB as [sb1 [accB [HloopB HB]]].
  injection HA as _ <-. injection HB as _ <-.
  f_equal.
  eapply (rewriteLoop_two_runs h (rewriteImports h fA) (rewriteImports h fB)
            baseDir vibeDebug).
  - intros c d vd. apply agree_rewriteImports.
  - intros c d vd. apply agree_rewriteImports.
  - exact Hagree.
  - exact HF.
  - exact HloopA.
  - exact HloopB.
Qed.

End CacheDir.

End Stability.

(** ** Running the pipeline twice *)

Module PipelineFacts.

Lemma mkdirRecursive_post (h : Host) (fuel : nat) (p : jsstring) (st st' : State) :
  mkdirRecursive h fuel p st = (st', Ok tt) ->
  exists t, files st' !! p = Some (Directory t).
Proof.
  destruct fuel as [|fuel]; cbn [mkdirRecursive]; unfold bind at 1, get;
    destruct (files st !! p) as [[c t|t]|] eqn:E; try discriminate.
  - intros [= <-]. eauto.
  - intros [= <-]. eauto.
  - intros H. apply NodeFacts.bind_Ok in H as [s1 [u [_ H]]].
    apply NodeFacts.bind_Ok in H as [s2 [t [_ H]]].
    injection H as <-. eexists. cbn. apply lookup_insert_eq.
Qed.

Lemma mkdirRecursive_noop (h : Host) (fuel : nat) (p : jsstring) (st : State) (t : Z) :
  files st !! p = Some (Directory t) ->
  mkdirRecursive h fuel p st = (st, Ok tt).
Proof.
  intros H. destruct fuel; cbn [mkdirRecursive]; unfold bind, get; rewrite H;
    reflexivity.
Qed.

(** What a finished [prepareModule] went through. *)
Lemma prepareModule_Ok (h : Host) (fuel : nat) (absolutePath : jsstring)
    (vibeDebug : bool) (st st' : State) (tempFile code : jsstring) :
  prepareModule h fuel absolutePath vibeDebug st = (st', Ok (tempFile, code)) ->
  exists source t transformed made out,
    files st !! absolutePath = Some (File source t) /\
    esbuildTransform h true (getLoader (Path.extname absolutePath)) source absolutePath
    = inr transformed /\
    mkdirSync h (tempDirOf h) (addEvent (EsbuildTransform absolutePath) st)
    = (made, Ok tt) /\
    rewriteImports h fuel (prependReactImport transformed) (Path.dirname absolutePath)
                   (tempDirOf h) vibeDebug (setTicks (S (ticks made)) made)
    = (st', Ok out) /\
    code = removeCssImports out.
Proof.
  unfold prepareModule. fold (tempDirOf h). intros H.
  apply NodeFacts.bind_Ok in H as [s1 [source [Hread H]]].
  apply NodeFacts.bind_Ok in H as [s2 [u [Hemit H]]].
  apply NodeFacts.bind_Ok in H as [s3 [transformed [Hes H]]].
  apply NodeFacts.bind_Ok in H as [made [u' [Hmk H]]].
  apply NodeFacts.bind_Ok in H as [s5 [now [Hnow H]]].
  apply NodeFacts.bind_Ok in H as [s6 [out [Hrw H]]].
  unfold readFileSync in Hread.
  destruct (files st !! absolutePath) as [[content t|t]|] eqn:Ef; try discriminate.
  injection Hread as <- <-. injection Hemit as <-.
  unfold liftResult in Hes.
  destruct (esbuildTransform h true (getLoader (Path.extname absolutePath)) content
              absolutePath) as [e|result] eqn:Ees; [discriminate|].
  injection Hes as <- <-. destruct u'.
  injection Hnow as <- _. injection H as <- _ <-.
  exists content, t, result, made, out. repeat split; assumption.
Qed.

End PipelineFacts.




(** * Further properties of the loader *)

(** ** Relations that do not look at the file system *)

Module BlindFacts.

Section Relation.

Variable R : State -> State -> Prop.
Variable W : jsstring -> Prop.

Hypothesis R_refl : forall st, R st st.
Hypothesis R_trans : forall a b c, R a b -> R b c -> R a c.
Hypothesis R_event : forall st e, R st (addEvent e st).
Hypothesis R_tick : forall st n, R st (setTicks n st).
Hypothesis R_write :
  forall st p n, W p -> R st (setFiles (<[p := n]> (files st)) st).
Hypothesis R_mkdir : forall h fuel p, preserves R (mkdirRecursive h fuel p).

Lemma preserves_prepareModule (h : Host) (fuel : nat) (absolutePath : jsstring)
    (vibeDebug : bool) :
  (forall resolved, W (cachedFileOf (tempDirOf h) resolved)) ->
  preserves R (prepareModule h fuel absolutePath vibeDebug).
Proof.
  intros Hw. unfold prepareModule. fold (tempDirOf h).
  apply (Preservation.preserves_bind R R_trans);
    [apply (Preservation.preserves_readFileSync R R_refl)|].
  intros source.
  apply (Preservation.preserves_bind R R_trans);
    [apply (Preservation.preserves_emit R R_event)|]. intros _.
  apply (Preservation.preserves_bind R R_trans);
    [apply (Preservation.preserves_liftResult R R_refl)|].
  intros result.
  apply (Preservation.preserves_bind R R_trans); [apply R_mkdir|]. intros _.
  apply (Preservation.preserves_bind R R_trans);
    [apply (Preservation.preserves_readClock R R_tick)|].
  intros now.
  apply (Preservation.preserves_bind R R_trans);
    [apply (Preservation.preserves_rewriteImports R W R_refl R_trans R_event R_tick
              R_write h (tempDirOf h) Hw)|].
  intros code. apply (Preservation.preserves_ret R R_refl).
Qed.

End Relation.

Section Blind.

Variable R : State -> State -> Prop.

Hypothesis R_refl : forall st, R st st.
Hypothesis R_trans : forall a b c, R a b -> R b c -> R a c.
Hypothesis R_event : forall st e, R st (addEvent e st).
Hypothesis R_tick : forall st n, R st (setTicks n st).
Hypothesis R_files : forall st f, R st (setFiles f st).

Lemma R_write (st : State) (p : jsstring) (n : FsNode) :
  True -> R st (setFiles (<[p := n]> (files st)) st).
Proof. intros _. apply R_files. Qed.

Lemma blind_rewriteImports (h : Host) (fuel : nat)
    (code baseDir cacheDir : jsstring) (vibeDebug : bool) :
  preserves R (rewriteImports h fuel code baseDir cacheDir vibeDebug).
Proof.
  apply (Preservation.preserves_rewriteImports R (fun _ => True)
           R_refl R_trans R_event R_tick R_write).
  intros resolved. exact I.
Qed.

Lemma blind_writeFileSync (h : Host) (p data : jsstring) :
  preserves R (writeFileSync h p data).
Proof.
  apply (Preservation.preserves_writeFileSync R (fun _ => True)
           R_refl R_trans R_tick R_write). exact I.
Qed.

Lemma blind_mkdirRecursive (h : Host) (fuel : nat) (p : jsstring) :
  preserves R (mkdirRecursive h fuel p).
Proof.
  revert p. induction fuel as [|fuel IH]; intros p st; cbn [mkdirRecursive];
    unfold bind at 1, get; destruct (files st !! p) as [[c t|t]|];
    try apply R_refl.
  apply (Preservation.preserves_bind R R_trans).
  - destruct (JS.eqb (Path.dirname p) p);
      [apply (Preservation.preserves_ret R R_refl) | apply IH].
  - intros _. apply (Preservation.preserves_bind R R_trans);
      [apply (Preservation.preserves_readClock R R_tick)|].
    intros t s. apply R_files.
Qed.

Lemma blind_unlinkSync (p : jsstring) : preserves R (unlinkSync p).
Proof.
  intros st. unfold unlinkSync, bind, get.
  destruct (files st !! p) as [[c t|t]|]; try apply R_refl. apply R_files.
Qed.

Lemma blind_prepareModule (h : Host) (fuel : nat) (absolutePath : jsstring)
    (vibeDebug : bool) :
  preserves R (prepareModule h fuel absolutePath vibeDebug).
Proof.
  apply (preserves_prepareModule R (fun _ => True) R_refl R_trans R_event R_tick
           R_write).
  - intros h' fuel' p. apply blind_mkdirRecursive.
  - intros resolved. exact I.
Qed.

End Blind.

Lemma trace_refl (st : State) : tracePrefix st st.
Proof. exists []. symmetry. apply app_nil_r. Qed.

Lemma trace_trans (a b c : State) :
  tracePrefix a b -> tracePrefix b c -> tracePrefix a c.
Proof.
  intros [m1 H1] [m2 H2]. exists (m1 ++ m2). rewrite H2, H1, app_assoc. reflexivity.
Qed.

Lemma trace_event (st : State) (e : Event) : tracePrefix st (addEvent e st).
Proof. exists [e]. reflexivity. Qed.

Lemma trace_tick (st : State) (n : nat) : tracePrefix st (setTicks n st).
Proof. exists []. symmetry. apply app_nil_r. Qed.

Lemma trace_files (st : State) (f : gmap (list N) FsNode) :
  tracePrefix st (setFiles f st).
Proof. exists []. symmetry. apply app_nil_r. Qed.

Lemma tracePrefix_In (st st' : State) (e : Event) :
  tracePrefix st st' -> In e (trace st) -> In e (trace st').
Proof. intros [more ->] H. apply in_or_app. left. exact H. Qed.

Lemma locks_refl (st : State) : sameLocks st st.
Proof. split; reflexivity. Qed.

Lemma locks_trans (a b c : State) : sameLocks a b -> sameLocks b c -> sameLocks a c.
Proof. unfold sameLocks. intros [H1 H2] [H3 H4]. split; congruence. Qed.

Lemma immediates_trans (a b c : State) :
  sameImmediates a b -> sameImmediates b c -> sameImmediates a c.
Proof. unfold sameImmediates. congruence. Qed.

Lemma trace_prepareModule (h : Host) (fuel : nat) (absolutePath : jsstring)
    (vibeDebug : bool) :
  preserves tracePrefix (prepareModule h fuel absolutePath vibeDebug).
Proof.
  apply (blind_prepareModule tracePrefix trace_refl trace_trans trace_event
           trace_tick trace_files).
Qed.

Lemma immediates_prepareModule (h : Host) (fuel : nat) (absolutePath : jsstring)
    (vibeDebug : bool) :
  preserves sameImmediates (prepareModule h fuel absolutePath vibeDebug).
Proof.
  apply blind_prepareModule; try reflexivity. apply immediates_trans.
Qed.

Lemma locks_prepareModule (h : Host) (fuel : nat) (absolutePath : jsstring)
    (vibeDebug : bool) :
  preserves sameLocks (prepareModule h fuel absolutePath vibeDebug).
Proof.
  apply blind_prepareModule; try (intros; split; reflexivity). apply locks_trans.
Qed.

Lemma keeps_refl (p : jsstring) (st : State) : keepsNode p st st.
Proof. intros n H. exact H. Qed.

Lemma keeps_trans (p : jsstring) (a b c : State) :
  keepsNode p a b -> keepsNode p b c -> keepsNode p a c.
Proof. intros H1 H2 n H. apply H2, H1, H. Qed.

Lemma keeps_insert (p q : jsstring) (node : FsNode) (st : State) :
  q <> p -> keepsNode p st (setFiles (<[q := node]> (files st)) st).
Proof.
  intros Hne n H. cbn. rewrite lookup_insert_ne by exact Hne. exact H.
Qed.

(** [mkdirSync] creates what is missing and replaces nothing. *)
Lemma keeps_mkdirRecursive (q : jsstring) (h : Host) (fuel : nat) (p : jsstring) :
  preserves (keepsNode q) (mkdirRecursive h fuel p).
Proof.
  revert p. induction fuel as [|fuel IH]; intros p st; cbn [mkdirRecursive];
    unfold bind at 1, get; destruct (files st !! p) as [[c t|t]|] eqn:E;
    try apply keeps_refl.
  intros n Hq.
  assert (Hne : p <> q) by congruence.
  assert (H1 : forall s1 o,
            (if JS.eqb (Path.dirname p) p then ret tt
             else mkdirRecursive h fuel (Path.dirname p)) st = (s1, o) ->
            files s1 !! q = Some n).
  { intros s1 o Hs. destruct (JS.eqb (Path.dirname p) p).
    - injection Hs as <- _. exact Hq.
    - pose proof (IH (Path.dirname p) st n Hq) as H. rewrite Hs in H. exact H. }
  unfold bind.
  destruct ((if JS.eqb (Path.dirname p) p then ret tt
             else mkdirRecursive h fuel (Path.dirname p)) st) as [s1 [[]|e|]] eqn:Es;
    cbn; try exact (H1 _ _ eq_refl).
  rewrite lookup_insert_ne by exact Hne. exact (H1 _ _ eq_refl).
Qed.

(** Preparing a module replaces no file outside the dependency cache. *)
Lemma keeps_prepareModule (q : jsstring) (h : Host) (fuel : nat)
    (absolutePath : jsstring) (vibeDebug : bool) :
  ~ isCacheFile (tempDirOf h) q ->
  preserves (keepsNode q) (prepareModule h fuel absolutePath vibeDebug).
Proof.
  intros Hq.
  apply (preserves_prepareModule (keepsNode q) (isCacheFile (tempDirOf h))
           (keeps_refl q) (keeps_trans q)).
  - intros st e n H. exact H.
  - intros st k n H. exact H.
  - intros st p n Hw. apply keeps_insert. intros ->. exact (Hq Hw).
  - apply keeps_mkdirRecursive.
  - intros resolved. exists resolved. reflexivity.
Qed.

End BlindFacts.

(** ** The entry point *)

Module LoadFacts.

(** The fresh load after the code has been prepared and written: what
    the import decides. *)
Lemma loadFresh_after (h : Host) (fuel : nat) (absolutePath : jsstring)
    (mtime : Z) (vibeDebug : bool) (st sa sb : State) (tempFile code : jsstring) :
  prepareModule h fuel absolutePath vibeDebug st = (sa, Ok (tempFile, code)) ->
  writeFileSync h tempFile code sa = (sb, Ok tt) ->
  let href := pathToFileURL h tempFile in
  let sc := addEvent (DynamicImport href) sb in
  loadFresh h fuel absolutePath mtime vibeDebug st
  = match dynamicImport h (files sb) href with
    | inr module =>
        (setImmediates (if vibeDebug then immediates sb
                        else immediates sb ++ [tempFile])
           (setModuleCache (<[absolutePath := MkEntry module mtime]> (moduleCache sb))
              sc),
         Ok module)
    | inl e =>
        ((if vibeDebug then sc else setFiles (delete tempFile (files sb)) sc),
         Throw e)
    end.
Proof.
  intros Hprep Hwrite href sc.
  assert (Hfile : exists t, files sb !! tempFile = Some (File code t)).
  { apply CacheFacts.writeFileSync_Ok in Hwrite. subst sb. eexists.
    cbn. apply lookup_insert_eq. }
  destruct Hfile as [t Hfile].
  unfold loadFresh.
  rewrite (NodeFacts.bind_eq _ _ _ _ _ Hprep). cbn [fst snd].
  rewrite (NodeFacts.bind_eq _ _ _ _ _ Hwrite).
  unfold tryCatch, bind, emit, modify, get, liftResult.
  cbn [files addEvent]. fold href.
  destruct (dynamicImport h (files sb) href) as [e|module].
  - destruct vibeDebug; cbn.
    + destruct sb; reflexivity.
    + unfold unlinkSync, bind, get. cbn. rewrite Hfile. cbn. reflexivity.
  - destruct vibeDebug; cbn; destruct sb; reflexivity.
Qed.

(** Whatever happens, a fresh load leaves the cache as it was or adds
    the one entry of its own path. *)
Lemma loadFresh_cache (h : Host) (fuel : nat) (absolutePath : jsstring)
    (mtime : Z) (vibeDebug : bool) (st : State) :
  let st' := fst (loadFresh h fuel absolutePath mtime vibeDebug st) in
  moduleCache st' = moduleCache st
  \/ exists module,
       moduleCache st' = <[absolutePath := MkEntry module mtime]> (moduleCache st).
Proof.
  cbv zeta.
  pose proof (ModuleCacheFacts.same_prepareModule h fuel absolutePath vibeDebug st)
    as Hp.
  destruct (prepareModule h fuel absolutePath vibeDebug st) as [sa [[tempFile code]|e|]]
    eqn:Eprep; cbn [fst] in Hp.
  - pose proof (ModuleCacheFacts.same_writeFileSync h tempFile code sa) as Hw.
    destruct (writeFileSync h tempFile code sa) as [sb [[]|e|]] eqn:Ewrite;
      cbn [fst] in Hw.
    + rewrite (loadFresh_after h fuel absolutePath mtime vibeDebug st sa sb
                 tempFile code Eprep Ewrite).
      unfold sameModuleCache in *.
      destruct (dynamicImport h (files sb) (pathToFileURL h tempFile)) as [e|module].
      * left. destruct vibeDebug; cbn; congruence.
      * right. exists module. cbn. congruence.
    + left. unfold loadFresh. rewrite (NodeFacts.bind_eq _ _ _ _ _ Eprep).
      cbn [fst snd]. unfold bind. rewrite Ewrite. cbn.
      unfold sameModuleCache in *. congruence.
    + left. unfold loadFresh. rewrite (NodeFacts.bind_eq _ _ _ _ _ Eprep).
      cbn [fst snd]. unfold bind. rewrite Ewrite. cbn.
      unfold sameModuleCache in *. congruence.
  - left. unfold loadFresh, bind. rewrite Eprep. exact Hp.
  - left. unfold loadFresh, bind. rewrite Eprep. exact Hp.
Qed.

Lemma removeFiles_lookup (paths : list jsstring) :
  forall (fs : gmap (list N) FsNode) (p : jsstring),
    removeFiles paths fs !! p
    = match fs !! p with
      | Some (File c t) => if bool_decide (p ∈ paths) then None else Some (File c t)
      | o => o
      end.
Proof.
  induction paths as [|q rest IH]; intros fs p; cbn [removeFiles].
  - rewrite bool_decide_eq_false_2 by (intros H; inversion H).
    destruct (fs !! p) as [[c t|t]|]; reflexivity.
  - rewrite IH. destruct (decide (q = p)) as [->|Hne].
    + rewrite (bool_decide_eq_true_2 (p ∈ p :: rest)) by constructor.
      destruct (fs !! p) as [[c t|t]|] eqn:E.
      * rewrite lookup_delete_eq. reflexivity.
      * rewrite E. reflexivity.
      * rewrite E. reflexivity.
    + assert (Hl : match fs !! q with
                   | Some (File _ _) => delete q fs
                   | _ => fs
                   end !! p = fs !! p).
      { destruct (fs !! q) as [[c t|t]|]; [apply lookup_delete_ne; exact Hne | ..];
          reflexivity. }
      rewrite Hl. destruct (fs !! p) as [[c t|t]|]; try reflexivity.
      destruct (bool_decide (p ∈ rest)) eqn:Er.
      * apply bool_decide_eq_true in Er.
        rewrite bool_decide_eq_true_2 by (constructor; exact Er). reflexivity.
      * apply bool_decide_eq_false in Er.
        rewrite bool_decide_eq_false_2; [reflexivity|].
        intros H. inversion H; subst; [congruence | contradiction].
Qed.

Lemma unlinkAll_removeFiles (paths : list jsstring) :
  forall st, unlinkAll paths st = (setFiles (removeFiles paths (files st)) st, Ok tt).
Proof.
  induction paths as [|p rest IH]; intros st; cbn [unlinkAll removeFiles].
  - destruct st; reflexivity.
  - unfold bind at 1, tryCatch, unlinkSync, bind, get, modify, throw, ret.
    destruct (files st !! p) as [[c t|t]|]; cbn; rewrite IH; cbn;
      destruct st; reflexivity.
Qed.

Lemma runImmediates_eq (st : State) :
  runImmediates st
  = (MkState (removeFiles (immediates st) (files st)) (ticks st) (moduleCache st)
       (lockedReactPath st) (lockedReactDOMPath st) [] (trace st),
     Ok tt).
Proof.
  unfold runImmediates, bind, get, modify.
  rewrite unlinkAll_removeFiles. destruct st; reflexivity.
Qed.

Lemma transformFile_missing (h : Host) (fuel : nat) (filePath : jsstring)
    (vibeDebug : bool) (st : State) :
  let absolutePath := absolutePathOf h filePath in
  files st !! absolutePath = None ->
  transformFile h fuel filePath vibeDebug st
  = (announced vibeDebug absolutePath st,
     Throw (MkError (js "File not found: " ++ absolutePath))).
Proof.
  intros absolutePath Hnone.
  unfold transformFile. fold (absolutePathOf h filePath). fold absolutePath.
  assert (Hstart :
    (if vibeDebug then emit (ConsoleTransforming absolutePath) else ret tt) st
    = (announced vibeDebug absolutePath st, Ok tt)).
  { unfold announced. destruct vibeDebug; reflexivity. }
  rewrite (NodeFacts.bind_eq _ _ _ _ _ Hstart).
  assert (Hf0 : files (announced vibeDebug absolutePath st) !! absolutePath = None).
  { unfold announced. destruct vibeDebug; exact Hnone. }
  unfold bind, existsSync. rewrite Hf0.
  rewrite bool_decide_eq_false_2 by (intros [x Hx]; discriminate).
  reflexivity.
Qed.

End LoadFacts.

(** X1: a path that names nothing makes [transformFile] throw the error
    [File not found: <absolute path>] before anything is read, transformed
    or written; only the console line of the debug flag is added. *)
Theorem transformFile_not_found (h : Host) (fuel : nat) (filePath : jsstring)
    (vibeDebug : bool) (st : State) :
  let absolutePath := absolutePathOf h filePath in
  files st !! absolutePath = None ->
  transformFile h fuel filePath vibeDebug st
  = (announced vibeDebug absolutePath st,
     Throw (MkError (js "File not found: " ++ absolutePath))).
Proof. apply LoadFacts.transformFile_missing. Qed.

Lemma transformFile_not_found_witness :
  let st := Demo.initialState Demo.project in
  transformFile (Demo.host []) 1 (js "src/missing.tsx") true st
  = (addEvent (ConsoleTransforming (js "/app/src/missing.tsx")) st,
     Throw (MkError (js "File not found: /app/src/missing.tsx"))).
Proof.
  cbv zeta.
  exact (transformFile_not_found (Demo.host []) 1 (js "src/missing.tsx") true
           (Demo.initialState Demo.project) eq_refl).
Defined.

(** X2: a call of [transformFile] that misses the cache (no entry, or an
    entry with another modification time) and whose preparation, write
    and import succeed returns the imported module. It records it under
    the absolute path with the modification time read at the start of
    the call, leaves the temporary file on disk, queues its removal
    unless the debug flag is set, and has called the transformer on the
    entry file and the loader on the temporary file. *)
Theorem transformFile_fresh_load (h : Host) (fuel : nat)
    (filePath : jsstring) (vibeDebug : bool) (st sa sb : State) (n : FsNode)
    (tempFile code : jsstring) (module : ModuleHandle) :
  let absolutePath := absolutePathOf h filePath in
  files st !! absolutePath = Some n ->
  (forall cached, moduleCache st !! absolutePath = Some cached ->
                  entryMtime cached <> nodeMtime n) ->
  prepareModule h fuel absolutePath vibeDebug (announced vibeDebug absolutePath st)
  = (sa, Ok (tempFile, code)) ->
  writeFileSync h tempFile code sa = (sb, Ok tt) ->
  dynamicImport h (files sb) (pathToFileURL h tempFile) = inr module ->
  exists st',
    transformFile h fuel filePath vibeDebug st = (st', Ok module) /\
    moduleCache st'
    = <[absolutePath := MkEntry module (nodeMtime n)]> (moduleCache st) /\
    (exists t, files st' !! tempFile = Some (File code t)) /\
    immediates st'
    = (if vibeDebug then immediates st else immediates st ++ [tempFile]) /\
    In (EsbuildTransform absolutePath) (trace st') /\
    In (DynamicImport (pathToFileURL h tempFile)) (trace st').
Proof.
  intros absolutePath Hfile Hmiss Hprep Hwrite Himport.
  set (st0 := announced vibeDebug absolutePath st) in *.
  pose proof (LoadFacts.loadFresh_after h fuel absolutePath (nodeMtime n) vibeDebug
                st0 sa sb tempFile code Hprep Hwrite) as Hload.
  cbv zeta in Hload. rewrite Himport in Hload.
  assert (Hmc : moduleCache sb = moduleCache st).
  { pose proof (ModuleCacheFacts.same_prepareModule h fuel absolutePath vibeDebug st0)
      as H1.
    pose proof (ModuleCacheFacts.same_writeFileSync h tempFile code sa) as H2.
    rewrite Hprep in H1. rewrite Hwrite in H2. cbn [fst] in H1, H2.
    unfold sameModuleCache in *. rewrite H2, H1.
    unfold st0, announced. destruct vibeDebug; reflexivity. }
  assert (Him : immediates sb = immediates st).
  { pose proof (BlindFacts.immediates_prepareModule h fuel absolutePath vibeDebug st0)
      as H1.
    rewrite Hprep in H1. cbn [fst] in H1. unfold sameImmediates in H1.
    apply CacheFacts.writeFileSync_Ok in Hwrite. subst sb. cbn. rewrite H1.
    unfold st0, announced. destruct vibeDebug; reflexivity. }
  assert (Htr : In (EsbuildTransform absolutePath) (trace sb)).
  { apply PipelineFacts.prepareModule_Ok in Hprep
      as [source [t [tr [made [out [_ [_ [Hmk [Hrw _]]]]]]]]].
    pose proof (BlindFacts.blind_mkdirRecursive tracePrefix BlindFacts.trace_refl
                  BlindFacts.trace_trans BlindFacts.trace_tick BlindFacts.trace_files
                  h (length (tempDirOf h)) (tempDirOf h)
                  (addEvent (EsbuildTransform absolutePath) st0)) as H1.
    unfold mkdirSync in Hmk. rewrite Hmk in H1. cbn [fst] in H1.
    pose proof (BlindFacts.blind_rewriteImports tracePrefix BlindFacts.trace_refl
                  BlindFacts.trace_trans BlindFacts.trace_event BlindFacts.trace_tick
                  BlindFacts.trace_files h fuel (prependReactImport tr)
                  (Path.dirname absolutePath) (tempDirOf h) vibeDebug
                  (setTicks (S (ticks made)) made)) as H2.
    rewrite Hrw in H2. cbn [fst] in H2.
    apply CacheFacts.writeFileSync_Ok in Hwrite. subst sb. cbn [trace setFiles setTicks].
    apply (BlindFacts.tracePrefix_In _ _ _ H2). cbn [trace setTicks].
    apply (BlindFacts.tracePrefix_In _ _ _ H1). cbn [trace addEvent].
    apply in_or_app. right. left. reflexivity. }
  eexists. split; [|split; [|split; [|split; [|split]]]].
  - rewrite (HitFacts.transformFile_existing h fuel filePath vibeDebug st n Hfile).
    fold absolutePath. fold st0.
    destruct (moduleCache st !! absolutePath) as [cached|] eqn:Ec; [|exact Hload].
    destruct (Z.eqb_spec (entryMtime cached) (nodeMtime n)) as [Heq|Hne];
      [|exact Hload].
    exfalso. exact (Hmiss cached eq_refl Heq).
  - cbn. rewrite Hmc. reflexivity.
  - cbn. apply CacheFacts.writeFileSync_Ok in Hwrite. subst sb. eexists.
    cbn. apply lookup_insert_eq.
  - cbn. rewrite Him. destruct vibeDebug; reflexivity.
  - cbn. apply in_or_app. left. exact Htr.
  - cbn. apply in_or_app. right. left. reflexivity.
Qed.

Lemma transformFile_fresh_load_witness :
  let st := Demo.initialState Demo.packagesOnly in
  exists st',
    transformFile (Demo.host []) 1 (js "/app/main.js") false st = (st', Ok 32) /\
    moduleCache st' = <[js "/app/main.js" := MkEntry 32 10]> (moduleCache st) /\
    immediates st' = [js "/app/.float/.cache/main_1002.mjs"].
Proof.
  cbv zeta.
  pose (h := Demo.host []).
  pose (st := Demo.initialState Demo.packagesOnly).
  pose (tempFile := js "/app/.float/.cache/main_1002.mjs").
  pose (code := js "import React " ++ fromClause (dataUrl reactGlueCode)
                ++ js ";" ++ 10 :: js "import _ from 'lodash';" ++ [10]).
  pose (r1 := prepareModule h 1 (js "/app/main.js") false st).
  pose (r2 := writeFileSync h tempFile code (fst r1)).
  destruct (transformFile_fresh_load h 1 (js "/app/main.js") false st
              (fst r1) (fst r2) (File Demo.packagesCode 10) tempFile code 32)
    as [st' [H1 [H2 [_ [H3 _]]]]].
  - vm_compute. reflexivity.
  - intros cached Hc. vm_compute in Hc. discriminate.
  - vm_compute. reflexivity.
  - vm_compute. reflexivity.
  - vm_compute. reflexivity.
  - exists st'. split; [exact H1 | split; [exact H2 | exact H3]].
Defined.

(** X3: whatever [transformFile] does (hit, fresh load, or any failure),
    the cache entries of all other paths are as before the call: a call
    may add or replace the entry of its own absolute path and nothing
    else. *)
Theorem transformFile_other_entries (h : Host) (fuel : nat)
    (filePath : jsstring) (vibeDebug : bool) (st : State) (other : jsstring) :
  other <> absolutePathOf h filePath ->
  moduleCache (fst (transformFile h fuel filePath vibeDebug st)) !! other
  = moduleCache st !! other.
Proof.
  intros Hne.
  set (absolutePath := absolutePathOf h filePath) in *.
  assert (H0 : moduleCache (announced vibeDebug absolutePath st) = moduleCache st).
  { unfold announced. destruct vibeDebug; reflexivity. }
  destruct (files st !! absolutePath) as [n|] eqn:Hfile.
  - rewrite (HitFacts.transformFile_existing h fuel filePath vibeDebug st n Hfile).
    fold absolutePath.
    assert (Hfresh :
      moduleCache (fst (loadFresh h fuel absolutePath (nodeMtime n) vibeDebug
                          (announced vibeDebug absolutePath st))) !! other
      = moduleCache st !! other).
    { destruct (LoadFacts.loadFresh_cache h fuel absolutePath (nodeMtime n) vibeDebug
                  (announced vibeDebug absolutePath st)) as [H|[module H]];
        rewrite H, ?H0; [reflexivity|].
      apply lookup_insert_ne. congruence. }
    destruct (moduleCache st !! absolutePath) as [cached|]; [|exact Hfresh].
    destruct (entryMtime cached =? nodeMtime n)%Z; [|exact Hfresh].
    cbn [fst]. rewrite H0. reflexivity.
  - rewrite (LoadFacts.transformFile_missing h fuel filePath vibeDebug st Hfile).
    cbn [fst]. fold absolutePath. rewrite H0. reflexivity.
Qed.

Lemma transformFile_other_entries_witness :
  let st := setModuleCache (<[js "/app/other.js" := MkEntry 7 5]> ∅)
              (Demo.initialState Demo.packagesOnly) in
  moduleCache (fst (transformFile (Demo.host []) 1 (js "/app/main.js") false st))
    !! js "/app/other.js"
  = moduleCache st !! js "/app/other.js".
Proof.
  cbv zeta.
  apply (transformFile_other_entries (Demo.host []) 1 (js "/app/main.js") false).
  vm_compute. discriminate.
Defined.

(** X4: after a fresh load has succeeded, and the queued removals have
    run, a second call for the same path is answered from the cache with
    the same module, for any fuel and debug flag, provided the entry file
    is neither a dependency cache file nor the temporary file nor one of
    the files that were queued for removal before. The second call
    changes nothing but the console line. *)
Theorem transformFile_second_call (h : Host) (fuel fuel' : nat)
    (filePath : jsstring) (vibeDebug vibeDebug' : bool) (st sa sb : State)
    (n : FsNode) (tempFile code : jsstring) (module : ModuleHandle) :
  let absolutePath := absolutePathOf h filePath in
  files st !! absolutePath = Some n ->
  (forall cached, moduleCache st !! absolutePath = Some cached ->
                  entryMtime cached <> nodeMtime n) ->
  prepareModule h fuel absolutePath vibeDebug (announced vibeDebug absolutePath st)
  = (sa, Ok (tempFile, code)) ->
  writeFileSync h tempFile code sa = (sb, Ok tt) ->
  dynamicImport h (files sb) (pathToFileURL h tempFile) = inr module ->
  ~ isCacheFile (tempDirOf h) absolutePath ->
  tempFile <> absolutePath ->
  absolutePath ∉ immediates st ->
  let st1 := fst (transformFile h fuel filePath vibeDebug st) in
  let st2 := fst (runImmediates st1) in
  snd (transformFile h fuel filePath vibeDebug st) = Ok module /\
  transformFile h fuel' filePath vibeDebug' st2
  = (announced vibeDebug' absolutePath st2, Ok module).
Proof.
  intros absolutePath Hfile Hmiss Hprep Hwrite Himport Hnc Hnt Hni st1 st2.
  set (st0 := announced vibeDebug absolutePath st) in *.
  assert (Hfirst : transformFile h fuel filePath vibeDebug st
                   = loadFresh h fuel absolutePath (nodeMtime n) vibeDebug st0).
  { rewrite (HitFacts.transformFile_existing h fuel filePath vibeDebug st n Hfile).
    fold absolutePath. fold st0.
    destruct (moduleCache st !! absolutePath) as [cached|] eqn:Ec; [|reflexivity].
    destruct (Z.eqb_spec (entryMtime cached) (nodeMtime n)) as [Heq|Hne];
      [|reflexivity].
    exfalso. exact (Hmiss cached eq_refl Heq). }
  pose proof (LoadFacts.loadFresh_after h fuel absolutePath (nodeMtime n) vibeDebug
                st0 sa sb tempFile code Hprep Hwrite) as Hload.
  cbv zeta in Hload. rewrite Himport in Hload.
  assert (Hkeep : files sb !! absolutePath = Some n).
  { pose proof (BlindFacts.keeps_prepareModule absolutePath h fuel absolutePath
                  vibeDebug Hnc st0 n) as H1.
    rewrite Hprep in H1. cbn [fst] in H1.
    apply CacheFacts.writeFileSync_Ok in Hwrite. subst sb. cbn.
    rewrite lookup_insert_ne by exact Hnt. apply H1.
    unfold st0, announced. destruct vibeDebug; exact Hfile. }
  assert (Him : immediates sb = immediates st).
  { pose proof (BlindFacts.immediates_prepareModule h fuel absolutePath vibeDebug st0)
      as H1.
    rewrite Hprep in H1. cbn [fst] in H1. unfold sameImmediates in H1.
    apply CacheFacts.writeFileSync_Ok in Hwrite. subst sb. cbn. rewrite H1.
    unfold st0, announced. destruct vibeDebug; reflexivity. }
  assert (Hst1 : files st1 = files sb /\
                 moduleCache st1 !! absolutePath = Some (MkEntry module (nodeMtime n)) /\
                 absolutePath ∉ immediates st1).
  { unfold st1. rewrite Hfirst, Hload. cbn. split; [reflexivity|].
    split; [apply lookup_insert_eq|].
    rewrite Him. destruct vibeDebug; [exact Hni|].
    rewrite elem_of_app, list_elem_of_singleton. intros [H|H]; [exact (Hni H)|].
    exact (Hnt (eq_sym H)). }
  destruct Hst1 as [Hf1 [Hc1 Hi1]].
  assert (Hst2 : files st2 !! absolutePath = Some n /\
                 moduleCache st2 !! absolutePath = Some (MkEntry module (nodeMtime n))).
  { unfold st2. rewrite LoadFacts.runImmediates_eq. cbn [fst files moduleCache].
    rewrite LoadFacts.removeFiles_lookup, Hf1, Hkeep.
    split; [|exact Hc1].
    destruct n as [c t|t]; [|reflexivity].
    rewrite bool_decide_eq_false_2 by exact Hi1. reflexivity. }
  destruct Hst2 as [Hf2 Hc2].
  split.
  - rewrite Hfirst, Hload. reflexivity.
  - rewrite (HitFacts.transformFile_existing h fuel' filePath vibeDebug' st2 n Hf2).
    fold absolutePath. rewrite Hc2. cbn [entryMtime entryModule].
    rewrite Z.eqb_refl. reflexivity.
Qed.

Lemma transformFile_second_call_witness :
  let st := Demo.initialState Demo.packagesOnly in
  let st1 := fst (transformFile (Demo.host []) 1 (js "/app/main.js") false st) in
  let st2 := fst (runImmediates st1) in
  snd (transformFile (Demo.host []) 1 (js "/app/main.js") false st) = Ok 32 /\
  transformFile (Demo.host []) 0 (js "/app/main.js") false st2 = (st2, Ok 32).
Proof.
  cbv zeta.
  pose (h := Demo.host []).
  pose (st := Demo.initialState Demo.packagesOnly).
  pose (tempFile := js "/app/.float/.cache/main_1002.mjs").
  pose (code := js "import React " ++ fromClause (dataUrl reactGlueCode)
                ++ js ";" ++ 10 :: js "import _ from 'lodash';" ++ [10]).
  pose (r1 := prepareModule h 1 (js "/app/main.js") false st).
  pose (r2 := writeFileSync h tempFile code (fst r1)).
  apply (transformFile_second_call h 1 0 (js "/app/main.js") false false st
           (fst r1) (fst r2) (File Demo.packagesCode 10) tempFile code 32).
  - vm_compute. reflexivity.
  - intros cached Hc. vm_compute in Hc. discriminate.
  - vm_compute. reflexivity.
  - vm_compute. reflexivity.
  - vm_compute. reflexivity.
  - apply PathFacts.not_cache_file. vm_compute. reflexivity.
  - vm_compute. discriminate.
  - vm_compute. intros H. inversion H.
Defined.


Module ClearFacts.

Lemma resolve_relative_key (h : Host) (filePath : jsstring) :
  Path.isAbsolute filePath = false ->
  absolutePathOf h filePath = Path.resolve (cwd h) [filePath].
Proof. intros H. unfold absolutePathOf. rewrite H. reflexivity. Qed.

End ClearFacts.

(** X6: for a relative, non-empty path, [clearModuleCache] removes the
    entry that [transformFile] uses for the same argument: the next
    [transformFile] of an existing file is a fresh load, whatever the
    cache held. *)
Theorem clearModuleCache_then_transformFile (h : Host) (fuel : nat)
    (filePath : jsstring) (vibeDebug : bool) (st : State) (n : FsNode) :
  let absolutePath := absolutePathOf h filePath in
  let st1 := fst (clearModuleCache h (Some filePath) st) in
  Path.isAbsolute filePath = false ->
  filePath <> [] ->
  files st !! absolutePath = Some n ->
  transformFile h fuel filePath vibeDebug st1
  = loadFresh h fuel absolutePath (nodeMtime n) vibeDebug
      (announced vibeDebug absolutePath st1).
Proof.
  intros absolutePath st1 Hrel Hne Hfile.
  destruct filePath as [|c p]; [congruence|].
  assert (Hf : files st1 !! absolutePath = Some n) by exact Hfile.
  rewrite (HitFacts.transformFile_existing h fuel (c :: p) vibeDebug st1 n Hf).
  fold absolutePath.
  assert (Hc : moduleCache st1 !! absolutePath = None).
  { unfold st1. cbn. unfold absolutePath.
    rewrite (ClearFacts.resolve_relative_key h (c :: p) Hrel).
    apply lookup_delete_eq. }
  rewrite Hc. reflexivity.
Qed.

Lemma clearModuleCache_then_transformFile_witness :
  let st := setModuleCache (<[js "/app/main.js" := MkEntry 7 10]> ∅)
              (Demo.initialState Demo.packagesOnly) in
  let st1 := fst (clearModuleCache (Demo.host []) (Some (js "main.js")) st) in
  snd (transformFile (Demo.host []) 1 (js "main.js") false st) = Ok 7 /\
  transformFile (Demo.host []) 1 (js "main.js") false st1
  = loadFresh (Demo.host []) 1 (js "/app/main.js") 10 false st1.
Proof.
  cbv zeta. split; [vm_compute; reflexivity|].
  apply (clearModuleCache_then_transformFile (Demo.host []) 1 (js "main.js") false
           _ (File Demo.packagesCode 10)).
  - reflexivity.
  - discriminate.
  - vm_compute. reflexivity.
Defined.

(** X7: [transformFile] keys the cache by an absolute argument as it is
    spelled, [clearModuleCache] by its normal form. For an absolute path
    that is not in normal form the entry that [transformFile] uses
    survives [clearModuleCache] of the same argument. *)
Theorem clearModuleCache_keeps_unnormalized (h : Host) (filePath : jsstring)
    (st : State) :
  Path.isAbsolute filePath = true ->
  Path.resolve (cwd h) [filePath] <> filePath ->
  moduleCache (fst (clearModuleCache h (Some filePath) st))
    !! absolutePathOf h filePath
  = moduleCache st !! absolutePathOf h filePath.
Proof.
  intros Habs Hne. unfold absolutePathOf. rewrite Habs.
  destruct filePath as [|c p]; [discriminate|].
  cbn. apply lookup_delete_ne. exact Hne.
Qed.

Lemma clearModuleCache_keeps_unnormalized_witness :
  let st := setModuleCache (<[js "/app/./main.js" := MkEntry 7 10]> ∅)
              (Demo.initialState Demo.packagesOnly) in
  moduleCache (fst (clearModuleCache (Demo.host []) (Some (js "/app/./main.js")) st))
    !! js "/app/./main.js"
  = Some (MkEntry 7 10).
Proof.
  cbv zeta.
  rewrite (clearModuleCache_keeps_unnormalized (Demo.host []) (js "/app/./main.js")).
  - vm_compute. reflexivity.
  - reflexivity.
  - vm_compute. discriminate.
Defined.

(** ** The resolution of one specifier *)

Module ResolveFacts.

Lemma special_false (importPath : jsstring) :
  isSpecialSpecifier importPath = false ->
  (JS.eqb importPath (js "react") || startsWith importPath (js "react/")) = false /\
  (JS.eqb importPath (js "react-dom") || startsWith importPath (js "react-dom/"))
  = false /\
  JS.eqb importPath (js "react-native") = false /\
  JS.eqb importPath (js "@float-v/core") = false /\
  JS.eqb importPath (js "@float-v/lite") = false.
Proof.
  unfold isSpecialSpecifier, isReactSpecifier, isReactDomSpecifier,
    isFrameworkSpecifier.
  rewrite !orb_false_iff. tauto.
Qed.

(** The first four branches leave any other specifier to the later
    steps. *)
Lemma classify_plain (h : Host) (importPath baseDir : jsstring)
    (vibeDebug : bool) (st : State) :
  isSpecialSpecifier importPath = false ->
  classify h importPath baseDir vibeDebug st
  = (legacyAnnounced vibeDebug importPath st, Ok unresolved).
Proof.
  intros H. apply special_false in H as [H1 [H2 [H3 [H4 H5]]]].
  unfold classify, legacyAnnounced. rewrite H1, H2, H3, H4, H5. cbn [orb].
  destruct (startsWith importPath (js "@float-v/") && vibeDebug); reflexivity.
Qed.

Lemma probeRelative_probed (h : Host) (importPath baseDir : jsstring) (st : State) :
  probeRelative h importPath baseDir unresolved st
  = (st, Ok match probed h (files st) baseDir importPath with
            | Some p => MkResolution [] true p
            | None =>
                if isRelativeSpecifier importPath
                then MkResolution [] false (probeBase (cwd h) baseDir importPath)
                else unresolved
            end).
Proof.
  unfold probeRelative, probed. change (found unresolved) with false. cbn [negb].
  fold (isRelativeSpecifier importPath).
  destruct (isRelativeSpecifier importPath); [|reflexivity].
  fold (probeBase (cwd h) baseDir importPath).
  unfold bind. rewrite ProbeFacts.probeExtensions_find,
    <- ProbeFacts.probeOrder_interleave.
  destruct (find _ _); reflexivity.
Qed.

Lemma resolveFrom_packageOf (h : Host) (baseDir importPath : jsstring) (st : State) :
  resolveFrom h baseDir importPath st
  = match packageOf h (files st) baseDir importPath with
    | inr p => (st, Ok p)
    | inl e => (st, Throw e)
    end.
Proof.
  unfold resolveFrom, packageOf, bind, get, liftResult.
  destruct (requireResolve h (files st) (Path.join [baseDir; js "noop.js"]) importPath);
    reflexivity.
Qed.

(** The first copy of the fallback, on a resolution that is not found. *)
Lemma bareFallback_eq (h : Host) (importPath baseDir : jsstring)
    (r : Resolution) (st : State) :
  tryCatch
    (let* resolved := resolveFrom h baseDir importPath in
     if negb (JS.eqb resolved [])
     then ret (MkResolution (finalImportPath r) true resolved)
     else ret r)
    (fun _ => ret r) st
  = match packageOf h (files st) baseDir importPath with
    | inr p =>
        if negb (JS.eqb p [])
        then (st, Ok (MkResolution (finalImportPath r) true p))
        else (st, Ok r)
    | inl _ => (st, Ok r)
    end.
Proof.
  unfold tryCatch, bind. rewrite resolveFrom_packageOf.
  destruct (packageOf h (files st) baseDir importPath) as [e|p]; [reflexivity|].
  destruct (negb (JS.eqb p [])); reflexivity.
Qed.

Lemma autoHeal_unfound (h : Host) (importPath baseDir : jsstring)
    (vibeDebug : bool) (r : Resolution) (st : State) :
  found r = false ->
  autoHeal h importPath baseDir vibeDebug r st
  = match packageOf h (files st) baseDir importPath with
    | inr p =>
        if isSourceExt (Path.extname p) then
          ((if vibeDebug
            then addEvent (ConsoleAutoDetected importPath (Path.basename p [])) st
            else st),
           Ok (MkResolution (finalImportPath r) true p))
        else if isStrictBare importPath && negb (JS.eqb p [])
        then (st, Ok (MkResolution (finalImportPath r) true p))
        else (st, Ok r)
    | inl _ => (st, Ok r)
    end.
Proof.
  intros Hf. unfold autoHeal. rewrite Hf. cbv beta iota delta [negb].
  unfold bind at 1, tryCatch at 1, bind at 1. rewrite resolveFrom_packageOf.
  destruct (packageOf h (files st) baseDir importPath) as [e|p] eqn:Er;
    cbv beta iota.
  - unfold ret at 1. cbv beta iota. rewrite Hf. cbv beta iota delta [negb andb].
    destruct (isStrictBare importPath); [|reflexivity].
    rewrite bareFallback_eq, Er. reflexivity.
  - destruct (isSourceExt (Path.extname p)).
    + destruct vibeDebug; reflexivity.
    + unfold ret at 1. cbv beta iota. rewrite Hf. cbv beta iota delta [negb andb].
      destruct (isStrictBare importPath); [|reflexivity].
      rewrite bareFallback_eq, Er. destruct (JS.eqb p []); reflexivity.
Qed.

Lemma autoHeal_found (h : Host) (importPath baseDir : jsstring)
    (vibeDebug : bool) (r : Resolution) (st : State) :
  found r = true -> autoHeal h importPath baseDir vibeDebug r st = (st, Ok r).
Proof. intros Hf. unfold autoHeal. rewrite Hf. reflexivity. Qed.

Lemma finalFallback_found (h : Host) (importPath baseDir : jsstring)
    (vibeDebug : bool) (r : Resolution) (st : State) :
  found r = true -> finalFallback h importPath baseDir vibeDebug r st = (st, Ok r).
Proof. intros Hf. unfold finalFallback. rewrite Hf. reflexivity. Qed.

(** When the first copy of the fallback has run, the second copy finds
    nothing to do. *)
Lemma finalFallback_after_autoHeal (h : Host) (importPath baseDir : jsstring)
    (vibeDebug : bool) (r : Resolution) (st : State) :
  bind (autoHeal h importPath baseDir vibeDebug r)
       (finalFallback h importPath baseDir vibeDebug) st
  = autoHeal h importPath baseDir vibeDebug r st.
Proof.
  unfold bind at 1. destruct (found r) eqn:Hf.
  - rewrite autoHeal_found by exact Hf. apply finalFallback_found. exact Hf.
  - rewrite autoHeal_unfound by exact Hf. unfold packageOf.
    destruct (requireResolve h (files st) (Path.join [baseDir; js "noop.js"])
                importPath) as [e|p] eqn:Er.
    + unfold finalFallback. rewrite Hf. cbn [negb andb].
      destruct (isStrictBare importPath); [|reflexivity].
      unfold tryCatch, bind, resolveFrom, bind, get, liftResult. rewrite Er.
      reflexivity.
    + destruct (isSourceExt (Path.extname p)).
      * apply finalFallback_found. reflexivity.
      * destruct (isStrictBare importPath) eqn:Eb; cbn [andb].
        -- destruct (JS.eqb p []) eqn:Ep; cbn [negb].
           ++ unfold finalFallback. rewrite Hf, Eb. cbn [negb andb].
              unfold tryCatch, bind, resolveFrom, bind, get, liftResult. rewrite Er.
              cbn. rewrite Ep. reflexivity.
           ++ apply finalFallback_found. reflexivity.
        -- unfold finalFallback. rewrite Eb, andb_false_r. reflexivity.
Qed.

Lemma resolveSpecifier_short (h : Host) (importPath baseDir : jsstring)
    (vibeDebug : bool) (st : State) :
  resolveSpecifier h importPath baseDir vibeDebug st
  = (let* r0 := classify h importPath baseDir vibeDebug in
     let* r1 := probeRelative h importPath baseDir r0 in
     autoHeal h importPath baseDir vibeDebug r1) st.
Proof.
  unfold resolveSpecifier. unfold bind at 1 4.
  destruct (classify h importPath baseDir vibeDebug st) as [s0 [r0|e|]];
    try reflexivity.
  unfold bind at 1 3.
  destruct (probeRelative h importPath baseDir r0 s0) as [s1 [r1|e|]];
    try reflexivity.
  apply finalFallback_after_autoHeal.
Qed.

(** A specifier that no branch answers and the probe does not find: what
    the package resolver says decides. *)
Lemma resolveSpecifier_plain (h : Host) (importPath baseDir : jsstring)
    (vibeDebug : bool) (st : State) :
  isSpecialSpecifier importPath = false ->
  probed h (files st) baseDir importPath = None ->
  let st0 := legacyAnnounced vibeDebug importPath st in
  let r1 := if isRelativeSpecifier importPath
            then MkResolution [] false (probeBase (cwd h) baseDir importPath)
            else unresolved in
  resolveSpecifier h importPath baseDir vibeDebug st
  = match packageOf h (files st) baseDir importPath with
    | inr p =>
        if isSourceExt (Path.extname p) then
          ((if vibeDebug
            then addEvent (ConsoleAutoDetected importPath (Path.basename p [])) st0
            else st0),
           Ok (MkResolution [] true p))
        else if isStrictBare importPath && negb (JS.eqb p [])
        then (st0, Ok (MkResolution [] true p))
        else (st0, Ok r1)
    | inl _ => (st0, Ok r1)
    end.
Proof.
  intros Hs Hp st0 r1.
  assert (Hfiles : files st0 = files st).
  { unfold st0, legacyAnnounced.
    destruct (startsWith importPath (js "@float-v/") && vibeDebug); reflexivity. }
  rewrite resolveSpecifier_short.
  rewrite (NodeFacts.bind_eq _ _ _ _ _ (classify_plain h importPath baseDir vibeDebug
                                          st Hs)).
  fold st0.
  rewrite (NodeFacts.bind_eq _ _ _ _ _ (probeRelative_probed h importPath baseDir st0)).
  rewrite Hfiles, Hp. fold r1.
  rewrite autoHeal_unfound by (unfold r1; destruct (isRelativeSpecifier importPath);
                               reflexivity).
  rewrite Hfiles.
  assert (Hfin : finalImportPath r1 = []).
  { unfold r1. destruct (isRelativeSpecifier importPath); reflexivity. }
  rewrite Hfin. reflexivity.
Qed.

End ResolveFacts.

(** X8: the second copy of the final fallback (lines 265-276) never
    changes the resolution of a specifier and never prints its line:
    what it could resolve, the first copy (lines 251-259) has resolved
    already. The resolution is what the branches, the relative probe and
    the auto-healing step give. *)
Theorem finalFallback_redundant (h : Host) (importPath baseDir : jsstring)
    (vibeDebug : bool) (st : State) :
  resolveSpecifier h importPath baseDir vibeDebug st
  = (let* r0 := classify h importPath baseDir vibeDebug in
     let* r1 := probeRelative h importPath baseDir r0 in
     autoHeal h importPath baseDir vibeDebug r1) st.
Proof. apply ResolveFacts.resolveSpecifier_short. Qed.

(** X9: a specifier that no branch answers, that the relative probe
    does not find and that the package resolver cannot resolve is left
    as it is written. The same holds when the resolver gives a path
    that is no TypeScript or JSX source and the specifier starts with a
    dot, a slash or [file://]. Nothing is written; only the warning for
    a specifier under [@float-v/] is printed in debug mode. *)
Theorem rewriteOne_unresolved_kept (h : Host)
    (rw : jsstring -> jsstring -> jsstring -> bool -> M jsstring)
    (baseDir cacheDir : jsstring) (vibeDebug : bool) (m : RegExpMatch)
    (acc : jsstring * Z) (st : State) :
  isSpecialSpecifier (group1 m) = false ->
  probed h (files st) baseDir (group1 m) = None ->
  match packageOf h (files st) baseDir (group1 m) with
  | inl _ => True
  | inr p =>
      isSourceExt (Path.extname p) = false /\
      (isStrictBare (group1 m) = false \/ p = [])
  end ->
  rewriteOne h rw baseDir cacheDir vibeDebug m acc st
  = (legacyAnnounced vibeDebug (group1 m) st, Ok acc).
Proof.
  intros Hs Hp Hpkg. unfold rewriteOne.
  pose proof (ResolveFacts.resolveSpecifier_plain h (group1 m) baseDir vibeDebug st
                Hs Hp) as Hres.
  cbv zeta in Hres.
  assert (Hkept : exists r,
            resolveSpecifier h (group1 m) baseDir vibeDebug st
            = (legacyAnnounced vibeDebug (group1 m) st, Ok r)
            /\ found r = false /\ finalImportPath r = []).
  { destruct (packageOf h (files st) baseDir (group1 m)) as [e|p].
    - eexists. split; [exact Hres|].
      destruct (isRelativeSpecifier (group1 m)); split; reflexivity.
    - destruct Hpkg as [Hsrc Hbare]. rewrite Hsrc in Hres.
      assert (Hb : isStrictBare (group1 m) && negb (JS.eqb p []) = false).
      { destruct Hbare as [-> | ->]; [reflexivity | apply andb_false_r]. }
      rewrite Hb in Hres. eexists. split; [exact Hres|].
      destruct (isRelativeSpecifier (group1 m)); split; reflexivity. }
  destruct Hkept as [r [Hr [Hf He]]].
  rewrite (NodeFacts.bind_eq _ _ _ _ _ Hr). rewrite Hf, He. reflexivity.
Qed.

Lemma rewriteOne_unresolved_kept_witness :
  let st := Demo.initialState Demo.project in
  let m := MkMatch 10 (js "from './missing'") (js "./missing") in
  let acc := (js "import x from './missing';", 0%Z) in
  rewriteOne (Demo.host []) (rewriteImports (Demo.host []) 0) (js "/app/src")
             (js "/app/.float/.cache") true m acc st
  = (st, Ok acc).
Proof.
  cbv zeta.
  apply (rewriteOne_unresolved_kept (Demo.host []) (rewriteImports (Demo.host []) 0)
           (js "/app/src") (js "/app/.float/.cache") true
           (MkMatch 10 (js "from './missing'") (js "./missing"))
           (js "import x from './missing';", 0%Z)
           (Demo.initialState Demo.project)).
  - reflexivity.
  - vm_compute. reflexivity.
  - vm_compute. exact I.
Defined.

(** X10: a specifier that no branch answers and the probe does not find,
    that starts with none of a dot, a slash and [file://], and that the
    package resolver resolves to a path that is no TypeScript or JSX
    source, is replaced by the file URL of that path. Nothing is
    transformed or written. *)
Theorem rewriteOne_package (h : Host)
    (rw : jsstring -> jsstring -> jsstring -> bool -> M jsstring)
    (baseDir cacheDir : jsstring) (vibeDebug : bool) (m : RegExpMatch)
    (acc : jsstring * Z) (st : State) (p : jsstring) :
  isSpecialSpecifier (group1 m) = false ->
  probed h (files st) baseDir (group1 m) = None ->
  isStrictBare (group1 m) = true ->
  packageOf h (files st) baseDir (group1 m) = inr p ->
  p <> [] ->
  isSourceExt (Path.extname p) = false ->
  rewriteOne h rw baseDir cacheDir vibeDebug m acc st
  = (legacyAnnounced vibeDebug (group1 m) st,
     Ok (splice m (pathToFileURL h p) acc)).
Proof.
  intros Hs Hp Hb Hpkg Hne Hsrc. unfold rewriteOne.
  pose proof (ResolveFacts.resolveSpecifier_plain h (group1 m) baseDir vibeDebug st
                Hs Hp) as Hres.
  cbv zeta in Hres. rewrite Hpkg, Hsrc, Hb in Hres.
  apply JSFacts.eqb_neq in Hne. rewrite Hne in Hres. cbn [negb andb] in Hres.
  rewrite (NodeFacts.bind_eq _ _ _ _ _ Hres). cbn [found negb andb].
  unfold materialize. cbn [finalImportPath resolvedPath].
  change (JS.eqb [] []) with true. cbv beta iota. rewrite Hsrc. reflexivity.
Qed.

Lemma rewriteOne_package_witness :
  let st := Demo.initialState Demo.packagesOnly in
  let m := MkMatch 9 (js "from 'lodash'") (js "lodash") in
  let acc := (js "import _ from 'lodash';", 0%Z) in
  rewriteOne (Demo.host Demo.lodashTable) (rewriteImports (Demo.host []) 0)
             (js "/app") (js "/app/.float/.cache") false m acc st
  = (st, Ok (js "import _ from 'file:///app/node_modules/lodash/lodash.js';", 35%Z)).
Proof.
  cbv zeta.
  apply (rewriteOne_package (Demo.host Demo.lodashTable)
           (rewriteImports (Demo.host []) 0)
           (js "/app") (js "/app/.float/.cache") false
           (MkMatch 9 (js "from 'lodash'") (js "lodash"))
           (js "import _ from 'lodash';", 0%Z)
           (Demo.initialState Demo.packagesOnly)
           (js "/app/node_modules/lodash/lodash.js")).
  - reflexivity.
  - reflexivity.
  - reflexivity.
  - vm_compute. reflexivity.
  - discriminate.
  - vm_compute. reflexivity.
Defined.

(** ** Paths that end in a given name *)

Module TailFacts.

Lemma opening_cons (pre : jsstring) : opening pre -> opening (Path.slash :: pre).
Proof.
  intros [-> | [x ->]]; right.
  - exists []. reflexivity.
  - exists (Path.slash :: x). reflexivity.
Qed.

Lemma opening_app (a pre : jsstring) : opening pre -> opening (a ++ Path.slash :: pre).
Proof.
  intros [-> | [x ->]]; right.
  - exists a. reflexivity.
  - exists (a ++ Path.slash :: x). rewrite <- app_assoc. reflexivity.
Qed.

(** [resolveAcc] only prepends, and what it prepends ends in a slash. *)
Lemma resolveAcc_prepends (revArgs : list jsstring) :
  forall acc, exists pre,
    opening pre /\ fst (Path.resolveAcc revArgs acc) = pre ++ acc.
Proof.
  induction revArgs as [|p rest IH]; intros acc; cbn [Path.resolveAcc].
  - exists []. split; [left; reflexivity | reflexivity].
  - destruct (JS.eqb p []); [apply IH|].
    destruct (Path.isAbsolute p).
    + exists (p ++ [Path.slash]). split.
      * right. exists p. reflexivity.
      * cbn [fst]. rewrite <- app_assoc. reflexivity.
    + destruct (IH (p ++ Path.slash :: acc)) as [pre [Hpre Heq]].
      exists (pre ++ p ++ [Path.slash]). split.
      * right. exists (pre ++ p). rewrite <- app_assoc. reflexivity.
      * rewrite Heq, <- !app_assoc. reflexivity.
Qed.

Lemma normalizeString_trailing (pre name : jsstring) (allow : bool) :
  opening pre -> proper name ->
  exists pre',
    opening pre' /\
    Path.normalizeString (pre ++ name ++ [Path.slash]) allow = pre' ++ name.
Proof.
  intros Hpre Hname. unfold Path.normalizeString.
  destruct (PathFacts.opening_split pre name Hpre (proj1 (proj2 Hname)))
    as [segs Hsegs].
  assert (Hsplit : Path.splitSlash (pre ++ name ++ [Path.slash])
                   = segs ++ [name] ++ [[]]).
  { rewrite app_assoc. rewrite (PathFacts.splitSlash_snoc (pre ++ name) []).
    - rewrite Hsegs, <- app_assoc. reflexivity.
    - constructor. }
  rewrite Hsplit, !fold_left_app. cbn [fold_left].
  rewrite (PathFacts.normalizeStep_proper _ _ _ Hname).
  change (Path.normalizeStep allow (name :: fold_left (Path.normalizeStep allow) segs [])
            [])
    with (name :: fold_left (Path.normalizeStep allow) segs []).
  cbn [rev]. apply PathFacts.joinSlash_snoc.
Qed.

(** [path.resolve] with a plain name as its last argument gives a path
    whose last component is that name. *)
Lemma resolve_tail (cwd : jsstring) (args : list jsstring) (name : jsstring) :
  proper name ->
  exists pre, opening pre /\ Path.resolve cwd (args ++ [name]) = pre ++ name.
Proof.
  intros Hname. pose proof Hname as [Hne [Hns _]].
  unfold Path.resolve. rewrite rev_app_distr. cbn [rev app Path.resolveAcc].
  apply JSFacts.eqb_neq in Hne. rewrite Hne.
  assert (Hrel : Path.isAbsolute name = false).
  { destruct name as [|c name]; [reflexivity|]. cbn. inversion Hns; assumption. }
  rewrite Hrel.
  destruct (resolveAcc_prepends (rev args ++ [cwd]) (name ++ [Path.slash]))
    as [pre [Hpre Heq]].
  destruct (Path.resolveAcc (rev args ++ [cwd]) (name ++ [Path.slash])) as [acc abs].
  cbn [fst] in Heq. subst acc.
  destruct (normalizeString_trailing pre name (negb abs) Hpre Hname)
    as [pre' [Hpre' Hn]].
  rewrite Hn. destruct abs.
  - exists (Path.slash :: pre'). split; [apply opening_cons; exact Hpre' | reflexivity].
  - exists pre'. split; [exact Hpre'|].
    destruct (pre' ++ name) eqn:E; [|reflexivity].
    apply app_eq_nil in E as [_ E]. apply JSFacts.eqb_neq in Hne. contradiction.
Qed.

Lemma extname_tail (pre name : jsstring) :
  opening pre -> name <> [] -> noSlash name ->
  Path.extname (pre ++ name) = Path.extname name.
Proof.
  intros Hpre Hne Hns. unfold Path.extname.
  rewrite (PathFacts.lastComponent_tail pre name Hpre Hne Hns).
  pose proof (PathFacts.lastComponent_tail [] name (or_introl eq_refl) Hne Hns) as H.
  cbn [app] in H. rewrite H. reflexivity.
Qed.

Lemma frameworkBuilt_ext (h : Host) : Path.extname (frameworkBuilt h) = js ".js".
Proof.
  unfold frameworkBuilt.
  assert (Hp : proper (js "index.js")).
  { split; [discriminate|]. split; [repeat constructor | split; discriminate]. }
  destruct (resolve_tail (cwd h) [Path.dirname (currentModulePath h); js ".."]
              (js "index.js") Hp) as [pre [Hpre Heq]].
  cbn [app] in Heq. rewrite Heq.
  rewrite extname_tail; [reflexivity | exact Hpre | discriminate | apply Hp].
Qed.

Lemma frameworkSource_ext (h : Host) : Path.extname (frameworkSource h) = js ".ts".
Proof.
  unfold frameworkSource.
  assert (Hp : proper (js "index.ts")).
  { split; [discriminate|]. split; [repeat constructor | split; discriminate]. }
  destruct (resolve_tail (cwd h) [Path.dirname (currentModulePath h); js ".."]
              (js "index.ts") Hp) as [pre [Hpre Heq]].
  cbn [app] in Heq. rewrite Heq.
  rewrite extname_tail; [reflexivity | exact Hpre | discriminate | apply Hp].
Qed.

Lemma framework_cases (importPath : jsstring) :
  isFrameworkSpecifier importPath = true ->
  importPath = js "@float-v/core" \/ importPath = js "@float-v/lite".
Proof.
  unfold isFrameworkSpecifier. rewrite orb_true_iff, !JSFacts.eqb_eq. tauto.
Qed.

Lemma resolveSpecifier_framework (h : Host) (importPath baseDir : jsstring)
    (vibeDebug : bool) (st : State) :
  isFrameworkSpecifier importPath = true ->
  resolveSpecifier h importPath baseDir vibeDebug st
  = (frameworkAnnounced vibeDebug importPath st,
     Ok (MkResolution [] true
           (if existsIn (files st) (frameworkBuilt h)
            then frameworkBuilt h else frameworkSource h))).
Proof.
  intros H. apply framework_cases in H.
  rewrite ResolveFacts.resolveSpecifier_short.
  assert (Hc : classify h importPath baseDir vibeDebug st
               = (frameworkAnnounced vibeDebug importPath st,
                  Ok (MkResolution [] true
                        (if existsIn (files st) (frameworkBuilt h)
                         then frameworkBuilt h else frameworkSource h)))).
  { unfold classify, frameworkAnnounced, legacyAnnounced.
    fold (frameworkBuilt h). fold (frameworkSource h).
    destruct H as [-> | ->].
    - change (JS.eqb (js "@float-v/core") (js "react")) with false.
      change (startsWith (js "@float-v/core") (js "react/")) with false.
      change (JS.eqb (js "@float-v/core") (js "react-dom")) with false.
      change (startsWith (js "@float-v/core") (js "react-dom/")) with false.
      change (JS.eqb (js "@float-v/core") (js "react-native")) with false.
      change (JS.eqb (js "@float-v/core") (js "@float-v/core")) with true.
      change (JS.eqb (js "@float-v/core") (js "@float-v/lite")) with false.
      change (startsWith (js "@float-v/core") (js "@float-v/")) with true.
      cbn [orb andb]. rewrite andb_false_r.
      unfold bind, existsSync, emit, modify, ret, existsIn.
      destruct vibeDebug; cbn [files addEvent]; reflexivity.
    - change (JS.eqb (js "@float-v/lite") (js "react")) with false.
      change (startsWith (js "@float-v/lite") (js "react/")) with false.
      change (JS.eqb (js "@float-v/lite") (js "react-dom")) with false.
      change (startsWith (js "@float-v/lite") (js "react-dom/")) with false.
      change (JS.eqb (js "@float-v/lite") (js "react-native")) with false.
      change (JS.eqb (js "@float-v/lite") (js "@float-v/core")) with false.
      change (JS.eqb (js "@float-v/lite") (js "@float-v/lite")) with true.
      change (startsWith (js "@float-v/lite") (js "@float-v/")) with true.
      cbn [orb andb]. rewrite andb_true_r.
      unfold bind, existsSync, emit, modify, ret, existsIn.
      destruct vibeDebug; cbn [files addEvent]; reflexivity. }
  rewrite (NodeFacts.bind_eq _ _ _ _ _ Hc).
  unfold probeRelative. cbn [found negb]. unfold bind, ret.
  rewrite ResolveFacts.autoHeal_found by reflexivity. reflexivity.
Qed.

End TailFacts.

(** X11: the specifiers [@float-v/core] and [@float-v/lite] resolve to
    the entry point of the framework beside the running module: the
    built [index.js] when it exists, else the source [index.ts], whose
    extension makes it a dependency to transform. When the built file
    exists the clause is replaced by its file URL and nothing is
    written. In debug mode the legacy warning is printed for both
    specifiers, and the alias line for [@float-v/lite]. *)
Theorem rewriteOne_framework (h : Host)
    (rw : jsstring -> jsstring -> jsstring -> bool -> M jsstring)
    (baseDir cacheDir : jsstring) (vibeDebug : bool) (m : RegExpMatch)
    (acc : jsstring * Z) (st : State) :
  isFrameworkSpecifier (group1 m) = true ->
  resolveSpecifier h (group1 m) baseDir vibeDebug st
  = (frameworkAnnounced vibeDebug (group1 m) st,
     Ok (MkResolution [] true
           (if existsIn (files st) (frameworkBuilt h)
            then frameworkBuilt h else frameworkSource h))) /\
  isSourceExt (Path.extname (frameworkSource h)) = true /\
  (existsIn (files st) (frameworkBuilt h) = true ->
   rewriteOne h rw baseDir cacheDir vibeDebug m acc st
   = (frameworkAnnounced vibeDebug (group1 m) st,
      Ok (splice m (pathToFileURL h (frameworkBuilt h)) acc))).
Proof.
  intros Hfw.
  pose proof (TailFacts.resolveSpecifier_framework h (group1 m) baseDir vibeDebug st
                Hfw) as Hres.
  split; [exact Hres|]. split.
  - rewrite TailFacts.frameworkSource_ext. reflexivity.
  - intros Hex. unfold rewriteOne. rewrite Hex in Hres.
    rewrite (NodeFacts.bind_eq _ _ _ _ _ Hres). cbn [found negb andb].
    unfold materialize. cbn [finalImportPath resolvedPath].
    change (JS.eqb [] []) with true. cbv beta iota.
    rewrite TailFacts.frameworkBuilt_ext. reflexivity.
Qed.

Lemma rewriteOne_framework_witness :
  let h := Demo.host [] in
  let st := Demo.initialState
              (Demo.project
               ++ [(js "/app/node_modules/@float-v/core/dist/index.js",
                    File (js "export {};") 5)]) in
  let m := MkMatch 9 (js "from '@float-v/lite'") (js "@float-v/lite") in
  let acc := (js "import x from '@float-v/lite';", 0%Z) in
  rewriteOne h (rewriteImports h 0) (js "/app/src") (js "/app/.float/.cache") true
             m acc st
  = (addEvent ConsoleAliasedLite
       (addEvent (ConsoleLegacyImport (js "@float-v/lite")) st),
     Ok (splice m (js "file:///app/node_modules/@float-v/core/dist/index.js") acc)).
Proof.
  cbv zeta.
  apply (rewriteOne_framework (Demo.host []) (rewriteImports (Demo.host []) 0)
           (js "/app/src") (js "/app/.float/.cache") true
           (MkMatch 9 (js "from '@float-v/lite'") (js "@float-v/lite"))
           (js "import x from '@float-v/lite';", 0%Z)).
  - reflexivity.
  - vm_compute. reflexivity.
Defined.

Module DomFacts.

Lemma reactDom_cases (importPath : jsstring) :
  isReactDomSpecifier importPath = true ->
  importPath = [114; 101; 97; 99; 116; 45; 100; 111; 109]
  \/ exists rest,
       importPath = 114 :: 101 :: 97 :: 99 :: 116 :: 45 :: 100 :: 111 :: 109 :: 47 :: rest.
Proof.
  unfold isReactDomSpecifier.
  rewrite orb_true_iff, JSFacts.eqb_eq, JSFacts.startsWith_app.
  intros [H | [rest H]]; [left; exact H | right; exists rest; exact H].
Qed.

Lemma resolveSpecifier_reactDom (h : Host) (importPath baseDir : jsstring)
    (vibeDebug : bool) (st : State) :
  isReactDomSpecifier importPath = true ->
  resolveSpecifier h importPath baseDir vibeDebug st
  = (st, Ok (MkResolution (dataUrl reactDomGlueCode) true [])).
Proof.
  intros H. apply reactDom_cases in H. destruct H as [-> | [rest ->]];
    unfold resolveSpecifier, classify; ProbeFacts.eval_js; reflexivity.
Qed.

Lemma domUrl_not_empty : JS.eqb (dataUrl reactDomGlueCode) [] = false.
Proof. reflexivity. Qed.

End DomFacts.



(** ** The two scans *)

Module MatchFacts.

Lemma span_Forall (p : N -> bool) (s a b : jsstring) :
  span p s = (a, b) -> Forall (fun c => p c = true) a.
Proof.
  revert a b. induction s as [|c s IH]; intros a b; cbn [span].
  - intros [= <- <-]. constructor.
  - destruct (p c) eqn:E.
    + destruct (span p s) as [a' b']. intros [= <- <-].
      constructor; [exact E | apply (IH a' b'); reflexivity].
    + intros [= <- <-]. constructor.
Qed.

(** The shape of a successful attempt. *)
Lemma matchImportAt_shape (s m g : jsstring) :
  matchImportAt s = Some (m, g) ->
  exists ws q q',
    m = js "from" ++ ws ++ q :: g ++ [q'] /\
    ws <> [] /\ Forall (fun c => isSpace c = true) ws /\
    isQuote q = true /\ isQuote q' = true /\
    g <> [] /\ Forall (fun c => isQuote c = false) g.
Proof.
  unfold matchImportAt.
  destruct (stripPrefix (js "from") s) as [s1|] eqn:E0; [|discriminate].
  destruct (span isSpace s1) as [ws s2] eqn:E1.
  pose proof (span_Forall _ _ _ _ E1) as Hws.
  destruct ws as [|w ws]; [discriminate|].
  destruct s2 as [|q s3]; [discriminate|].
  destruct (isQuote q) eqn:Eq; [|discriminate].
  destruct (span notQuote s3) as [body s4] eqn:E2.
  pose proof (span_Forall _ _ _ _ E2) as Hbody.
  pose proof (JSFacts.span_eq _ _ _ _ E1) as Hs1.
  pose proof (JSFacts.span_eq _ _ _ _ E2) as Hs3.
  destruct body as [|b body]; [discriminate|].
  destruct s4 as [|q' s5]; [discriminate|].
  intros [= <- <-]. exists (w :: ws), q, q'.
  split; [reflexivity|]. split; [discriminate|]. split; [exact Hws|].
  split; [exact Eq|]. split.
  - (* the run of the group stopped at [q'] *)
    clear - E2. revert b body E2.
    induction s3 as [|c s3 IH]; intros b body; cbn [span]; [discriminate|].
    destruct (notQuote c) eqn:Ec.
    + destruct (span notQuote s3) as [a' b'] eqn:E. intros [= <- <- ->].
      destruct a' as [|x a'].
      * destruct s3 as [|d s3]; cbn [span] in E; [discriminate|].
        destruct (notQuote d) eqn:Ed.
        -- destruct (span notQuote s3); discriminate.
        -- injection E as <- <-. unfold notQuote in Ed.
           apply negb_false_iff in Ed. exact Ed.
      * apply (IH x a'). reflexivity.
    + discriminate.
  - split; [discriminate|].
    eapply Forall_impl; [exact Hbody|].
    intros c Hc. unfold notQuote in Hc. apply negb_true_iff in Hc. exact Hc.
Qed.

Lemma matchAllFrom_shape (n : nat) :
  forall (s : jsstring) (idx skip : nat) (m : RegExpMatch),
    (length s <= n)%nat ->
    In m (matchAllFrom s idx skip) ->
    exists k, (idx <= index m)%nat /\ index m = (idx + k)%nat /\
              matchImportAt (drop k s) = Some (whole m, group1 m).
Proof.
  induction n as [|n IH]; intros s idx skip m Hlen Hin.
  - destruct s; [destruct Hin | cbn in Hlen; lia].
  - destruct s as [|c s]; [destruct Hin|]. cbn [length] in Hlen.
    cbn [matchAllFrom] in Hin. destruct skip as [|skip].
    + destruct (matchImportAt (c :: s)) as [[w g]|] eqn:E.
      * destruct Hin as [<- | Hin].
        -- exists 0%nat. cbn [index whole group1]. rewrite drop_0.
           split; [lia | split; [lia | exact E]].
        -- destruct (IH s (S idx) _ m ltac:(lia) Hin) as [k [H1 [H2 H3]]].
           exists (S k). cbn [drop]. split; [lia | split; [lia | exact H3]].
      * destruct (IH s (S idx) _ m ltac:(lia) Hin) as [k [H1 [H2 H3]]].
        exists (S k). cbn [drop]. split; [lia | split; [lia | exact H3]].
    + destruct (IH s (S idx) _ m ltac:(lia) Hin) as [k [H1 [H2 H3]]].
      exists (S k). cbn [drop]. split; [lia | split; [lia | exact H3]].
Qed.

Lemma startsWith_stripPrefix (prefix s : jsstring) :
  startsWith s prefix = false -> stripPrefix prefix s = None.
Proof.
  revert s. induction prefix as [|p prefix IH]; intros s; simpl; [discriminate|].
  destruct s as [|c s]; [reflexivity|].
  destruct (N.eqb p c); [apply IH | reflexivity].
Qed.

Lemma matchAllFrom_without_from (s : jsstring) (idx : nat) :
  includes s (js "from") = false -> matchAllFrom s idx 0 = [].
Proof.
  revert idx. induction s as [|c s IH]; intros idx H; [reflexivity|].
  cbn [includes] in H. apply orb_false_iff in H as [H1 H2].
  cbn [matchAllFrom]. unfold matchImportAt.
  rewrite (startsWith_stripPrefix _ _ H1). apply IH. exact H2.
Qed.

Lemma removeCssImportsFrom_sublist (s : jsstring) :
  forall skip, removeCssImportsFrom s skip `sublist_of` s.
Proof.
  induction s as [|c s IH]; intros skip; cbn [removeCssImportsFrom]; [constructor|].
  destruct skip as [|k].
  - destruct (matchCssImportAt (c :: s)).
    + apply sublist_cons. apply IH.
    + apply sublist_skip. apply IH.
  - apply sublist_cons. apply IH.
Qed.

Lemma removeCssImportsFrom_without_import (s : jsstring) :
  includes s (js "import") = false -> removeCssImportsFrom s 0 = s.
Proof.
  induction s as [|c s IH]; intros H; [reflexivity|].
  cbn [includes] in H. apply orb_false_iff in H as [H1 H2].
  cbn [removeCssImportsFrom]. unfold matchCssImportAt.
  rewrite (startsWith_stripPrefix _ _ H1). rewrite (IH H2). reflexivity.
Qed.

End MatchFacts.

(** X13: every match of the import expression (line 138) lies in the
    code at its index and has the shape: the word from, one or more
    white-space code units, a single or double quote, the specifier, a
    single or double quote. The specifier is not empty and holds no
    quote; the two quotes need not be the same. *)
Theorem matchAll_shape (code : jsstring) (m : RegExpMatch) :
  In m (matchAll code) ->
  exists ws q q',
    whole m = js "from" ++ ws ++ q :: group1 m ++ [q'] /\
    ws <> [] /\ Forall (fun c => isSpace c = true) ws /\
    isQuote q = true /\ isQuote q' = true /\
    group1 m <> [] /\ Forall (fun c => isQuote c = false) (group1 m) /\
    exists rest, drop (index m) code = whole m ++ rest.
Proof.
  intros Hin. unfold matchAll in Hin.
  destruct (MatchFacts.matchAllFrom_shape (length code) code 0 0 m (le_n _) Hin)
    as [k [_ [Hk Hm]]].
  cbn in Hk. subst k.
  destruct (MatchFacts.matchImportAt_shape _ _ _ Hm)
    as [ws [q [q' [H1 [H2 [H3 [H4 [H5 [H6 H7]]]]]]]]].
  exists ws, q, q'. repeat (split; [assumption|]).
  destruct (ScanFacts.matchImportAt_prefix _ _ _ Hm) as [[rest Hrest] _].
  exists rest. exact Hrest.
Qed.

Lemma matchAll_shape_witness :
  let m := MkMatch 11 [102; 114; 111; 109; 32; 39; 120; 34] [120] in
  exists ws q q',
    whole m = js "from" ++ ws ++ q :: group1 m ++ [q'] /\
    ws <> [] /\ Forall (fun c => isSpace c = true) ws /\
    isQuote q = true /\ isQuote q' = true /\
    group1 m <> [] /\ Forall (fun c => isQuote c = false) (group1 m) /\
    exists rest,
      drop (index m) (js "import a   from 'x" ++ [34] ++ js "; y") = whole m ++ rest.
Proof.
  cbv zeta.
  apply (matchAll_shape (js "import a   from 'x" ++ [34] ++ js "; y")).
  vm_compute. left. reflexivity.
Defined.

(** X14: code in which the word from does not occur comes back from
    [rewriteImports] as it is, and the store is untouched: nothing is
    resolved, logged or written. *)
Theorem rewriteImports_without_from (h : Host) (fuel : nat)
    (code baseDir cacheDir : jsstring) (vibeDebug : bool) (st : State) :
  includes code (js "from") = false ->
  rewriteImports h (S fuel) code baseDir cacheDir vibeDebug st = (st, Ok code).
Proof.
  intros H. cbn [rewriteImports]. unfold matchAll.
  rewrite (MatchFacts.matchAllFrom_without_from code 0 H). reflexivity.
Qed.

Lemma rewriteImports_without_from_witness :
  rewriteImports (Demo.host []) 1 (js "export const x = 1;") (js "/app")
                 (js "/app/.float/.cache") true (Demo.initialState Demo.project)
  = (Demo.initialState Demo.project, Ok (js "export const x = 1;")).
Proof.
  apply (rewriteImports_without_from (Demo.host []) 0). vm_compute. reflexivity.
Defined.

(** X15: the removal of stylesheet imports (line 98) only deletes: its
    result is a subsequence of the code, and code in which the word
    import does not occur is returned as it is. *)
Theorem removeCssImports_only_deletes (code : jsstring) :
  removeCssImports code `sublist_of` code /\
  (length (removeCssImports code) <= length code)%nat /\
  (includes code (js "import") = false -> removeCssImports code = code).
Proof.
  pose proof (MatchFacts.removeCssImportsFrom_sublist code 0) as H.
  split; [exact H|]. split.
  - apply sublist_length. exact H.
  - apply MatchFacts.removeCssImportsFrom_without_import.
Qed.


(** ** What the entry point leaves alone *)

Module KeepFacts.

(** Every string splits at its last slash. *)
Lemma split_last_slash (x : jsstring) :
  exists a s, x = a ++ s /\ opening a /\ noSlash s.
Proof.
  induction x as [|c x [a [s [-> [Ha Hs]]]]].
  - exists [], []. split; [reflexivity|]. split; [left; reflexivity | constructor].
  - destruct Ha as [-> | [y ->]].
    + destruct (Path.isSlash c) eqn:Ec.
      * exists [c], s. split; [reflexivity|]. split; [|exact Hs].
        right. exists []. unfold Path.isSlash in Ec. apply N.eqb_eq in Ec.
        subst c. reflexivity.
      * exists [], (c :: s). split; [reflexivity|].
        split; [left; reflexivity | constructor; assumption].
    + exists (c :: y ++ [Path.slash]), s. split; [reflexivity|].
      split; [|exact Hs]. right. exists (c :: y). reflexivity.
Qed.

Lemma opening_join (a b : jsstring) : opening a -> opening b -> opening (a ++ b).
Proof.
  intros Ha [-> | [y ->]].
  - rewrite app_nil_r. exact Ha.
  - right. exists (a ++ y). rewrite <- app_assoc. reflexivity.
Qed.

Lemma endsWith_app (a suffix : jsstring) : endsWith (a ++ suffix) suffix = true.
Proof.
  unfold endsWith. rewrite rev_app_distr. apply JSFacts.startsWith_app.
  exists (rev a). reflexivity.
Qed.

(** A path joined from arguments the last of which ends in [.mjs] ends
    in [.mjs]. *)
Lemma join_mjs (args : list jsstring) (x : jsstring) :
  endsWith (Path.join (args ++ [x ++ js ".mjs"])) (js ".mjs") = true.
Proof.
  destruct (split_last_slash x) as [a [s [-> [Ha Hs]]]].
  ProbeFacts.eval_js.
  set (mjs := [46; 109; 106; 115]).
  set (name := s ++ mjs).
  assert (Hname : proper name).
  { unfold name. split; [destruct s; discriminate|]. split.
    - apply Forall_app. split; [exact Hs | repeat constructor].
    - split; intros E; apply (f_equal (@length N)) in E;
        rewrite length_app in E; cbn in E; lia. }
  unfold Path.join. rewrite List.filter_app. cbn [List.filter].
  assert (Hkeep : negb (JS.eqb ((a ++ s) ++ mjs) []) = true).
  { apply negb_true_iff, JSFacts.eqb_neq. intros E.
    apply (f_equal (@length N)) in E. rewrite length_app in E. cbn in E. lia. }
  rewrite Hkeep.
  match goal with
  | |- context [match ?l with [] => _ | _ :: _ => _ end] =>
      destruct (PathFacts.joinSlash_snoc
                  (List.filter (fun a => negb (JS.eqb a [])) args)
                  ((a ++ s) ++ mjs)) as [pre0 [Hpre0 Hjoin]];
      change (Path.joinSlash l = pre0 ++ (a ++ s) ++ mjs) in Hjoin;
      destruct l as [|q qs] eqn:E
  end.
  { destruct (List.filter (fun a => negb (JS.eqb a [])) args); discriminate. }
  rewrite Hjoin.
  replace (pre0 ++ (a ++ s) ++ mjs) with ((pre0 ++ a) ++ name)
    by (unfold name; rewrite <- !app_assoc; reflexivity).
  destruct (PathFacts.normalize_tail (pre0 ++ a) name (opening_join _ _ Hpre0 Ha) Hname)
    as [pre' [_ ->]].
  unfold name. rewrite app_assoc. apply endsWith_app.
Qed.

Lemma cachedFile_mjs (cacheDir resolved : jsstring) :
  endsWith (cachedFileOf cacheDir resolved) (js ".mjs") = true.
Proof.
  unfold cachedFileOf. cbv zeta.
  rewrite (app_assoc (js "dep_")). apply (join_mjs [cacheDir]).
Qed.

Lemma not_mjs_not_cache (cacheDir p : jsstring) :
  endsWith p (js ".mjs") = false -> ~ isCacheFile cacheDir p.
Proof.
  intros H [resolved ->]. rewrite cachedFile_mjs in H. discriminate.
Qed.

(** The temporary file of a finished preparation. *)
Lemma prepareModule_tempFile (h : Host) (fuel : nat) (absolutePath : jsstring)
    (vibeDebug : bool) (st st' : State) (tempFile code : jsstring) :
  prepareModule h fuel absolutePath vibeDebug st = (st', Ok (tempFile, code)) ->
  exists now : Z,
    tempFile
    = Path.join [tempDirOf h;
                 Path.basename absolutePath (Path.extname absolutePath) ++ js "_"
                 ++ intToString now ++ js ".mjs"].
Proof.
  unfold prepareModule. fold (tempDirOf h). intros H.
  apply NodeFacts.bind_Ok in H as [s1 [source [_ H]]].
  apply NodeFacts.bind_Ok in H as [s2 [u [_ H]]].
  apply NodeFacts.bind_Ok in H as [s3 [transformed [_ H]]].
  apply NodeFacts.bind_Ok in H as [made [u' [_ H]]].
  apply NodeFacts.bind_Ok in H as [s5 [now [_ H]]].
  apply NodeFacts.bind_Ok in H as [s6 [out [_ H]]].
  injection H as _ H _. exists now. symmetry. exact H.
Qed.

Lemma tempFile_mjs (h : Host) (fuel : nat) (absolutePath : jsstring)
    (vibeDebug : bool) (st st' : State) (tempFile code : jsstring) :
  prepareModule h fuel absolutePath vibeDebug st = (st', Ok (tempFile, code)) ->
  endsWith tempFile (js ".mjs") = true.
Proof.
  intros H. apply prepareModule_tempFile in H as [now ->].
  rewrite !app_assoc. apply (join_mjs [tempDirOf h]).
Qed.

(** A fresh load replaces and removes nothing but [.mjs] files. *)
Lemma loadFresh_keeps (p : jsstring) (h : Host) (fuel : nat)
    (absolutePath : jsstring) (mtime : Z) (vibeDebug : bool) :
  endsWith p (js ".mjs") = false ->
  preserves (keepsNode p) (loadFresh h fuel absolutePath mtime vibeDebug).
Proof.
  intros Hp st.
  pose proof (BlindFacts.keeps_prepareModule p h fuel absolutePath vibeDebug
                (not_mjs_not_cache _ _ Hp) st) as H1.
  destruct (prepareModule h fuel absolutePath vibeDebug st)
    as [sa [[tempFile code]|e|]] eqn:Eprep; cbn [fst] in H1.
  - assert (Hne : tempFile <> p).
    { intros ->. rewrite (tempFile_mjs _ _ _ _ _ _ _ _ Eprep) in Hp. discriminate. }
    destruct (writeFileSync h tempFile code sa) as [sb [[]|e|]] eqn:Ewrite.
    + rewrite (LoadFacts.loadFresh_after h fuel absolutePath mtime vibeDebug st sa sb
                 tempFile code Eprep Ewrite).
      apply CacheFacts.writeFileSync_Ok in Ewrite. subst sb.
      intros n Hn. apply H1 in Hn.
      destruct (dynamicImport h _ _) as [e|module]; [destruct vibeDebug|]; cbn;
        rewrite ?lookup_delete_ne by exact Hne;
        rewrite lookup_insert_ne by exact Hne; exact Hn.
    + unfold loadFresh. rewrite (NodeFacts.bind_eq _ _ _ _ _ Eprep).
      cbn [fst snd]. unfold bind. rewrite Ewrite. cbn [fst].
      eapply BlindFacts.keeps_trans; [exact H1|].
      pose proof (Preservation.preserves_writeFileSync (keepsNode p)
                    (fun q => q <> p) (BlindFacts.keeps_refl p) (BlindFacts.keeps_trans p)
                    (fun st k n H => H)
                    (fun st q n Hq => BlindFacts.keeps_insert p q n st Hq)
                    h tempFile code Hne sa) as H2.
      rewrite Ewrite in H2. exact H2.
    + unfold loadFresh. rewrite (NodeFacts.bind_eq _ _ _ _ _ Eprep).
      cbn [fst snd]. unfold bind. rewrite Ewrite. cbn [fst].
      eapply BlindFacts.keeps_trans; [exact H1|].
      pose proof (Preservation.preserves_writeFileSync (keepsNode p)
                    (fun q => q <> p) (BlindFacts.keeps_refl p) (BlindFacts.keeps_trans p)
                    (fun st k n H => H)
                    (fun st q n Hq => BlindFacts.keeps_insert p q n st Hq)
                    h tempFile code Hne sa) as H2.
      rewrite Ewrite in H2. exact H2.
  - unfold loadFresh, bind. rewrite Eprep. exact H1.
  - unfold loadFresh, bind. rewrite Eprep. exact H1.
Qed.

End KeepFacts.



(** ** Dependencies that cannot be transformed *)

Module FailureFacts.

Lemma resolveSpecifier_probed (h : Host) (importPath baseDir : jsstring)
    (vibeDebug : bool) (st : State) (p : jsstring) :
  isRelativeSpecifier importPath = true ->
  probed h (files st) baseDir importPath = Some p ->
  resolveSpecifier h importPath baseDir vibeDebug st
  = (st, Ok (MkResolution [] true p)).
Proof.
  intros Hrel Hp. rewrite ResolveFacts.resolveSpecifier_short.
  rewrite (NodeFacts.bind_eq _ _ _ _ _
             (ProbeFacts.classify_relative h _ _ _ _ Hrel)).
  rewrite (NodeFacts.bind_eq _ _ _ _ _
             (ResolveFacts.probeRelative_probed h importPath baseDir st)).
  rewrite Hp. apply ResolveFacts.autoHeal_found. reflexivity.
Qed.

(** [materialize] on a source dependency whose cached file is missing. *)
Lemma materialize_uncached (h : Host)
    (rw : jsstring -> jsstring -> jsstring -> bool -> M jsstring)
    (r : Resolution) (cacheDir : jsstring) (vibeDebug : bool) (st : State) :
  finalImportPath r = [] ->
  isSourceExt (Path.extname (resolvedPath r)) = true ->
  files st !! cachedFileOf cacheDir (resolvedPath r) = None ->
  materialize h rw r cacheDir vibeDebug st
  = (regenerate h rw (cachedFileOf cacheDir (resolvedPath r)) (resolvedPath r)
       (Path.extname (resolvedPath r)) cacheDir vibeDebug;;
     ret (pathToFileURL h (cachedFileOf cacheDir (resolvedPath r)))) st.
Proof.
  intros Hfinal Hext Hnone. unfold materialize. rewrite Hfinal.
  change (JS.eqb [] []) with true. cbv beta iota. rewrite Hext.
  unfold bind at 1, cacheIsStale, bind at 1, existsSync. rewrite Hnone.
  rewrite bool_decide_eq_false_2 by (intros [x Hx]; discriminate).
  reflexivity.
Qed.

End FailureFacts.

(** X18: when a dependency that resolved to a TypeScript or JSX source
    has no cached file and cannot be read or transformed, the error is
    thrown on: no file is written, and the evidence dump is made exactly
    in debug mode. When the cached file exists and the source does not,
    the comparison of the modification times throws before the
    [try] block, and nothing is dumped even in debug mode. *)
Theorem materialize_dependency_failure (h : Host)
    (rw : jsstring -> jsstring -> jsstring -> bool -> M jsstring)
    (r : Resolution) (cacheDir : jsstring) (vibeDebug : bool) (st : State) :
  finalImportPath r = [] ->
  isSourceExt (Path.extname (resolvedPath r)) = true ->
  let resolved := resolvedPath r in
  let cachedFile := cachedFileOf cacheDir resolved in
  (forall e,
     files st !! cachedFile = None ->
     dependencyError h (files st) resolved = Some e ->
     exists st',
       materialize h rw r cacheDir vibeDebug st = (st', Throw e) /\
       files st' = files st /\
       trace st'
       = trace st ++ dependencyAttempt (files st) resolved
         ++ (if vibeDebug then [DumpEvidence resolved e] else [])) /\
  (is_Some (files st !! cachedFile) ->
   files st !! resolved = None ->
   materialize h rw r cacheDir vibeDebug st
   = (st, Throw (errno "ENOENT" resolved))).
Proof.
  intros Hfinal Hext resolved cachedFile. split.
  - intros e Hnone Herr.
    rewrite (FailureFacts.materialize_uncached h rw r cacheDir vibeDebug st
               Hfinal Hext Hnone).
    fold resolved. fold cachedFile.
    unfold dependencyError in Herr. unfold dependencyAttempt.
    unfold bind at 1, regenerate, tryCatch, bind at 1, readFileSync.
    destruct (files st !! resolved) as [[source t|t]|] eqn:Ef.
    + unfold bind at 1, emit, modify. unfold bind at 1, liftResult.
      destruct (esbuildTransform h true (getLoader (Path.extname resolved)) source
                  resolved) as [e'|code]; [|discriminate].
      injection Herr as ->. unfold throw, bind.
      destruct vibeDebug; cbn; eexists; (split; [reflexivity|]); cbn;
        (split; [reflexivity|]); rewrite <- ?app_assoc; reflexivity.
    + injection Herr as <-. unfold throw, bind.
      destruct vibeDebug; cbn; eexists; (split; [reflexivity|]); cbn;
        (split; [reflexivity|]); rewrite ?app_nil_r; reflexivity.
    + injection Herr as <-. unfold throw, bind.
      destruct vibeDebug; cbn; eexists; (split; [reflexivity|]); cbn;
        (split; [reflexivity|]); rewrite ?app_nil_r; reflexivity.
  - intros [c Hc] Hnone. unfold materialize. rewrite Hfinal.
    change (JS.eqb [] []) with true. cbv beta iota. rewrite Hext.
    fold resolved. fold cachedFile.
    unfold bind at 1, cacheIsStale, bind at 1, existsSync. rewrite Hc.
    rewrite bool_decide_eq_true_2 by (eexists; reflexivity).
    cbv beta iota delta [negb]. unfold bind, statMtimeMs. rewrite Hnone. reflexivity.
Qed.

Lemma materialize_dependency_failure_witness :
  let h := Demo.host [] in
  let st := Demo.initialState Demo.project in
  let r := MkResolution [] true (js "/app/src/gone.ts") in
  exists st',
    materialize h (rewriteImports h 1) r (js "/app/.float/.cache") true st
    = (st', Throw (errno "ENOENT" (js "/app/src/gone.ts"))) /\
    files st' = files st /\
    trace st'
    = [DumpEvidence (js "/app/src/gone.ts") (errno "ENOENT" (js "/app/src/gone.ts"))].
Proof.
  cbv zeta.
  destruct (materialize_dependency_failure (Demo.host [])
              (rewriteImports (Demo.host []) 1)
              (MkResolution [] true (js "/app/src/gone.ts"))
              (js "/app/.float/.cache") true (Demo.initialState Demo.project)
              eq_refl) as [H _].
  - vm_compute. reflexivity.
  - destruct (H (errno "ENOENT" (js "/app/src/gone.ts"))) as [st' [H1 [H2 H3]]].
    + vm_compute. reflexivity.
    + vm_compute. reflexivity.
    + exists st'. split; [exact H1|]. split; [exact H2 | exact H3].
Defined.

(** X19: imports that form a cycle of TypeScript or JSX sources make
    [rewriteImports] call itself without end. [Cyc] is any set of pairs
    of a code and a base directory such that the first import of the
    code is a relative one that the probe resolves to a source file
    without cached file, whose transformed code is in [Cyc] again with
    the directory of that file. On such a code the function runs out of
    every bound on the depth of its calls, and it never writes the
    cached file that would end the recursion. *)
Theorem cyclic_imports_diverge (h : Host) (cacheDir : jsstring)
    (vibeDebug : bool) (fs : gmap (list N) FsNode)
    (Cyc : jsstring -> jsstring -> Prop) :
  (forall code baseDir,
     Cyc code baseDir ->
     exists m rest dep source t code',
       matchAll code = m :: rest /\
       isRelativeSpecifier (group1 m) = true /\
       probed h fs baseDir (group1 m) = Some dep /\
       isSourceExt (Path.extname dep) = true /\
       fs !! cachedFileOf cacheDir dep = None /\
       fs !! dep = Some (File source t) /\
       esbuildTransform h true (getLoader (Path.extname dep)) source dep = inr code' /\
       Cyc code' (Path.dirname dep)) ->
  forall fuel code baseDir st,
    Cyc code baseDir ->
    files st = fs ->
    exists st',
      rewriteImports h fuel code baseDir cacheDir vibeDebug st = (st', OutOfFuel) /\
      files st' = fs.
Proof.
  intros Hstep. induction fuel as [|fuel IH]; intros code baseDir st Hc Hfs.
  - exists st. split; [reflexivity | exact Hfs].
  - destruct (Hstep code baseDir Hc)
      as [m [rest [dep [source [t [code' [Hm [Hrel [Hp [Hext [Hnc [Hdep [Hes Hc']]]]]]]]]]]]].
    cbn [rewriteImports]. rewrite Hm. cbn [rewriteLoop].
    destruct (IH code' (Path.dirname dep) (addEvent (EsbuildTransform dep) st) Hc' Hfs)
      as [st' [Hrec Hfs']].
    exists st'. split; [|exact Hfs'].
    unfold bind at 1, bind at 1, rewriteOne, bind at 1.
    rewrite <- Hfs in Hp.
    rewrite (FailureFacts.resolveSpecifier_probed h (group1 m) baseDir vibeDebug st dep
               Hrel Hp).
    cbn [found negb andb].
    rewrite <- Hfs in Hnc.
    unfold bind at 1.
    rewrite (FailureFacts.materialize_uncached h (rewriteImports h fuel)
               (MkResolution [] true dep) cacheDir vibeDebug st eq_refl Hext Hnc).
    cbn [resolvedPath].
    unfold bind at 1, regenerate, tryCatch, bind at 1, readFileSync.
    rewrite <- Hfs in Hdep. rewrite Hdep.
    unfold bind at 1, emit, modify. unfold bind at 1, liftResult. rewrite Hes.
    unfold ret at 1. unfold bind at 1. rewrite Hrec. reflexivity.
Qed.

Lemma cyclic_imports_diverge_witness :
  exists st',
    rewriteImports (Demo.host []) 7 Demo.cycleA (js "/app") (js "/app/.float/.cache")
                   false (Demo.initialState Demo.cyclic)
    = (st', OutOfFuel) /\
    files st' = files (Demo.initialState Demo.cyclic).
Proof.
  apply (cyclic_imports_diverge (Demo.host []) (js "/app/.float/.cache") false
           (files (Demo.initialState Demo.cyclic))
           (fun code baseDir =>
              baseDir = js "/app" /\ (code = Demo.cycleA \/ code = Demo.cycleB))).
  - intros code baseDir [-> [-> | ->]].
    + exists (MkMatch 13 (js "from './b'") (js "./b")), [], (js "/app/b.ts"),
        Demo.cycleB, 20%Z, Demo.cycleB.
      repeat split; try (vm_compute; reflexivity). right. reflexivity.
    + exists (MkMatch 13 (js "from './a'") (js "./a")), [], (js "/app/a.ts"),
        Demo.cycleA, 10%Z, Demo.cycleA.
      repeat split; try (vm_compute; reflexivity). left. reflexivity.
  - split; [reflexivity | left; reflexivity].
  - reflexivity.
Defined.

(** ** Names and extensions *)

Module NameFacts.

Lemma lastDot_app (a b : jsstring) :
  forall i found,
    Path.lastDot (a ++ b) i found
    = Path.lastDot b (i + length a) (Path.lastDot a i found).
Proof.
  induction a as [|c a IH]; intros i found; cbn [app Path.lastDot length].
  - rewrite Nat.add_0_r. reflexivity.
  - rewrite IH. f_equal. lia.
Qed.

(** The extension of a path whose last component ends in [.mjs] after at
    least one other code unit. *)
Lemma extname_mjs (pre x : jsstring) :
  opening pre -> x <> [] -> noSlash x ->
  Path.extname (pre ++ x ++ js ".mjs") = js ".mjs".
Proof.
  intros Hpre Hne Hns.
  assert (Hns' : noSlash (x ++ js ".mjs")).
  { apply Forall_app. split; [exact Hns | repeat constructor]. }
  rewrite TailFacts.extname_tail;
    [|exact Hpre | destruct x; discriminate | exact Hns'].
  unfold Path.extname.
  pose proof (PathFacts.lastComponent_tail [] (x ++ js ".mjs") (or_introl eq_refl))
    as Hl.
  cbn [app] in Hl. rewrite Hl; [|destruct x; discriminate | exact Hns'].
  rewrite lastDot_app. cbn [Nat.add].
  change (Path.lastDot (js ".mjs") (length x) (Path.lastDot x 0 None))
    with (Some (length x)).
  destruct x as [|c x]; [contradiction|]. cbn [length].
  assert (Hdd : JS.eqb ((c :: x) ++ js ".mjs") [Path.dot; Path.dot] = false).
  { apply JSFacts.eqb_neq. intros E. apply (f_equal (@length N)) in E.
    rewrite length_app in E. change (length (js ".mjs")) with 4%nat in E.
    cbn [length] in E. lia. }
  rewrite Hdd. change (S (length x)) with (length (c :: x)).
  apply drop_app_length.
Qed.

Lemma hexDigit_isHex (d : N) : d < 16 -> isHex (Crypto.hexDigit d) = true.
Proof.
  intros H. unfold isHex, Crypto.hexDigit.
  destruct (N.ltb_spec d 10).
  - apply orb_true_iff. left. apply andb_true_iff. split; apply N.leb_le; lia.
  - apply orb_true_iff. right. apply andb_true_iff. split; apply N.leb_le; lia.
Qed.

Lemma hexWord_spec (x : N) :
  length (Crypto.hexWord x) = 8%nat /\
  Forall (fun c => isHex c = true) (Crypto.hexWord x).
Proof.
  unfold Crypto.hexWord, Crypto.bigEndian. cbn [seq rev app map flat_map].
  split; [reflexivity|].
  repeat constructor; apply hexDigit_isHex;
    try (apply N.mod_upper_bound; discriminate);
    (apply N.Div0.div_lt_upper_bound;
     change (16 * 16) with 256; apply N.mod_upper_bound; discriminate).
Qed.

Lemma sha256Hex_spec (s : jsstring) :
  length (Crypto.sha256Hex s) = 64%nat /\
  Forall (fun c => isHex c = true) (Crypto.sha256Hex s).
Proof.
  unfold Crypto.sha256Hex. cbv zeta.
  generalize (Crypto.sha256 (Buffer.from s)). intros r.
  cbn [flat_map]. split.
  - rewrite !length_app. rewrite !(proj1 (hexWord_spec _)). reflexivity.
  - repeat (apply Forall_app; split; [apply hexWord_spec|]). constructor.
Qed.

Lemma hash_take (s : jsstring) :
  slice (Crypto.sha256Hex s) 0 16 = take 16 (Crypto.sha256Hex s).
Proof.
  change 16%Z with (Z.of_nat 16). apply ScanFacts.slice_take.
  rewrite (proj1 (sha256Hex_spec s)). lia.
Qed.

Lemma includes_head (prefix rest : jsstring) :
  includes (prefix ++ rest) prefix = true.
Proof.
  apply JSFacts.includes_occurs. exists [], rest. reflexivity.
Qed.

Lemma resolveAcc_absolute (cwd : jsstring) (revArgs : list jsstring) :
  Path.isAbsolute cwd = true ->
  forall acc, snd (Path.resolveAcc (revArgs ++ [cwd]) acc) = true.
Proof.
  intros Hcwd. induction revArgs as [|p rest IH]; intros acc;
    cbn [app Path.resolveAcc].
  - destruct cwd as [|c cwd]; [discriminate|].
    cbn [JS.eqb]. rewrite Hcwd. reflexivity.
  - destruct (JS.eqb p []); [apply IH|].
    destruct (Path.isAbsolute p); [reflexivity | apply IH].
Qed.

Lemma resolve_absolute (cwd : jsstring) (args : list jsstring) :
  Path.isAbsolute cwd = true -> Path.isAbsolute (Path.resolve cwd args) = true.
Proof.
  intros Hcwd. unfold Path.resolve.
  pose proof (resolveAcc_absolute cwd (rev args) Hcwd []) as H.
  destruct (Path.resolveAcc (rev args ++ [cwd]) []) as [acc abs].
  cbn [snd] in H. subst abs. reflexivity.
Qed.

End NameFacts.

(** X20: the loader of a dependency that the rewriter transforms (line
    291) is the one named after its extension, never [js] or [json];
    the loader [js] is given to [.js] and [.mjs] and to nothing else, the
    loader [json] to [.json] alone, and any extension outside the six of
    the switch, the empty one included, is treated as TypeScript. *)
Theorem getLoader_cases (ext : jsstring) :
  (isSourceExt ext = true ->
   (ext = js ".ts" /\ getLoader ext = LoaderTs) \/
   (ext = js ".tsx" /\ getLoader ext = LoaderTsx) \/
   (ext = js ".jsx" /\ getLoader ext = LoaderJsx)) /\
  (getLoader ext = LoaderJs <-> ext = js ".js" \/ ext = js ".mjs") /\
  (getLoader ext = LoaderJson <-> ext = js ".json") /\
  (~ In ext [js ".ts"; js ".tsx"; js ".jsx"; js ".js"; js ".mjs"; js ".json"] ->
   getLoader ext = LoaderTs).
Proof.
  unfold getLoader, isSourceExt, arrayIncludes. cbn [existsb In].
  destruct (JS.eqb ext (js ".ts")) eqn:E1;
    [apply JSFacts.eqb_eq in E1; subst ext;
     repeat split; try discriminate; try tauto;
     try (intros [H|H]; discriminate); intros H; exfalso; apply H; tauto|].
  destruct (JS.eqb ext (js ".tsx")) eqn:E2;
    [apply JSFacts.eqb_eq in E2; subst ext;
     repeat split; try discriminate; try tauto;
     try (intros [H|H]; discriminate); intros H; exfalso; apply H; tauto|].
  destruct (JS.eqb ext (js ".jsx")) eqn:E3;
    [apply JSFacts.eqb_eq in E3; subst ext;
     repeat split; try discriminate; try tauto;
     try (intros [H|H]; discriminate); intros H; exfalso; apply H; tauto|].
  destruct (JS.eqb ext (js ".js")) eqn:E4;
    [apply JSFacts.eqb_eq in E4; subst ext;
     repeat split; try discriminate; try tauto;
     intros H; exfalso; apply H; tauto|].
  destruct (JS.eqb ext (js ".mjs")) eqn:E5;
    [apply JSFacts.eqb_eq in E5; subst ext;
     repeat split; try discriminate; try tauto;
     intros H; exfalso; apply H; tauto|].
  apply JSFacts.eqb_neq in E1, E2, E3, E4, E5.
  destruct (JS.eqb ext (js ".json")) eqn:E6.
  - apply JSFacts.eqb_eq in E6. subst ext.
    repeat split; try discriminate; try tauto;
      try (intros [H|H]; discriminate); intros H; exfalso; apply H; tauto.
  - apply JSFacts.eqb_neq in E6.
    repeat split; try discriminate; try tauto;
      try (intros [H|H]; contradiction); try (intros H; contradiction).
Qed.

Lemma getLoader_cases_witness :
  (js ".tsx" = js ".ts" /\ getLoader (js ".tsx") = LoaderTs) \/
  (js ".tsx" = js ".tsx" /\ getLoader (js ".tsx") = LoaderTsx) \/
  (js ".tsx" = js ".jsx" /\ getLoader (js ".tsx") = LoaderJsx).
Proof.
  apply (proj1 (getLoader_cases (js ".tsx"))). reflexivity.
Defined.

(** X21: the cached file of a dependency is named [dep_], sixteen
    lower-case hexadecimal digits (the start of the SHA-256 of the
    resolved path) and [.mjs], in whatever cache directory. Its extension
    is [.mjs]: an import that resolves to a cached file is never
    transformed again. *)
Theorem cachedFileOf_name (cacheDir resolved : jsstring) :
  let hash := take 16 (Crypto.sha256Hex resolved) in
  Path.lastComponent (cachedFileOf cacheDir resolved)
  = js "dep_" ++ hash ++ js ".mjs" /\
  length hash = 16%nat /\
  Forall (fun c => isHex c = true) hash /\
  Path.extname (cachedFileOf cacheDir resolved) = js ".mjs" /\
  isSourceExt (Path.extname (cachedFileOf cacheDir resolved)) = false.
Proof.
  cbv zeta.
  destruct (NameFacts.sha256Hex_spec resolved) as [Hlen Hhex].
  assert (Hext : Path.extname (cachedFileOf cacheDir resolved) = js ".mjs").
  { destruct (PathFacts.join_tail [cacheDir]
                (js "dep_" ++ slice (Crypto.sha256Hex resolved) 0 16 ++ js ".mjs")
                (PathFacts.cacheName_proper resolved)) as [pre [Hpre Heq]].
    assert (Heq' : cachedFileOf cacheDir resolved
                   = pre ++ (js "dep_" ++ slice (Crypto.sha256Hex resolved) 0 16)
                     ++ js ".mjs").
    { rewrite <- (app_assoc (js "dep_")). exact Heq. }
    rewrite Heq'.
    apply NameFacts.extname_mjs; [exact Hpre | discriminate|].
    apply Forall_app. split; [repeat constructor|].
    apply PathFacts.slice_Forall, PathFacts.sha256Hex_noSlash. }
  split; [|split; [|split; [|split]]].
  - rewrite PathFacts.cachedFileOf_lastComponent, NameFacts.hash_take. reflexivity.
  - rewrite length_take, Hlen. reflexivity.
  - apply Forall_take. exact Hhex.
  - exact Hext.
  - rewrite Hext. reflexivity.
Qed.

(** X22: the code that [transformFile] hands to the rewriter always
    holds the text [import React] or [import * as React], and the import
    is prepended at most once: preparing prepared code changes
    nothing. *)
Theorem prependReactImport_idempotent (code : jsstring) :
  (includes (prependReactImport code) (js "import React")
   || includes (prependReactImport code) (js "import * as React")) = true /\
  prependReactImport (prependReactImport code) = prependReactImport code.
Proof.
  assert (Hhead : forall rest,
            includes (js "import React from 'react';" ++ 10 :: rest)
                     (js "import React") = true).
  { intros rest.
    change (js "import React from 'react';" ++ 10 :: rest)
      with (js "import React" ++ (js " from 'react';" ++ 10 :: rest)).
    apply NameFacts.includes_head. }
  unfold prependReactImport.
  destruct (includes code (js "import React")) eqn:E1; cbn [negb andb].
  - rewrite E1. cbn [negb andb orb]. split; reflexivity.
  - destruct (includes code (js "import * as React")) eqn:E2; cbn [negb andb].
    + rewrite E1, E2. cbn [negb andb]. rewrite orb_true_r. split; reflexivity.
    + rewrite Hhead. cbn [negb andb orb]. split; reflexivity.
Qed.

(** X23: when the working directory is absolute, [transformFile] on a
    relative path is [transformFile] on the path resolved against the
    working directory: both spellings share one cache entry. *)
Theorem transformFile_relative (h : Host) (fuel : nat) (filePath : jsstring)
    (vibeDebug : bool) (st : State) :
  Path.isAbsolute (cwd h) = true ->
  transformFile h fuel filePath vibeDebug st
  = transformFile h fuel (absolutePathOf h filePath) vibeDebug st.
Proof.
  intros Hcwd. unfold transformFile. fold (absolutePathOf h filePath).
  fold (absolutePathOf h (absolutePathOf h filePath)).
  assert (Hidem : absolutePathOf h (absolutePathOf h filePath)
                  = absolutePathOf h filePath).
  { unfold absolutePathOf at 1.
    assert (Habs : Path.isAbsolute (absolutePathOf h filePath) = true).
    { unfold absolutePathOf. destruct (Path.isAbsolute filePath) eqn:E; [exact E|].
      apply NameFacts.resolve_absolute. exact Hcwd. }
    rewrite Habs. reflexivity. }
  rewrite Hidem. reflexivity.
Qed.

Lemma transformFile_relative_witness :
  transformFile (Demo.host []) 2 (js "src/../src/main.tsx") false
                (Demo.initialState Demo.project)
  = transformFile (Demo.host []) 2 (js "/app/src/main.tsx") false
                  (Demo.initialState Demo.project).
Proof.
  apply (transformFile_relative (Demo.host []) 2 (js "src/../src/main.tsx") false).
  reflexivity.
Defined.

(** ** The locked paths are never read *)

Module LockFacts.

Lemma lockBlind_ret {A} (x : A) : lockBlind (ret x).
Proof. intros a b st. reflexivity. Qed.

Lemma lockBlind_throw {A} (e : Error) : lockBlind (@throw A e).
Proof. intros a b st. reflexivity. Qed.

Lemma lockBlind_outOfFuel {A} : lockBlind (@outOfFuel A).
Proof. intros a b st. reflexivity. Qed.

Lemma lockBlind_bind {A B} (c : M A) (k : A -> M B) :
  lockBlind c -> (forall x, lockBlind (k x)) -> lockBlind (bind c k).
Proof.
  intros Hc Hk a b st. unfold bind. rewrite (Hc a b st).
  destruct (c st) as [s1 [x|e|]]; cbn [fst snd]; [apply Hk | reflexivity..].
Qed.

Lemma lockBlind_tryCatch {A} (c : M A) (handler : Error -> M A) :
  lockBlind c -> (forall e, lockBlind (handler e)) -> lockBlind (tryCatch c handler).
Proof.
  intros Hc Hh a b st. unfold tryCatch. rewrite (Hc a b st).
  destruct (c st) as [s1 [x|e|]]; cbn [fst snd]; [reflexivity | apply Hh | reflexivity].
Qed.

Lemma lockBlind_if {A} (t : bool) (c d : M A) :
  lockBlind c -> lockBlind d -> lockBlind (if t then c else d).
Proof. destruct t; auto. Qed.

(** A continuation of [get] that uses the store it is given only
    through the other fields. *)
Lemma lockBlind_get {B} (k : State -> M B) :
  (forall a b s st, k (relock a b s) st = k s st) ->
  (forall s, lockBlind (k s)) ->
  lockBlind (bind get k).
Proof.
  intros Hread Hk a b st. unfold bind, get. rewrite Hread. apply Hk.
Qed.

Lemma lockBlind_modify (f : State -> State) :
  (forall a b st, f (relock a b st) = relock a b (f st)) -> lockBlind (modify f).
Proof. intros Hf a b st. unfold modify. rewrite Hf. reflexivity. Qed.

Lemma lockBlind_emit (e : Event) : lockBlind (emit e).
Proof. intros a b st. reflexivity. Qed.

Lemma lockBlind_liftResult {A} (r : Error + A) : lockBlind (liftResult r).
Proof. destruct r as [e|x]; intros a b st; reflexivity. Qed.

Lemma lockBlind_existsSync (p : jsstring) : lockBlind (existsSync p).
Proof. intros a b st. reflexivity. Qed.

Lemma lockBlind_statMtimeMs (p : jsstring) : lockBlind (statMtimeMs p).
Proof.
  intros a b st. unfold statMtimeMs. cbn [files relock].
  destruct (files st !! p); reflexivity.
Qed.

Lemma lockBlind_readFileSync (p : jsstring) : lockBlind (readFileSync p).
Proof.
  intros a b st. unfold readFileSync. cbn [files relock].
  destruct (files st !! p) as [[c t|t]|]; reflexivity.
Qed.

Lemma lockBlind_unlinkSync (p : jsstring) : lockBlind (unlinkSync p).
Proof.
  intros a b st. unfold unlinkSync, bind, get. cbn [files relock].
  destruct (files st !! p) as [[c t|t]|]; reflexivity.
Qed.

Lemma lockBlind_readClock (h : Host) : lockBlind (readClock h).
Proof. intros a b st. reflexivity. Qed.

Lemma lockBlind_resolveFrom (h : Host) (dir specifier : jsstring) :
  lockBlind (resolveFrom h dir specifier).
Proof.
  intros a b st. unfold resolveFrom, bind, get. cbn [files relock].
  destruct (requireResolve h (files st) _ specifier); reflexivity.
Qed.

Lemma lockBlind_writeFileSync (h : Host) (p data : jsstring) :
  lockBlind (writeFileSync h p data).
Proof.
  intros a b st. unfold writeFileSync, bind, get. cbn [files relock].
  destruct (files st !! p) as [[c t|t]|];
    destruct (files st !! Path.dirname p) as [[c' t'|t']|]; reflexivity.
Qed.

Lemma lockBlind_mkdirRecursive (h : Host) (fuel : nat) :
  forall p, lockBlind (mkdirRecursive h fuel p).
Proof.
  induction fuel as [|fuel IH]; intros p; cbn [mkdirRecursive];
    (apply lockBlind_get; [reflexivity|]); intros s;
    destruct (files s !! p) as [[c t|t]|];
    try apply lockBlind_ret; try apply lockBlind_throw.
  apply lockBlind_bind; [apply lockBlind_if; [apply lockBlind_ret | apply IH]|].
  intros _. apply lockBlind_bind; [apply lockBlind_readClock|].
  intros t. apply lockBlind_modify. reflexivity.
Qed.

Create HintDb blind.

#[local] Hint Resolve lockBlind_ret lockBlind_throw lockBlind_outOfFuel lockBlind_emit
  lockBlind_liftResult lockBlind_existsSync lockBlind_statMtimeMs
  lockBlind_readFileSync lockBlind_unlinkSync lockBlind_readClock
  lockBlind_resolveFrom lockBlind_writeFileSync : blind.

Ltac blind_step :=
  lazymatch goal with
  | |- lockBlind (bind _ _) => apply lockBlind_bind; [|intros ?]
  | |- lockBlind (tryCatch _ _) => apply lockBlind_tryCatch; [|intros ?]
  | |- lockBlind (if _ then _ else _) => apply lockBlind_if
  | |- lockBlind (match _ with Some _ => _ | None => _ end) =>
      let x := fresh in
      match goal with |- lockBlind (match ?o with _ => _ end) => destruct o as [x|] end
  | |- _ => solve [auto with blind]
  end.

Lemma lockBlind_classify (h : Host) (importPath baseDir : jsstring)
    (vibeDebug : bool) : lockBlind (classify h importPath baseDir vibeDebug).
Proof. unfold classify. repeat blind_step. Qed.

Lemma lockBlind_probeExtensions (exts : list jsstring)
    (strippedPath resolved : jsstring) :
  lockBlind (probeExtensions exts strippedPath resolved).
Proof.
  induction exts as [|ext exts IH]; cbn [probeExtensions]; [auto with blind|].
  repeat blind_step.
Qed.

Lemma lockBlind_probeRelative (h : Host) (importPath baseDir : jsstring)
    (r : Resolution) : lockBlind (probeRelative h importPath baseDir r).
Proof.
  unfold probeRelative. repeat blind_step. apply lockBlind_probeExtensions.
Qed.

Lemma lockBlind_autoHeal (h : Host) (importPath baseDir : jsstring)
    (vibeDebug : bool) (r : Resolution) :
  lockBlind (autoHeal h importPath baseDir vibeDebug r).
Proof. unfold autoHeal. repeat blind_step. Qed.

Lemma lockBlind_finalFallback (h : Host) (importPath baseDir : jsstring)
    (vibeDebug : bool) (r : Resolution) :
  lockBlind (finalFallback h importPath baseDir vibeDebug r).
Proof. unfold finalFallback. repeat blind_step. Qed.

Lemma lockBlind_resolveSpecifier (h : Host) (importPath baseDir : jsstring)
    (vibeDebug : bool) :
  lockBlind (resolveSpecifier h importPath baseDir vibeDebug).
Proof.
  unfold resolveSpecifier.
  apply lockBlind_bind; [apply lockBlind_classify|]. intros r0.
  apply lockBlind_bind; [apply lockBlind_probeRelative|]. intros r1.
  apply lockBlind_bind; [apply lockBlind_autoHeal|]. intros r2.
  apply lockBlind_finalFallback.
Qed.

Lemma lockBlind_cacheIsStale (cachedFile resolved : jsstring) :
  lockBlind (cacheIsStale cachedFile resolved).
Proof. unfold cacheIsStale. repeat blind_step. Qed.

Section Loop.

Variable h : Host.
Variable rw : jsstring -> jsstring -> jsstring -> bool -> M jsstring.

Hypothesis rw_blind :
  forall code baseDir cacheDir vibeDebug,
    lockBlind (rw code baseDir cacheDir vibeDebug).

Lemma lockBlind_regenerate (cachedFile resolved fileExt cacheDir : jsstring)
    (vibeDebug : bool) :
  lockBlind (regenerate h rw cachedFile resolved fileExt cacheDir vibeDebug).
Proof. unfold regenerate. repeat blind_step; try apply rw_blind. Qed.

Lemma lockBlind_materialize (r : Resolution) (cacheDir : jsstring)
    (vibeDebug : bool) :
  lockBlind (materialize h rw r cacheDir vibeDebug).
Proof.
  unfold materialize. repeat blind_step;
    first [apply lockBlind_cacheIsStale | apply lockBlind_regenerate].
Qed.

Lemma lockBlind_rewriteOne (baseDir cacheDir : jsstring) (vibeDebug : bool)
    (m : RegExpMatch) (acc : jsstring * Z) :
  lockBlind (rewriteOne h rw baseDir cacheDir vibeDebug m acc).
Proof.
  unfold rewriteOne.
  apply lockBlind_bind; [apply lockBlind_resolveSpecifier|]. intros r.
  apply lockBlind_if; [auto with blind|].
  apply lockBlind_bind; [apply lockBlind_materialize|]. intros target.
  auto with blind.
Qed.

Lemma lockBlind_rewriteLoop (baseDir cacheDir : jsstring) (vibeDebug : bool)
    (ms : list RegExpMatch) (acc : jsstring * Z) :
  lockBlind (rewriteLoop h rw baseDir cacheDir vibeDebug ms acc).
Proof.
  revert acc. induction ms as [|m rest IH]; intros acc; cbn [rewriteLoop].
  - auto with blind.
  - apply lockBlind_bind; [apply lockBlind_rewriteOne|]. intros acc'. apply IH.
Qed.

End Loop.

Lemma lockBlind_rewriteImports (h : Host) (fuel : nat) :
  forall code baseDir cacheDir vibeDebug,
    lockBlind (rewriteImports h fuel code baseDir cacheDir vibeDebug).
Proof.
  induction fuel as [|fuel IH]; intros code baseDir cacheDir vibeDebug;
    cbn [rewriteImports]; [auto with blind|].
  apply lockBlind_bind; [|intros out; auto with blind].
  apply lockBlind_rewriteLoop. exact IH.
Qed.

Lemma lockBlind_prepareModule (h : Host) (fuel : nat) (absolutePath : jsstring)
    (vibeDebug : bool) :
  lockBlind (prepareModule h fuel absolutePath vibeDebug).
Proof.
  unfold prepareModule.
  apply lockBlind_bind; [auto with blind|]. intros source.
  apply lockBlind_bind; [auto with blind|]. intros _.
  apply lockBlind_bind; [auto with blind|]. intros result.
  apply lockBlind_bind; [apply lockBlind_mkdirRecursive|]. intros _.
  apply lockBlind_bind; [apply lockBlind_readClock|]. intros now.
  apply lockBlind_bind; [apply lockBlind_rewriteImports|]. intros code.
  auto with blind.
Qed.

Lemma lockBlind_loadFresh (h : Host) (fuel : nat) (absolutePath : jsstring)
    (mtime : Z) (vibeDebug : bool) :
  lockBlind (loadFresh h fuel absolutePath mtime vibeDebug).
Proof.
  unfold loadFresh.
  apply lockBlind_bind; [apply lockBlind_prepareModule|]. intros prepared.
  apply lockBlind_bind; [auto with blind|]. intros _.
  apply lockBlind_tryCatch.
  - apply lockBlind_bind; [auto with blind|]. intros _.
    apply lockBlind_get; [reflexivity|]. intros s.
    apply lockBlind_bind; [auto with blind|]. intros module.
    apply lockBlind_bind; [apply lockBlind_modify; reflexivity|]. intros _.
    apply lockBlind_bind; [|intros _; auto with blind].
    apply lockBlind_if; [apply lockBlind_modify; reflexivity | auto with blind].
  - intros e. apply lockBlind_bind; [|intros _; auto with blind].
    apply lockBlind_if; [|auto with blind].
    apply lockBlind_tryCatch; [auto with blind | intros _; auto with blind].
Qed.

Lemma lockBlind_transformFile (h : Host) (fuel : nat) (filePath : jsstring)
    (vibeDebug : bool) :
  lockBlind (transformFile h fuel filePath vibeDebug).
Proof.
  unfold transformFile.
  apply lockBlind_bind; [apply lockBlind_if; auto with blind|]. intros _.
  apply lockBlind_bind; [auto with blind|]. intros present.
  apply lockBlind_if; [auto with blind|].
  apply lockBlind_bind; [auto with blind|]. intros mtime.
  apply lockBlind_get; [reflexivity|]. intros s.
  destruct (moduleCache s !! _) as [cached|].
  - apply lockBlind_if; [auto with blind | apply lockBlind_loadFresh].
  - apply lockBlind_loadFresh.
Qed.

(** [lockFrameworkDependencies] changes nothing but the locked paths. *)
Lemma lockFrameworkDependencies_relock (h : Host) (projectRoot : jsstring)
    (st : State) :
  exists a b, fst (lockFrameworkDependencies h projectRoot st) = relock a b st.
Proof.
  unfold lockFrameworkDependencies, tryCatch, bind, resolveFrom, bind, get,
    liftResult, modify, ret, throw.
  destruct st as [fs tk mc la lb im tr]. cbn [files].
  destruct (requireResolve h fs _ (js "react")) as [e|react]; cbn.
  { exists la, lb. reflexivity. }
  destruct (realpathSync h fs react) as [e|reactReal]; cbn.
  { exists la, lb. reflexivity. }
  destruct (requireResolve h fs _ (js "react-dom")) as [e|reactDom]; cbn.
  { exists (Some reactReal), lb. reflexivity. }
  destruct (realpathSync h fs reactDom) as [e|reactDomReal]; cbn.
  { exists (Some reactReal), lb. reflexivity. }
  exists (Some reactReal), (Some reactDomReal). reflexivity.
Qed.

End LockFacts.

(** X24: the paths that [lockFrameworkDependencies] stores are read by
    nothing in the module. [transformFile] after a call of
    [lockFrameworkDependencies], for any project root, ends exactly as
    it does without that call and does the same to the file system, the
    module cache, the queue of removals and the trace; and
    [transformFile] itself leaves the locked paths as they are. *)
Theorem lockFrameworkDependencies_no_effect (h : Host) (projectRoot : jsstring)
    (fuel : nat) (filePath : jsstring) (vibeDebug : bool) (st : State) :
  let locked := fst (lockFrameworkDependencies h projectRoot st) in
  let plain := transformFile h fuel filePath vibeDebug st in
  let after := transformFile h fuel filePath vibeDebug locked in
  snd after = snd plain /\
  files (fst after) = files (fst plain) /\
  moduleCache (fst after) = moduleCache (fst plain) /\
  immediates (fst after) = immediates (fst plain) /\
  trace (fst after) = trace (fst plain) /\
  lockedReactPath (fst after) = lockedReactPath locked /\
  lockedReactDOMPath (fst after) = lockedReactDOMPath locked.
Proof.
  cbv zeta.
  destruct (LockFacts.lockFrameworkDependencies_relock h projectRoot st)
    as [a [b ->]].
  rewrite (LockFacts.lockBlind_transformFile h fuel filePath vibeDebug a b st).
  cbn [fst snd]. repeat split.
Qed.

(** ** The removal of a stylesheet import *)

Module CssFacts.

Lemma removeCssImportsFrom_skip (s : jsstring) :
  forall k, removeCssImportsFrom s k = removeCssImportsFrom (drop k s) 0.
Proof.
  induction s as [|c s IH]; intros k.
  - rewrite drop_nil. reflexivity.
  - destruct k as [|k]; [reflexivity|]. cbn [removeCssImportsFrom drop]. apply IH.
Qed.

Lemma startsWith_short (u v p : jsstring) :
  (length p <= length u)%nat -> startsWith (u ++ v) p = startsWith u p.
Proof.
  revert u. induction p as [|x p IH]; intros u Hlen; [reflexivity|].
  destruct u as [|c u]; [cbn in Hlen; lia|].
  cbn [app startsWith]. destruct (N.eqb x c); [|reflexivity].
  apply IH. cbn in Hlen. lia.
Qed.

(** Code before the first occurrence of the word import is kept. *)
Lemma removeCssImportsFrom_lead (pre t : jsstring) :
  includes (pre ++ js "impor") (js "import") = false ->
  removeCssImportsFrom (pre ++ js "import" ++ t) 0
  = pre ++ removeCssImportsFrom (js "import" ++ t) 0.
Proof.
  induction pre as [|c pre IH]; intros H; [reflexivity|].
  cbn [app includes] in H. apply orb_false_iff in H as [H1 H2].
  cbn [app removeCssImportsFrom]. unfold matchCssImportAt.
  assert (Hs : startsWith (c :: pre ++ js "import" ++ t) (js "import") = false).
  { change (js "import" ++ t) with (js "impor" ++ (116 :: t)).
    change (c :: pre ++ js "impor" ++ 116 :: t)
      with ((c :: pre) ++ js "impor" ++ 116 :: t).
    rewrite app_assoc. rewrite startsWith_short; [exact H1|].
    rewrite length_app. change (length (js "import")) with 6%nat.
    change (length (js "impor")) with 5%nat. cbn [length]. lia. }
  rewrite (MatchFacts.startsWith_stripPrefix _ _ Hs).
  rewrite (IH H2). reflexivity.
Qed.

Lemma quote_not_space (q : N) : isQuote q = true -> isSpace q = false.
Proof.
  unfold isQuote. rewrite orb_true_iff, !N.eqb_eq. intros [-> | ->]; reflexivity.
Qed.

Lemma matchCssImportAt_statement (ws body rest : jsstring) (q q' : N) :
  ws <> [] ->
  Forall (fun c => isSpace c = true) ws ->
  isQuote q = true -> isQuote q' = true ->
  Forall (fun c => isQuote c = false) body ->
  endsWith body (js ".css") = true ->
  matchCssImportAt (js "import" ++ ws ++ q :: body ++ q' :: rest)
  = Some (6 + length ws + 1 + length body + 1
          + match rest with
            | c :: _ => if N.eqb c 59 then 1 else 0
            | [] => 0
            end)%nat.
Proof.
  intros Hne Hws Hq Hq' Hbody Hcss. unfold matchCssImportAt.
  assert (H0 : stripPrefix (js "import") (js "import" ++ ws ++ q :: body ++ q' :: rest)
               = Some (ws ++ q :: body ++ q' :: rest)).
  { apply JSFacts.stripPrefix_app. reflexivity. }
  rewrite H0.
  rewrite (PathFacts.span_all isSpace ws (q :: body ++ q' :: rest) Hws);
    [|right; exists q, (body ++ q' :: rest); split;
      [reflexivity | apply quote_not_space; exact Hq]].
  destruct ws as [|w ws]; [contradiction|]. rewrite Hq.
  rewrite (PathFacts.span_all notQuote body (q' :: rest)).
  - rewrite Hcss. reflexivity.
  - eapply Forall_impl; [exact Hbody|]. intros c Hc. unfold notQuote.
    rewrite Hc. reflexivity.
  - right. exists q', rest. split; [reflexivity|]. unfold notQuote.
    rewrite Hq'. reflexivity.
Qed.

End CssFacts.

(** X25: a stylesheet import (the word import, white space, a quoted
    token without quotes in it that ends in [.css], and a semicolon if
    one follows) is cut out of the code together with its semicolon, the
    code before it is kept when the word import does not occur earlier,
    and the removal goes on with the code after it. The two quotes need
    not be the same. *)
Theorem removeCssImports_statement (pre ws body rest : jsstring) (q q' : N) :
  includes (pre ++ js "impor") (js "import") = false ->
  ws <> [] ->
  Forall (fun c => isSpace c = true) ws ->
  isQuote q = true -> isQuote q' = true ->
  Forall (fun c => isQuote c = false) body ->
  endsWith body (js ".css") = true ->
  removeCssImports (pre ++ js "import" ++ ws ++ q :: body ++ q' :: rest)
  = pre ++ removeCssImports (dropSemicolon rest).
Proof.
  intros Hpre Hne Hws Hq Hq' Hbody Hcss. unfold removeCssImports.
  rewrite (CssFacts.removeCssImportsFrom_lead pre _ Hpre). f_equal.
  set (s := js "import" ++ ws ++ q :: body ++ q' :: rest).
  pose proof (CssFacts.matchCssImportAt_statement ws body rest q q' Hne Hws Hq Hq'
                Hbody Hcss) as Hm.
  fold s in Hm.
  assert (Hs : s = 105 :: (js "mport" ++ ws ++ q :: body ++ q' :: rest))
    by reflexivity.
  rewrite Hs in Hm |- *. cbn [removeCssImportsFrom]. rewrite Hm.
  rewrite CssFacts.removeCssImportsFrom_skip. f_equal.
  replace (js "mport" ++ ws ++ q :: body ++ q' :: rest)
    with ((js "mport" ++ ws ++ q :: body ++ [q']) ++ rest)
    by (rewrite <- !app_assoc; cbn [app]; rewrite <- !app_assoc; reflexivity).
  assert (Hlen : length (js "mport" ++ ws ++ q :: body ++ [q'])
                 = (5 + length ws + 1 + length body + 1)%nat).
  { rewrite !length_app. cbn [length]. rewrite length_app.
    change (length (js "mport")) with 5%nat. cbn [length]. lia. }
  destruct rest as [|c rest]; cbn [dropSemicolon].
  - rewrite app_nil_r. apply drop_ge. rewrite Hlen. lia.
  - destruct (N.eqb c 59).
    + replace (6 + length ws + 1 + length body + 1 + 1 - 1)%nat
        with (length (js "mport" ++ ws ++ q :: body ++ [q']) + 1)%nat
        by (rewrite Hlen; lia).
      rewrite <- drop_drop, drop_app_length. reflexivity.
    + replace (6 + length ws + 1 + length body + 1 + 0 - 1)%nat
        with (length (js "mport" ++ ws ++ q :: body ++ [q']))
        by (rewrite Hlen; lia).
      apply drop_app_length.
Qed.

Lemma removeCssImports_statement_witness :
  removeCssImports (js "const a = 1;" ++ js "import" ++ js " " ++ 39 :: js "./x.css"
                    ++ 34 :: js ";export {};")
  = js "const a = 1;" ++ removeCssImports (js "export {};").
Proof.
  apply (removeCssImports_statement (js "const a = 1;") (js " ") (js "./x.css")
           (js ";export {};") 39 34).
  - vm_compute. reflexivity.
  - discriminate.
  - vm_compute. repeat constructor.
  - reflexivity.
  - reflexivity.
  - vm_compute. repeat constructor.
  - vm_compute. reflexivity.
Defined.

(** ** The callback hook *)

Module CallbackFacts.

Section WithNumbers.

Variable Num : Type.
Variable zero : Num.
Variable succ : Num -> Num.
Variable add sub div : Num -> Num -> Num.
Variable positive : Num -> bool.
Variable display : Num -> jsstring.
Variable toFixed2 : Num -> jsstring.
Variable performanceNow : nat -> Num.
Variable Args Result User : Type.

Local Abbreviation World := (Callback.World Num User).
Local Abbreviation Fn := (Callback.Fn Num Args Result User).
Local Abbreviation readRef := (Callback.readRef Num zero User).
Local Abbreviation writeRef := (Callback.writeRef Num User).
Local Abbreviation memoizedCallback :=
  (Callback.memoizedCallback Num zero succ add sub div display toFixed2
     performanceNow Args Result User).

Lemma readRef_write_same (a : nat) (v : Num) (w : World) :
  (a < length (Callback.heap Num User w))%nat -> readRef a (writeRef a v w) = v.
Proof.
  intros H. unfold Callback.readRef, Callback.writeRef. cbn [Callback.heap].
  apply nth_lookup_Some with (d := zero). apply list_lookup_insert_eq. exact H.
Qed.

Lemma readRef_write_other (a b : nat) (v : Num) (w : World) :
  a <> b -> readRef a (writeRef b v w) = readRef a w.
Proof.
  intros H. unfold Callback.readRef, Callback.writeRef. cbn [Callback.heap].
  rewrite !nth_lookup. rewrite list_lookup_insert_ne by congruence. reflexivity.
Qed.

Lemma readRef_log (a : nat) (line : jsstring) (w : World) :
  readRef a (Callback.log Num User line w) = readRef a w.
Proof. reflexivity. Qed.

Lemma readRef_tick (a : nat) (w : World) :
  readRef a (Callback.tick Num User w) = readRef a w.
Proof. reflexivity. Qed.

Lemma length_write (a : nat) (v : Num) (w : World) :
  length (Callback.heap Num User (writeRef a v w)) = length (Callback.heap Num User w).
Proof. unfold Callback.writeRef. cbn [Callback.heap]. apply length_insert. Qed.

(** A wrapper leaves every cell but its own two as the wrapped function
    leaves it. *)
Lemma memoizedCallback_other_cell (callback : Fn)
    (options : Callback.FloatCallbackOptions) (c t a : nat) (args : Args)
    (w : World) :
  a <> c -> a <> t ->
  (forall x w0, readRef a (fst (callback x w0)) = readRef a w0) ->
  readRef a (fst (memoizedCallback callback options c t args w)) = readRef a w.
Proof.
  intros Hc Ht Hcb. unfold Callback.memoizedCallback. cbv zeta.
  set (w1 := writeRef c _ w).
  set (w2 := if _ && _ then _ else w1).
  assert (H2 : readRef a w2 = readRef a w).
  { unfold w2. destruct (_ && _); rewrite ?readRef_log; unfold w1;
      apply readRef_write_other; exact Hc. }
  destruct (default false (Callback.metrics options)).
  - pose proof (Hcb args (Callback.tick Num User w2)) as H3.
    destruct (callback args (Callback.tick Num User w2)) as [w4 [e|result]];
      cbn [fst] in *.
    + rewrite H3, readRef_tick. exact H2.
    + destruct (_ && _); rewrite ?readRef_log;
        rewrite readRef_write_other by exact Ht;
        rewrite readRef_tick, H3, readRef_tick; exact H2.
  - rewrite Hcb. exact H2.
Qed.

End WithNumbers.

End CallbackFacts.



(** X27: [useFloatCallbackMetrics] reports nothing of what the wrappers
    of [useFloatCallback] have counted. Its two cells are created on its
    first render, at addresses that no cell had before, and hold zero;
    as long as they hold zero a render returns the three zeros and
    leaves the heap as it is; and a wrapper with other cells, around a
    function that does not write the cell, never changes it.
    [useFloatCallback] in turn creates its own two cells on its first
    render, keeps them on later renders and leaves all existing cells as
    they are. *)
Theorem useFloatCallbackMetrics_zero (Num : Type) (zero : Num) (succ : Num -> Num)
    (add sub div : Num -> Num -> Num) (positive : Num -> bool)
    (display toFixed2 : Num -> jsstring) (performanceNow : nat -> Num)
    (Args Result Deps User : Type) (sameDeps : Deps -> Deps -> bool) :
  let metricsHook := Callback.useFloatCallbackMetrics Num zero div positive in
  let callbackHook :=
    Callback.useFloatCallback Num zero succ add sub div display toFixed2
      performanceNow Args Result Deps User sameDeps in
  let wrapper :=
    Callback.memoizedCallback Num zero succ add sub div display toFixed2
      performanceNow Args Result User in
  let readRef := Callback.readRef Num zero User in
  positive zero = false ->
  (forall h,
     metricsHook None h
     = (Callback.MkMetrics Num zero zero zero, (length h, S (length h)),
        h ++ [zero; zero])) /\
  (forall a b h,
     nth a h zero = zero -> nth b h zero = zero ->
     metricsHook (Some (a, b)) h
     = (Callback.MkMetrics Num zero zero zero, (a, b), h)) /\
  (forall callback options c t a args w,
     a <> c -> a <> t ->
     (forall x w0, readRef a (fst (callback x w0)) = readRef a w0) ->
     readRef a (fst (wrapper callback options c t args w)) = readRef a w) /\
  (forall callback deps options h,
     exists fn,
       callbackHook callback deps options None h
       = (fn, Callback.MkSlot Num Args Result Deps User (length h) (S (length h))
                fn deps,
          h ++ [zero; zero])) /\
  (forall callback deps options s h,
     exists fn kept,
       callbackHook callback deps options (Some s) h
       = (fn, Callback.MkSlot Num Args Result Deps User
                (Callback.callCountSlot Num Args Result Deps User s)
                (Callback.totalTimeSlot Num Args Result Deps User s) fn kept,
          h)).
Proof.
  intros metricsHook callbackHook wrapper readRef Hpos.
  subst metricsHook callbackHook wrapper readRef.
  split; [|split; [|split; [|split]]].
  - intros h. unfold Callback.useFloatCallbackMetrics, Callback.useRef.
    cbn [option_map]. rewrite length_app. cbn [length].
    rewrite Nat.add_1_r.
    assert (H1 : nth (length h) ((h ++ [zero]) ++ [zero]) zero = zero).
    { rewrite <- app_assoc. rewrite app_nth2 by lia. rewrite Nat.sub_diag.
      reflexivity. }
    assert (H2 : nth (S (length h)) ((h ++ [zero]) ++ [zero]) zero = zero).
    { rewrite <- app_assoc. rewrite app_nth2 by lia.
      replace (S (length h) - length h)%nat with 1%nat by lia. reflexivity. }
    rewrite H1, H2, Hpos, <- app_assoc. reflexivity.
  - intros a b h Ha Hb. unfold Callback.useFloatCallbackMetrics, Callback.useRef.
    cbn [option_map fst snd]. rewrite Ha, Hb, Hpos. reflexivity.
  - intros callback options c t a args w Hc Ht Hcb.
    apply CallbackFacts.memoizedCallback_other_cell; assumption.
  - intros callback deps options h. eexists.
    unfold Callback.useFloatCallback, Callback.useRef. cbn [option_map].
    rewrite length_app. cbn [length]. rewrite Nat.add_1_r, <- app_assoc.
    reflexivity.
  - intros callback deps options s h.
    unfold Callback.useFloatCallback, Callback.useRef. cbn [option_map].
    destruct (sameDeps _ deps); eexists; eexists; reflexivity.
Qed.

Lemma useFloatCallbackMetrics_zero_witness :
  Callback.useFloatCallbackMetrics Z 0%Z Z.div (Z.ltb 0) (Some (2%nat, 3%nat))
    [7%Z; 120%Z; 0%Z; 0%Z]
  = (Callback.MkMetrics Z 0%Z 0%Z 0%Z, (2%nat, 3%nat), [7%Z; 120%Z; 0%Z; 0%Z]).
Proof.
  apply (useFloatCallbackMetrics_zero Z 0%Z Z.succ Z.add Z.sub Z.div (Z.ltb 0)
           intToString intToString Z.of_nat unit Z unit unit (fun _ _ => true)
           eq_refl).
  - reflexivity.
  - reflexivity.
Defined.
